(** * ARVIN, Agent01: the chart-directive and data-cleaning pipeline

    A shallow embedding of [backend/Agent01/functions.py], of the chart
    handling of [backend/routes.py] ([chat]) and of the sampling bounds of
    [backend/config.py], with the properties of the specification stated
    and settled on it.  Further properties cover the reading of an
    upload, the calls to the model, the price route with
    [backend/Agent02/tools.py], the accounts of [backend/Database/auth.py]
    with the routes [/login] and [/register], and the session store with
    the route [/upload].

    Conventions of the embedding.
    - Python [str] is a Rocq [string]; case folding and white space are the
      ASCII ones.
    - A float64 or int64 cell is an exact rational ([Q]); [None] is NaN.
      Percentiles, clamping and rounding are computed exactly.
    - A pandas column is a [Series] tagged with its dtype; a table is a row
      index together with named columns, as a [DataFrame] is.  Column
      labels are texts, and so are the cells of an object column; [df[c]]
      is the first column labelled [c].  In a sum the cells of a bool
      column count as 0 and 1.
    - What pandas, matplotlib, [re], [json] and [random] do is written out
      as functions of this file, next to the call they stand for.  The
      exceptions modelled are the ones the code raises itself, the
      [KeyError] of [dropna], the [TypeError] of the percentile of a bool
      column and of a plot without a column of numbers, and the error of
      a response whose answer is not a text.  The PNG is stood for by what
      is drawn.
    - [groupby] gives its groups sorted by key and [value_counts] its
      values sorted by count; among values counted equally often the
      order of first appearance is kept.
    - A row of the table of users is kept without its time of creation;
      the summary of a table is taken as [summarise_dataframe] gives it. *)

From Stdlib Require Import List String Ascii Bool Arith ZArith QArith Qround Qabs Sorted
  Permutation Lia Lqa.
Import ListNotations.

Local Open Scope string_scope.
Local Open Scope list_scope.

(* ================================================================== *)
(** * Text *)
(* ================================================================== *)

Definition code (c : ascii) : nat := nat_of_ascii c.

Definition in_range (lo hi : nat) (c : ascii) : bool :=
  (lo <=? code c)%nat && (code c <=? hi)%nat.

Definition is_digit (c : ascii) : bool := in_range 48 57 c.
Definition is_upper (c : ascii) : bool := in_range 65 90 c.
Definition is_lower (c : ascii) : bool := in_range 97 122 c.

(** The characters [str.strip()] removes, among the 7-bit ones:
    tab, line feed, vertical tab, form feed, carriage return, the four
    separators 28..31 and the space. *)
Definition is_space (c : ascii) : bool :=
  in_range 9 13 c || in_range 28 32 c.

Definition lower_ascii (c : ascii) : ascii :=
  if is_upper c then ascii_of_nat (code c + 32) else c.

Definition upper_ascii (c : ascii) : ascii :=
  if is_lower c then ascii_of_nat (code c - 32) else c.

(** [s.lower()] *)
Fixpoint lower (s : string) : string :=
  match s with
  | EmptyString => EmptyString
  | String c r => String (lower_ascii c) (lower r)
  end.

(** [s.startswith(p)] *)
Fixpoint startswith (p s : string) : bool :=
  match p, s with
  | EmptyString, _ => true
  | String a p', String b s' => Ascii.eqb a b && startswith p' s'
  | String _ _, EmptyString => false
  end.

(** [sub in s] *)
Fixpoint contains (sub s : string) : bool :=
  startswith sub s ||
  match s with
  | EmptyString => false
  | String _ r => contains sub r
  end.

Fixpoint string_filter (f : ascii -> bool) (s : string) : string :=
  match s with
  | EmptyString => EmptyString
  | String c r => if f c then String c (string_filter f r) else string_filter f r
  end.

Fixpoint string_forallb (f : ascii -> bool) (s : string) : bool :=
  match s with
  | EmptyString => true
  | String c r => f c && string_forallb f r
  end.

Fixpoint string_rev_onto (acc s : string) : string :=
  match s with
  | EmptyString => acc
  | String c r => string_rev_onto (String c acc) r
  end.

Definition string_rev (s : string) : string := string_rev_onto EmptyString s.

Fixpoint lstrip (s : string) : string :=
  match s with
  | EmptyString => EmptyString
  | String c r => if is_space c then lstrip r else s
  end.

Definition rstrip (s : string) : string := string_rev (lstrip (string_rev s)).

(** [s.strip()] *)
Definition strip (s : string) : string := rstrip (lstrip s).

(** [sep.join(parts)] *)
Fixpoint join (sep : string) (parts : list string) : string :=
  match parts with
  | [] => EmptyString
  | [p] => p
  | p :: rest => p ++ sep ++ join sep rest
  end.

(** [s.title()]: the first letter of every run of letters in upper case,
    the others in lower case. *)
Fixpoint title_from (after_letter : bool) (s : string) : string :=
  match s with
  | EmptyString => EmptyString
  | String c r =>
      let letter := is_upper c || is_lower c in
      String (if after_letter then lower_ascii c else upper_ascii c)
             (title_from letter r)
  end.

Definition title (s : string) : string := title_from false s.

(** Source texts that hold double quotes are written with single quotes
    and converted by [dq]. *)
Definition dquote : ascii := ascii_of_nat 34.
Definition squote : ascii := ascii_of_nat 39.

Fixpoint dq (s : string) : string :=
  match s with
  | EmptyString => EmptyString
  | String c r => String (if Ascii.eqb c squote then dquote else c) (dq r)
  end.

(* ================================================================== *)
(** * Numbers *)
(* ================================================================== *)

Fixpoint pow10 (n : nat) : positive :=
  match n with
  | O => 1%positive
  | S k => (10 * pow10 k)%positive
  end.

Definition digit_val (c : ascii) : Z := Z.of_nat (code c - 48).

Fixpoint digits_to_Z (acc : Z) (s : string) : Z :=
  match s with
  | EmptyString => acc
  | String c r => digits_to_Z (10 * acc + digit_val c) r
  end.

(** The text before the first dot, and the text after it when there is one. *)
Fixpoint split_dot (s : string) : string * option string :=
  match s with
  | EmptyString => (EmptyString, None)
  | String c r =>
      if Ascii.eqb c "."
      then (EmptyString, Some r)
      else let (a, b) := split_dot r in (String c a, b)
  end.

Definition parse_unsigned (s : string) : option Q :=
  let (ip, fp) := split_dot s in
  let fd := match fp with Some f => f | None => EmptyString end in
  if string_forallb is_digit ip && string_forallb is_digit fd
     && negb (String.length ip + String.length fd =? 0)%nat
  then Some (Qmake (digits_to_Z 0 (ip ++ fd)) (pow10 (String.length fd)))
  else None.

(** [pd.to_numeric(x, errors="coerce")] for one text cell, on the alphabet
    that survives [_CURRENCY_RE]: digits, dot and minus.  A number is an
    optional minus sign and digits with at most one dot and at least one
    digit; anything else is NaN. *)
Definition to_numeric (s : string) : option Q :=
  match s with
  | String c r =>
      if Ascii.eqb c "-" then option_map Qopp (parse_unsigned r)
      else parse_unsigned s
  | EmptyString => None
  end.

(** Rounding to the nearest integer, ties to the even one, as numpy's
    [round] does. *)
Definition round_half_even (x : Q) : Z :=
  let f := Qfloor x in
  match Qcompare (x - inject_Z f) (1 # 2) with
  | Lt => f
  | Gt => (f + 1)%Z
  | Eq => if Z.even f then f else (f + 1)%Z
  end.

(** [x.round(2)] *)
Definition round2 (x : Q) : Q := Qmake (round_half_even (x * 100)) 100.

Fixpoint insert_sorted (x : Q) (l : list Q) : list Q :=
  match l with
  | [] => [x]
  | y :: r => if Qle_bool x y then x :: l else y :: insert_sorted x r
  end.

Fixpoint sort_Q (l : list Q) : list Q :=
  match l with
  | [] => []
  | x :: r => insert_sorted x (sort_Q r)
  end.

Fixpoint somes {A : Type} (l : list (option A)) : list A :=
  match l with
  | [] => []
  | Some x :: r => x :: somes r
  | None :: r => somes r
  end.

(** [Series.quantile(q)] with the default linear interpolation: the value
    at position [(n-1)*q] of the sorted non-null values; NaN on an empty
    column. *)
Definition quantile (vals : list (option Q)) (q : Q) : option Q :=
  let xs := sort_Q (somes vals) in
  match xs with
  | [] => None
  | x0 :: _ =>
      let h := (inject_Z (Z.of_nat (List.length xs - 1)) * q)%Q in
      let lo := Z.to_nat (Qfloor h) in
      let frac := (h - inject_Z (Qfloor h))%Q in
      let a := nth lo xs x0 in
      let b := nth (S lo) xs a in
      Some (a + frac * (b - a))%Q
  end.

(** [x.clip(lower, upper)] on one cell; a NaN bound does not bound. *)
Definition clip1 (lower upper : option Q) (x : Q) : Q :=
  let y := match lower with
           | Some l => if Qlt_le_dec x l then l else x
           | None => x
           end in
  match upper with
  | Some u => if Qlt_le_dec u y then u else y
  | None => y
  end.

(* ================================================================== *)
(** * Columns and tables *)
(* ================================================================== *)

(** A column with its dtype: int64 or float64, bool, datetime64, object.
    An object cell is [Some s] for a value whose [str()] is [s]. *)
Inductive Series : Type :=
| NumCol (v : list (option Q))
| BoolCol (v : list bool)
| TimeCol (v : list (option Z))
| ObjCol (v : list (option string)).

Definition is_numeric_dtype (s : Series) : bool :=
  match s with
  | NumCol _ | BoolCol _ => true
  | _ => false
  end.

Definition is_datetime64_any_dtype (s : Series) : bool :=
  match s with
  | TimeCol _ => true
  | _ => false
  end.

Definition is_bool_dtype (s : Series) : bool :=
  match s with
  | BoolCol _ => true
  | _ => false
  end.

Definition is_object_dtype (s : Series) : bool :=
  match s with
  | ObjCol _ => true
  | _ => false
  end.

Definition series_len (s : Series) : nat :=
  match s with
  | NumCol v => List.length v
  | BoolCol v => List.length v
  | TimeCol v => List.length v
  | ObjCol v => List.length v
  end.

Definition Q_of_bool (b : bool) : Q := if b then 1 else 0.

(** [col.astype("int64")] of a bool column. *)
Definition astype_int64 (s : Series) : Series :=
  match s with
  | BoolCol v => NumCol (map (fun b => Some (Q_of_bool b)) v)
  | _ => s
  end.

(** [col.astype(str)] of an object column: a null cell becomes the text
    [nan]. *)
Definition astype_str (v : list (option string)) : list string :=
  map (fun x => match x with Some s => s | None => "nan" end) v.

(** [_CURRENCY_RE = re.compile(r"[^\d.,\-]")]: the characters it keeps. *)
Definition currency_keep (c : ascii) : bool :=
  is_digit c || Ascii.eqb c "." || Ascii.eqb c "," || Ascii.eqb c "-".

(** [.str.replace(_CURRENCY_RE, "", regex=True).str.replace(",", "")] *)
Definition clean_text (s : string) : string :=
  string_filter (fun c => negb (Ascii.eqb c ",")) (string_filter currency_keep s).

Definition count_notna {A : Type} (l : list (option A)) : nat :=
  List.length (somes l).

(** [nums.notna().mean()]: NaN on an empty column. *)
Definition notna_mean {A : Type} (l : list (option A)) : option Q :=
  match l with
  | [] => None
  | _ => Some (Qmake (Z.of_nat (count_notna l)) (Pos.of_nat (List.length l)))
  end.

(** [m >= 0.10], false when [m] is NaN. *)
Definition ge_tenth (m : option Q) : bool :=
  match m with
  | Some x => Qle_bool (1 # 10) x
  | None => false
  end.

Definition coerce_numeric (col : Series) : Series :=
  if is_numeric_dtype col then col
  else if is_datetime64_any_dtype col then col
  else if is_bool_dtype col then astype_int64 col
  else
    match col with
    | ObjCol v =>
        let cleaned := map clean_text (astype_str v) in
        let nums := map to_numeric cleaned in
        if ge_tenth (notna_mean nums) then NumCol nums else col
    | _ => col
    end.

(** A [DataFrame]: the row labels and the named columns, in table order.
    [len(df)] is the number of row labels. *)
Record DataFrame : Type := mkDF {
  index : list nat;
  columns : list (string * Series)
}.

Definition len (df : DataFrame) : nat := List.length (index df).

Fixpoint lookup {A : Type} (c : string) (l : list (string * A)) : option A :=
  match l with
  | [] => None
  | (n, x) :: r => if String.eqb c n then Some x else lookup c r
  end.

(** [df[c]] *)
Definition column (df : DataFrame) (c : string) : option Series :=
  lookup c (columns df).

(** [c in df.columns] *)
Definition has_column (df : DataFrame) (c : string) : bool :=
  match column df c with
  | Some _ => true
  | None => false
  end.

(** Boolean-mask selection, [x[mask]]. *)
Fixpoint select {A : Type} (mask : list bool) (l : list A) : list A :=
  match mask, l with
  | b :: m, x :: r => if b then x :: select m r else select m r
  | _, _ => []
  end.

Definition series_select (mask : list bool) (s : Series) : Series :=
  match s with
  | NumCol v => NumCol (select mask v)
  | BoolCol v => BoolCol (select mask v)
  | TimeCol v => TimeCol (select mask v)
  | ObjCol v => ObjCol (select mask v)
  end.

(** [df[mask]] *)
Definition take_rows (mask : list bool) (df : DataFrame) : DataFrame :=
  {| index := select mask (index df);
     columns := map (fun nc => (fst nc, series_select mask (snd nc))) (columns df) |}.

Definition is_none {A : Type} (x : option A) : bool :=
  match x with
  | None => true
  | Some _ => false
  end.

(** [s.isna()] *)
Definition isna (s : Series) : list bool :=
  match s with
  | NumCol v => map is_none v
  | BoolCol v => map (fun _ => false) v
  | TimeCol v => map is_none v
  | ObjCol v => map is_none v
  end.

Fixpoint and_masks (m1 m2 : list bool) : list bool :=
  match m1, m2 with
  | a :: r1, b :: r2 => (a && b) :: and_masks r1 r2
  | _, _ => []
  end.

(** The rows with no null in any column of [cols]. *)
Definition notna_rows (df : DataFrame) (cols : list string) : list bool :=
  fold_left
    (fun m c =>
       match column df c with
       | Some s => and_masks m (map negb (isna s))
       | None => m
       end)
    cols (map (fun _ => true) (index df)).

(** [df.dropna(subset=cols)]; [None] is the [KeyError] pandas raises for a
    label of [cols] that is not a column. *)
Definition dropna (df : DataFrame) (cols : list string) : option DataFrame :=
  if forallb (has_column df) cols
  then Some (take_rows (notna_rows df cols) df)
  else None.

(** The exceptions; the message of a [ValueError] is kept without the
    value formatted into it. *)
Inductive Exn : Type :=
| ValueError (msg : string)
| KeyError
| TypeError.

(** A call that returns a value or raises. *)
Inductive Outcome (A : Type) : Type :=
| Ok (a : A)
| Raised (e : Exn).

Arguments Ok {A} a.
Arguments Raised {A} e.

(** The cells of a numeric column as numbers, for the sums, where a bool
    cell counts as 0 or 1. *)
Definition num_values (s : Series) : list (option Q) :=
  match s with
  | NumCol v => v
  | BoolCol v => map (fun b => Some (Q_of_bool b)) v
  | _ => []
  end.

(** [s.clip(lower, upper).round(2)] *)
Definition clip_round (lower upper : option Q) (v : list (option Q)) : list (option Q) :=
  map (option_map (fun x => round2 (clip1 lower upper x))) v.

Fixpoint replace_column (c : string) (s : Series) (l : list (string * Series))
  : list (string * Series) :=
  match l with
  | [] => [(c, s)]
  | (n, x) :: r => if String.eqb c n then (n, s) :: r else (n, x) :: replace_column c s r
  end.

(** [df[c] = s] *)
Definition set_column (df : DataFrame) (c : string) (s : Series) : DataFrame :=
  {| index := index df; columns := replace_column c s (columns df) |}.

(** [x >= 0], false on NaN. *)
Definition ge0 (x : option Q) : bool :=
  match x with
  | Some v => Qle_bool 0 v
  | None => false
  end.

(** [s.quantile(q)] raises a [TypeError] on a bool column that has a
    cell (numpy cannot subtract booleans); on a column without cells it
    is NaN, as on any empty column. *)
Definition quantile_raises (s : Series) : bool :=
  match s with
  | BoolCol (_ :: _) => true
  | _ => false
  end.

(** Lines 206 to 209 on the column [s] of [df] labelled [c]. *)
Definition clamp_round_filter (df : DataFrame) (c : string) (s : Series) : DataFrame :=
  let lower := quantile (num_values s) (1 # 100) in
  let upper := quantile (num_values s) (99 # 100) in
  let df1 := set_column df c (NumCol (clip_round lower upper (num_values s))) in
  match column df1 c with
  | Some s1 => take_rows (map ge0 (num_values s1)) df1
  | None => df1
  end.

(** One turn of the loop of [_clean_chart_data]. *)
Definition clean_column (df : DataFrame) (c : string) : Outcome DataFrame :=
  match column df c with
  | None => Ok df
  | Some s =>
      if negb (is_numeric_dtype s) then Ok df
      else if quantile_raises s then Raised TypeError
      else Ok (clamp_round_filter df c s)
  end.

(** The loop: the turns in sequence, up to the first that raises. *)
Fixpoint clean_columns (df : DataFrame) (cols : list string) : Outcome DataFrame :=
  match cols with
  | [] => Ok df
  | c :: rest =>
      match clean_column df c with
      | Ok df1 => clean_columns df1 rest
      | Raised e => Raised e
      end
  end.

Definition _clean_chart_data (df : DataFrame) (cols : list string) : Outcome DataFrame :=
  match dropna df cols with
  | Some df0 => clean_columns df0 cols
  | None => Raised KeyError
  end.

(* ================================================================== *)
(** * Column selection *)
(* ================================================================== *)

Definition _split_cols (df : DataFrame) (cols : list string) : list string * list string :=
  fold_left
    (fun acc c =>
       match column df c with
       | None => acc
       | Some s =>
           if is_numeric_dtype s then (fst acc, snd acc ++ [c])
           else (fst acc ++ [c], snd acc)
       end)
    cols ([], []).

Definition _all_numeric (df : DataFrame) : list string :=
  map fst (filter (fun nc => is_numeric_dtype (snd nc)) (columns df)).

(** The alternatives of [_MONEY_RE]. *)
Definition MONEY_WORDS : list string :=
  ["amount"; "cost"; "price"; "total"; "value"; "balance";
   "paid"; "spend"; "debit"; "credit"].

(** [_MONEY_RE.search(c)], compiled with [re.I]. *)
Definition _MONEY_RE_search (c : string) : bool :=
  existsb (fun w => contains w (lower c)) MONEY_WORDS.

Definition sum_Q (l : list Q) : Q := fold_left Qplus l 0.

(** [df[c].abs().sum()] *)
Definition abs_sum (df : DataFrame) (c : string) : Q :=
  match column df c with
  | Some s => sum_Q (map Qabs (somes (num_values s)))
  | None => 0
  end.

(** [max(l, key=key)]: the first element whose key no later one exceeds. *)
Definition max_by (key : string -> Q) (l : list string) : option string :=
  match l with
  | [] => None
  | x :: r =>
      Some (fold_left (fun best c => if Qlt_le_dec (key best) (key c) then c else best) r x)
  end.

Definition _best_numeric (df : DataFrame) : option string :=
  let nums := _all_numeric df in
  match nums with
  | [] => None
  | _ =>
      match find _MONEY_RE_search nums with
      | Some c => Some c
      | None => max_by (abs_sum df) nums
      end
  end.

(* ================================================================== *)
(** * Group sums and value counts *)
(* ================================================================== *)

(** The keys of a group or the labels of a series: the cells of a
    column, or row labels. *)
Inductive Key : Type :=
| KNum (q : Q)
| KBool (b : bool)
| KTime (t : Z)
| KStr (s : string)
| KRow (i : nat).

Definition key_eqb (a b : Key) : bool :=
  match a, b with
  | KNum x, KNum y => Qeq_bool x y
  | KBool x, KBool y => Bool.eqb x y
  | KTime x, KTime y => Z.eqb x y
  | KStr x, KStr y => String.eqb x y
  | KRow x, KRow y => Nat.eqb x y
  | _, _ => false
  end.

(** The cells of a column as group keys. *)
Definition keys (s : Series) : list (option Key) :=
  match s with
  | NumCol v => map (option_map KNum) v
  | BoolCol v => map (fun b => Some (KBool b)) v
  | TimeCol v => map (option_map KTime) v
  | ObjCol v => map (option_map KStr) v
  end.

(** A pandas [Series] of numbers labelled by keys. *)
Definition Labelled : Type := list (Key * Q).

Fixpoint add_to_group (k : Key) (x : Q) (g : Labelled) : Labelled :=
  match g with
  | [] => [(k, x)]
  | (k', s) :: r =>
      if key_eqb k k' then (k', s + x) :: r else (k', s) :: add_to_group k x r
  end.

(** The order of the keys of one column: numbers and times by value,
    texts by code point. *)
Definition key_leb (a b : Key) : bool :=
  match a, b with
  | KNum x, KNum y => Qle_bool x y
  | KBool x, KBool y => implb x y
  | KTime x, KTime y => Z.leb x y
  | KStr x, KStr y => String.leb x y
  | KRow x, KRow y => Nat.leb x y
  | _, _ => true
  end.

Fixpoint insert_by_key (kx : Key * Q) (g : Labelled) : Labelled :=
  match g with
  | [] => [kx]
  | ky :: r => if key_leb (fst kx) (fst ky) then kx :: g else ky :: insert_by_key kx r
  end.

(** The groups in the order of their keys. *)
Fixpoint sort_by_key (g : Labelled) : Labelled :=
  match g with
  | [] => []
  | kx :: r => insert_by_key kx (sort_by_key r)
  end.

Fixpoint insert_by_count (kx : Key * Q) (g : Labelled) : Labelled :=
  match g with
  | [] => [kx]
  | ky :: r => if Qle_bool (snd ky) (snd kx) then kx :: g else ky :: insert_by_count kx r
  end.

(** The largest count first; equal counts stay in the order they came
    in. *)
Fixpoint sort_by_count (g : Labelled) : Labelled :=
  match g with
  | [] => []
  | kx :: r => insert_by_count kx (sort_by_count r)
  end.

(** The sums of the groups, in order of first appearance: rows with a
    null key are left out; a NaN value adds nothing. *)
Definition sum_groups (ks : list (option Key)) (vs : list (option Q)) : Labelled :=
  fold_left
    (fun g kv =>
       match fst kv with
       | Some k => add_to_group k (match snd kv with Some x => x | None => 0 end) g
       | None => g
       end)
    (combine ks vs) [].

(** [df.groupby(cat)[c].sum()]: the groups come sorted by key. *)
Definition group_sum (ks : list (option Key)) (vs : list (option Q)) : Labelled :=
  sort_by_key (sum_groups ks vs).

(** The number of cells of each value, in order of first appearance;
    null cells are not counted. *)
Definition count_values (ks : list (option Key)) : Labelled :=
  fold_left
    (fun g k =>
       match k with
       | Some k => add_to_group k 1 g
       | None => g
       end)
    ks [].

(** [s.value_counts()]: the values come sorted by count, the most
    frequent first. *)
Definition value_counts (ks : list (option Key)) : Labelled :=
  sort_by_count (count_values ks).

Definition groupby_sum (df : DataFrame) (cat c : string) : Labelled :=
  match column df cat, column df c with
  | Some kb, Some sc => group_sum (keys kb) (num_values sc)
  | _, _ => []
  end.

Definition column_value_counts (df : DataFrame) (c : string) : Labelled :=
  match column df c with
  | Some s => value_counts (keys s)
  | None => []
  end.

(** The points of one column against an index; NaN cells are not drawn. *)
Definition points (ks : list (option Key)) (vs : list (option Q)) : Labelled :=
  somes (map (fun kv => match fst kv, snd kv with
                        | Some k, Some x => Some (k, x)
                        | _, _ => None
                        end) (combine ks vs)).

(* ================================================================== *)
(** * Chart creation *)
(* ================================================================== *)

(** What ends up on the axes: the kind drawn, the named point sets, the
    title.  The PNG bytes are a function of it. *)
Record Chart : Type := mkChart {
  chart_kind : string;
  chart_data : list (string * Labelled);
  chart_title : string
}.

(** The text [make_chart] returns: a JSON document or a base-64 image. *)
Inductive Payload : Type :=
| Json (text : string)
| Base64Png (c : Chart).

Inductive Result : Type :=
| Raise (e : Exn)
| Return (p : Payload).

(** [json.dumps({"action": "error", "message": "Not enough valid data to plot."})] *)
Definition NOT_ENOUGH_DATA : Payload :=
  Json (dq "{'action': 'error', 'message': 'Not enough valid data to plot.'}").

(** The figures pyplot holds open, by number. *)
Definition Figures : Type := list nat.

(** [plt.subplots()]: a new figure, numbered one above the open ones. *)
Definition subplots (figs : Figures) : nat * Figures :=
  let n := S (list_max figs) in (n, figs ++ [n]).

(** [plt.close(fig)] *)
Definition plt_close (fig : nat) (figs : Figures) : Figures :=
  filter (fun n => negb (Nat.eqb n fig)) figs.

(** The truth value of [maybe] in [if maybe:], for [str | None]. *)
Definition truthy (x : option string) : option string :=
  match x with
  | Some s => if String.eqb s EmptyString then None else Some s
  | None => None
  end.

Definition row_keys (df : DataFrame) : list (option Key) :=
  map (fun i => Some (KRow i)) (index df).

Definition frame_points (df : DataFrame) (idx : list (option Key)) (cs : list string)
  : list (string * Labelled) :=
  map (fun c => (c, match column df c with
                    | Some s => points idx (num_values s)
                    | None => []
                    end)) cs.

(** A column of numbers: int64 or float64, not bool. *)
Definition is_number (s : Series) : bool :=
  match s with
  | NumCol _ => true
  | _ => false
  end.

Definition number_column (df : DataFrame) (c : string) : bool :=
  match column df c with
  | Some s => is_number s
  | None => false
  end.

(** [df[cs].plot(kind=kind, ax=ax)] against the index [idx]: pandas
    draws the columns of numbers and leaves the bool ones out; with none
    to draw it raises the [TypeError] no numeric data to plot. *)
Definition frame_plot (df : DataFrame) (idx : list (option Key)) (cs : list string)
  : Outcome (list (string * Labelled)) :=
  match filter (number_column df) cs with
  | [] => Raised TypeError
  | shown => Ok (frame_points df idx shown)
  end.

Definition is_datetime_column (df : DataFrame) (c : string) : bool :=
  match column df c with
  | Some s => is_datetime64_any_dtype s
  | None => false
  end.

(** The bar and line branch: the kind drawn, what is drawn, and [nums]
    as the branch leaves it; or the exception of the plotting call. *)
Definition bar_line (df : DataFrame) (kind : string) (cats nums : list string)
  : Outcome (string * list (string * Labelled) * list string) :=
  match cats with
  | c0 :: _ =>
      if is_datetime_column df c0 then
        let shown := match nums with [] => _all_numeric df | _ => nums end in
        match frame_plot df (match column df c0 with Some s => keys s | None => [] end)
                shown with
        | Ok data => Ok (kind, data, nums)
        | Raised e => Raised e
        end
      else
        match nums with
        | _ :: _ => Ok (kind, map (fun n => (n, groupby_sum df c0 n)) nums, nums)
        | [] =>
            match truthy (_best_numeric df) with
            | Some maybe => Ok (kind, [(maybe, groupby_sum df c0 maybe)], [maybe])
            | None => Ok ("bar", [(c0, column_value_counts df c0)], nums)
            end
        end
  | [] =>
      match nums with
      | _ :: _ =>
          match frame_plot df (row_keys df) nums with
          | Ok data => Ok (kind, data, nums)
          | Raised e => Raised e
          end
      | [] => Ok (kind, [], nums)
      end
  end.

(** The series of the pie branch, and [nums] as the branch leaves it;
    [None] is the [else] that returns the error document. *)
Definition pie_series (df : DataFrame) (cats nums : list string)
  : option Labelled * list string :=
  let nums1 :=
    match cats, nums with
    | _ :: _, [] =>
        match truthy (_best_numeric df) with
        | Some best_num => [best_num]
        | None => []
        end
    | _, _ => nums
    end in
  (match cats, nums1 with
   | c0 :: _, n0 :: _ => Some (groupby_sum df c0 n0)
   | c0 :: _, [] => Some (column_value_counts df c0)
   | [], n0 :: _ => Some (column_value_counts df n0)
   | [], [] => None
   end, nums1).

Definition SPEND_WORDS : list string := ["spend"; "expense"; "outflow"].

(** [any(w in prompt.lower() for w in ("spend", "expense", "outflow"))] *)
Definition spend_hint (prompt : string) : bool :=
  existsb (fun w => contains w (lower prompt)) SPEND_WORDS.

Definition negative (kx : Key * Q) : bool := negb (Qle_bool 0 (snd kx)).
Definition nonzero (kx : Key * Q) : bool := negb (Qeq_bool (snd kx) 0).

Definition on_value (f : Q -> Q) (kx : Key * Q) : Key * Q := (fst kx, f (snd kx)).

(** Lines 263 to 269 of [make_chart]: the sign handling of the pie, up to
    the removal of the zero slices. *)
Definition pie_signs (prompt : string) (series : Labelled) : Labelled :=
  let s1 := if spend_hint prompt then filter negative series else series in
  let s2 := if forallb negative s1 then map (on_value Qopp) s1
            else if existsb negative s1 then map (on_value Qabs) s1
            else s1 in
  filter nonzero s2.

Definition chart_title_of (kind : string) (cols nums : list string) : string :=
  title kind ++ " – " ++ join ", " (match cols with [] => nums | _ => cols end).

(** [make_chart(df, kind, columns, prompt)], threading the open figures. *)
Definition make_chart (df : DataFrame) (kind : string) (columns : list string)
    (prompt : string) (figs : Figures) : Result * Figures :=
  let cols := filter (has_column df) columns in
  match cols with
  | [] => (Raise (ValueError "No valid columns"), figs)
  | _ :: _ =>
      match _clean_chart_data df cols with
      | Raised e => (Raise e, figs)
      | Ok df1 =>
          if (len df1 <? 3)%nat then (Return NOT_ENOUGH_DATA, figs)
          else
            let (fig, figs1) := subplots figs in
            let (cats, nums) := _split_cols df1 cols in
            if String.eqb kind "bar" || String.eqb kind "line" then
              match bar_line df1 kind cats nums with
              | Raised e => (Raise e, figs1)
              | Ok (drawn_kind, data, nums1) =>
                  (Return (Base64Png (mkChart drawn_kind data (chart_title_of kind cols nums1))),
                   plt_close fig figs1)
              end
            else if String.eqb kind "pie" then
              match pie_series df1 cats nums with
              | (None, _) => (Return NOT_ENOUGH_DATA, figs1)
              | (Some series, nums1) =>
                  let slices := pie_signs prompt series in
                  if (List.length slices <? 3)%nat then (Return NOT_ENOUGH_DATA, figs1)
                  else
                    (Return (Base64Png (mkChart "pie" [("", slices)]
                                                (chart_title_of kind cols nums1))),
                     plt_close fig figs1)
              end
            else (Raise (ValueError "Unsupported chart type"), figs1)
      end
  end.

(* ================================================================== *)
(** * JSON documents, as [json.loads] reads them *)
(* ================================================================== *)

#[warnings="-register-all"]
Inductive json : Type :=
| JNull
| JBool (b : bool)
| JNum (lexeme : string)
| JStr (s : string)
| JArr (items : list json)
| JObj (members : list (string * json)).

Definition is_json_ws (c : ascii) : bool :=
  Ascii.eqb c " " || (code c =? 9)%nat || (code c =? 10)%nat || (code c =? 13)%nat.

Fixpoint skip_ws (s : string) : string :=
  match s with
  | EmptyString => EmptyString
  | String c r => if is_json_ws c then skip_ws r else s
  end.

Definition hex_val (c : ascii) : option nat :=
  if is_digit c then Some (code c - 48)%nat
  else if in_range 97 102 c then Some (code c - 87)%nat
  else if in_range 65 70 c then Some (code c - 55)%nat
  else None.

Definition hex4 (a b c d : ascii) : option nat :=
  match hex_val a, hex_val b, hex_val c, hex_val d with
  | Some x, Some y, Some z, Some w => Some (((x * 16 + y) * 16 + z) * 16 + w)%nat
  | _, _, _, _ => None
  end.

(** The UTF-8 bytes of a code point below 65536. *)
Definition utf8 (cp : nat) : string :=
  if (cp <? 128)%nat then String (ascii_of_nat cp) EmptyString
  else if (cp <? 2048)%nat then
    String (ascii_of_nat (192 + cp / 64)%nat)
      (String (ascii_of_nat (128 + cp mod 64)%nat) EmptyString)
  else
    String (ascii_of_nat (224 + cp / 4096)%nat)
      (String (ascii_of_nat (128 + (cp / 64) mod 64)%nat)
         (String (ascii_of_nat (128 + cp mod 64)%nat) EmptyString)).

Definition unescape (c : ascii) : option ascii :=
  if Ascii.eqb c dquote then Some dquote
  else if Ascii.eqb c "\" then Some "\"%char
  else if Ascii.eqb c "/" then Some "/"%char
  else if Ascii.eqb c "b" then Some (ascii_of_nat 8)
  else if Ascii.eqb c "f" then Some (ascii_of_nat 12)
  else if Ascii.eqb c "n" then Some (ascii_of_nat 10)
  else if Ascii.eqb c "r" then Some (ascii_of_nat 13)
  else if Ascii.eqb c "t" then Some (ascii_of_nat 9)
  else None.

(** The body of a string literal, after its opening quote: the decoded
    text and what follows the closing quote.  A raw control character is
    refused, as in strict mode. *)
Fixpoint scan_string (s : string) : option (string * string) :=
  match s with
  | EmptyString => None
  | String c r =>
      if Ascii.eqb c dquote then Some (EmptyString, r)
      else if Ascii.eqb c "\" then
        match r with
        | String e r1 =>
            if Ascii.eqb e "u" then
              match r1 with
              | String h1 (String h2 (String h3 (String h4 r2))) =>
                  match hex4 h1 h2 h3 h4, scan_string r2 with
                  | Some cp, Some (t, rest) => Some ((utf8 cp ++ t)%string, rest)
                  | _, _ => None
                  end
              | _ => None
              end
            else
              match unescape e, scan_string r1 with
              | Some x, Some (t, rest) => Some (String x t, rest)
              | _, _ => None
              end
        | EmptyString => None
        end
      else if (code c <? 32)%nat then None
      else
        match scan_string r with
        | Some (t, rest) => Some (String c t, rest)
        | None => None
        end
  end.

Fixpoint span_digits (s : string) : string * string :=
  match s with
  | EmptyString => (EmptyString, EmptyString)
  | String c r =>
      if is_digit c then let (d, rest) := span_digits r in (String c d, rest)
      else (EmptyString, s)
  end.

(** The integer part of a number: an optional minus, then a lone zero
    or a run of digits that does not start with zero. *)
Definition scan_int (s : string) : option (string * string) :=
  let (sign, s1) := match s with
                    | String c r => if Ascii.eqb c "-" then ("-", r) else (EmptyString, s)
                    | EmptyString => (EmptyString, s)
                    end in
  match s1 with
  | String c r =>
      if Ascii.eqb c "0" then Some ((sign ++ "0")%string, r)
      else if is_digit c then let (d, rest) := span_digits s1 in Some ((sign ++ d)%string, rest)
      else None
  | EmptyString => None
  end.

(** The optional fraction: a dot and at least one digit. *)
Definition scan_frac (s : string) : string * string :=
  match s with
  | String c r =>
      if Ascii.eqb c "." then
        match span_digits r with
        | (EmptyString, _) => (EmptyString, s)
        | (d, rest) => (String c d, rest)
        end
      else (EmptyString, s)
  | EmptyString => (EmptyString, s)
  end.

(** The optional exponent: e or E, an optional sign, at least one digit. *)
Definition scan_exp (s : string) : string * string :=
  match s with
  | String c r =>
      if Ascii.eqb c "e" || Ascii.eqb c "E" then
        let (sg, r1) := match r with
                        | String x r' =>
                            if Ascii.eqb x "+" || Ascii.eqb x "-"
                            then (String x EmptyString, r') else (EmptyString, r)
                        | EmptyString => (EmptyString, r)
                        end in
        match span_digits r1 with
        | (EmptyString, _) => (EmptyString, s)
        | (d, rest) => (String c (sg ++ d)%string, rest)
        end
      else (EmptyString, s)
  | EmptyString => (EmptyString, s)
  end.

Definition scan_number (s : string) : option (json * string) :=
  match scan_int s with
  | Some (i, r) =>
      let (f, r1) := scan_frac r in
      let (e, r2) := scan_exp r1 in
      Some (JNum (i ++ f ++ e)%string, r2)
  | None => None
  end.

Fixpoint drop (n : nat) (s : string) : string :=
  match n, s with
  | S k, String _ r => drop k r
  | _, _ => s
  end.

Definition scan_literal (s : string) : option (json * string) :=
  if startswith "null" s then Some (JNull, drop 4 s)
  else if startswith "true" s then Some (JBool true, drop 4 s)
  else if startswith "false" s then Some (JBool false, drop 5 s)
  else if startswith "NaN" s then Some (JNum "NaN", drop 3 s)
  else if startswith "Infinity" s then Some (JNum "Infinity", drop 8 s)
  else if startswith "-Infinity" s then Some (JNum "-Infinity", drop 9 s)
  else scan_number s.

(** The scanner: one value at the head of [s], and the rest. *)
Fixpoint scan_once (fuel : nat) (s : string) : option (json * string) :=
  match fuel with
  | O => None
  | S f =>
      match s with
      | EmptyString => None
      | String c r =>
          if Ascii.eqb c dquote then
            match scan_string r with
            | Some (t, rest) => Some (JStr t, rest)
            | None => None
            end
          else if Ascii.eqb c "{" then
            match skip_ws r with
            | String c1 r1 =>
                if Ascii.eqb c1 "}" then Some (JObj [], r1)
                else
                  match scan_members f (String c1 r1) with
                  | Some (ms, rest) => Some (JObj ms, rest)
                  | None => None
                  end
            | EmptyString => None
            end
          else if Ascii.eqb c "[" then
            match skip_ws r with
            | String c1 r1 =>
                if Ascii.eqb c1 "]" then Some (JArr [], r1)
                else
                  match scan_items f (String c1 r1) with
                  | Some (vs, rest) => Some (JArr vs, rest)
                  | None => None
                  end
            | EmptyString => None
            end
          else scan_literal s
      end
  end
with scan_items (fuel : nat) (s : string) : option (list json * string) :=
  match fuel with
  | O => None
  | S f =>
      match scan_once f s with
      | Some (v, rest) =>
          match skip_ws rest with
          | String c r =>
              if Ascii.eqb c "]" then Some ([v], r)
              else if Ascii.eqb c "," then
                match scan_items f (skip_ws r) with
                | Some (vs, rest') => Some (v :: vs, rest')
                | None => None
                end
              else None
          | EmptyString => None
          end
      | None => None
      end
  end
with scan_members (fuel : nat) (s : string) : option (list (string * json) * string) :=
  match fuel with
  | O => None
  | S f =>
      match s with
      | String q r =>
          if Ascii.eqb q dquote then
            match scan_string r with
            | Some (k, rest) =>
                match skip_ws rest with
                | String c r1 =>
                    if Ascii.eqb c ":" then
                      match scan_once f (skip_ws r1) with
                      | Some (v, rest1) =>
                          match skip_ws rest1 with
                          | String c2 r2 =>
                              if Ascii.eqb c2 "}" then Some ([(k, v)], r2)
                              else if Ascii.eqb c2 "," then
                                match scan_members f (skip_ws r2) with
                                | Some (ms, rest') => Some ((k, v) :: ms, rest')
                                | None => None
                                end
                              else None
                          | EmptyString => None
                          end
                      | None => None
                      end
                    else None
                | EmptyString => None
                end
            | None => None
            end
          else None
      | EmptyString => None
      end
  end.

(** [json.loads(s)]; [None] is [json.JSONDecodeError].  The fuel is twice
    the length of the text, more than any descent into it needs. *)
Definition json_loads (s : string) : option json :=
  let s0 := skip_ws s in
  match scan_once (2 * String.length s0 + 2)%nat s0 with
  | Some (v, rest) =>
      match skip_ws rest with
      | EmptyString => Some v
      | String _ _ => None
      end
  | None => None
  end.

(** [d.get(k)] on a parsed object: the last member named [k] wins. *)
Definition dict_get (k : string) (members : list (string * json)) : option json :=
  lookup k (rev members).

(* ================================================================== *)
(** * The chart handling of [chat] *)
(* ================================================================== *)

Definition FENCE : string := "```".

Fixpoint after_newline (s : string) : option string :=
  match s with
  | EmptyString => None
  | String c r => if (code c =? 10)%nat then Some r else after_newline r
  end.

Definition endswith (p s : string) : bool :=
  startswith (string_rev p) (string_rev s).

Definition drop_last (n : nat) (s : string) : string :=
  string_rev (drop n (string_rev s)).

Definition strip_closing_fence (s : string) : string :=
  if endswith FENCE s then drop_last 3 s else s.

(** [re.sub(r"^```.*?\n|```$", "", blob, flags=re.DOTALL)] on a stripped
    text that starts with the fence: the first alternative takes the text
    up to the first line feed, the second a fence at the very end. *)
Definition sub_fences (blob : string) : string :=
  match after_newline blob with
  | Some rest => strip_closing_fence rest
  | None => strip_closing_fence blob
  end.

Fixpoint from_first (c : ascii) (s : string) : option string :=
  match s with
  | EmptyString => None
  | String a r => if Ascii.eqb a c then Some s else from_first c r
  end.

Fixpoint upto_last (c : ascii) (s : string) : option string :=
  match s with
  | EmptyString => None
  | String a r =>
      match upto_last c r with
      | Some p => Some (String a p)
      | None => if Ascii.eqb a c then Some (String a EmptyString) else None
      end
  end.

(** [re.search(r"(\{.*\})", blob, flags=re.DOTALL)], group 1. *)
Definition search_braces (blob : string) : option string :=
  match from_first "{" blob with
  | Some s => upto_last "}" s
  | None => None
  end.

(** Lines 308 to 313: the text the directive is looked for in. *)
Definition directive_blob (assistant_text : string) : string :=
  let blob := strip assistant_text in
  if startswith FENCE blob then sub_fences blob else blob.

(** The exceptions that leave [chat]: the one it raises itself, those
    its [except] clause does not catch, and the one [ChatResponse] raises
    for an [answer] that is not a text. *)
Inductive Uncaught : Type :=
| HTTPException400
| UncaughtKeyError
| UncaughtTypeError
| ValidationError.

(** The response, with its [answer] and [chart_base64], or the exception
    that leaves [chat]. *)
Inductive ChatOutcome : Type :=
| Answer (answer : string) (chart_base64 : option Payload)
| Fails (e : Uncaught).

(** [ChatResponse(answer=v, chart_base64=p)]: the field [answer] is
    declared [str]. *)
Definition chat_response (v : json) (chart_base64 : option Payload) : ChatOutcome :=
  match v with
  | JStr answer => Answer answer chart_base64
  | _ => Fails ValidationError
  end.

(** The requested columns as [make_chart] filters them: a list is read
    item by item, a text character by character, an object by its keys;
    a scalar item is never a column label; a list or object as an item is
    unhashable and anything else cannot be iterated. *)
Fixpoint column_items (items : list json) : option (list string) :=
  match items with
  | [] => Some []
  | JStr s :: r => option_map (cons s) (column_items r)
  | JArr _ :: _ | JObj _ :: _ => None
  | _ :: r => column_items r
  end.

Fixpoint chars (s : string) : list string :=
  match s with
  | EmptyString => []
  | String c r => String c EmptyString :: chars r
  end.

Definition columns_arg (j : option json) : option (list string) :=
  match j with
  | None => Some []
  | Some (JArr items) => column_items items
  | Some (JStr s) => Some (chars s)
  | Some (JObj ms) => Some (map fst ms)
  | Some _ => None
  end.

(** A [kind] that is not a text equals none of the three kinds; the
    empty text stands for it. *)
Definition kind_arg (j : json) : string :=
  match j with
  | JStr s => s
  | _ => EmptyString
  end.

Definition DEFAULT_TITLE : string := "Here's the chart you requested:".

(** Lines 306 to 335 of [chat]: from the model's reply and the table of
    the session to the response. *)
Definition chart_handling (session_df : option DataFrame) (assistant_text : string)
    (figs : Figures) : ChatOutcome * Figures :=
  let plain := (Answer assistant_text None, figs) in
  match search_braces (directive_blob assistant_text) with
  | None => plain
  | Some group1 =>
      match json_loads group1 with
      | Some (JObj spec) =>
          match dict_get "action" spec with
          | Some (JStr action) =>
              if String.eqb action "plot" then
                match session_df with
                | None => (Fails HTTPException400, figs)
                | Some df =>
                    match dict_get "kind" spec with
                    | None => (Fails UncaughtKeyError, figs)
                    | Some kind =>
                        match columns_arg (dict_get "columns" spec) with
                        | None => (Fails UncaughtTypeError, figs)
                        | Some columns =>
                            match make_chart df (kind_arg kind) columns EmptyString figs with
                            | (Raise (ValueError _), figs1) => (Answer assistant_text None, figs1)
                            | (Raise KeyError, figs1) => (Fails UncaughtKeyError, figs1)
                            | (Raise TypeError, figs1) => (Fails UncaughtTypeError, figs1)
                            | (Return p, figs1) =>
                                match dict_get "title" spec with
                                | None => (Answer DEFAULT_TITLE (Some p), figs1)
                                | Some t => (chat_response t (Some p), figs1)
                                end
                            end
                        end
                    end
                end
              else plain
          | _ => plain
          end
      | _ => plain
      end
  end.

(* ================================================================== *)
(** * Sampling *)
(* ================================================================== *)

(** The two bounds of [config.Settings] that [sample_df] reads. *)
Record Settings : Type := mkSettings {
  SAMPLE_MIN_ROWS : Z;
  SAMPLE_MAX_ROWS : Z
}.

Definition settings : Settings :=
  {| SAMPLE_MIN_ROWS := 200; SAMPLE_MAX_ROWS := 400 |}.

Fixpoint gather {A : Type} (ps : list nat) (l : list A) : option (list A) :=
  match ps with
  | [] => Some []
  | p :: r =>
      match nth_error l p, gather r l with
      | Some x, Some xs => Some (x :: xs)
      | _, _ => None
      end
  end.

Definition series_gather (ps : list nat) (s : Series) : option Series :=
  match s with
  | NumCol v => option_map NumCol (gather ps v)
  | BoolCol v => option_map BoolCol (gather ps v)
  | TimeCol v => option_map TimeCol (gather ps v)
  | ObjCol v => option_map ObjCol (gather ps v)
  end.

Fixpoint columns_gather (ps : list nat) (l : list (string * Series))
  : option (list (string * Series)) :=
  match l with
  | [] => Some []
  | (n, s) :: r =>
      match series_gather ps s, columns_gather ps r with
      | Some s', Some r' => Some ((n, s') :: r')
      | _, _ => None
      end
  end.

(** [df.iloc[ps]]: the rows at the positions [ps], in that order; [None]
    is the [IndexError] of a position out of range. *)
Definition iloc (df : DataFrame) (ps : list nat) : option DataFrame :=
  match gather ps (index df), columns_gather ps (columns df) with
  | Some i, Some c => Some {| index := i; columns := c |}
  | _, _ => None
  end.

Section Sampler.

(** The module-level generator of [random]: its states, the state
    [random.seed(a)] installs, and [random.sample(range(n), k)], which
    draws from a state and leaves the next one; [None] is the
    [ValueError] it raises. *)
Variable RNG : Type.
Variable random_seed : Z -> RNG.
Variable random_sample : RNG -> nat -> Z -> option (list nat) * RNG.

(** The settings in force. *)
Variable cfg : Settings.

Definition sample_df (df : DataFrame) (g : RNG) : option DataFrame * RNG :=
  let n := Z.max (SAMPLE_MIN_ROWS cfg)
                 (Z.min (SAMPLE_MAX_ROWS cfg) (Z.of_nat (len df))) in
  if (Z.of_nat (len df) <=? n)%Z then (Some df, g)
  else
    let g1 := random_seed 42 in
    match random_sample g1 (len df) n with
    | (Some ps, g2) => (iloc df ps, g2)
    | (None, g2) => (None, g2)
    end.

End Sampler.

(* ================================================================== *)
(** * Notions used in the statements, and example data *)
(* ================================================================== *)

(** The effect of one turn of the cleaning loop on a numeric column. *)
Definition cleaned_values (s : Series) : list (option Q) :=
  clip_round (quantile (num_values s) (1 # 100))
             (quantile (num_values s) (99 # 100)) (num_values s).

(** The table a turn of the loop leaves when it returns. *)
Definition clean_turn (df : DataFrame) (c : string) : DataFrame :=
  match column df c with
  | None => df
  | Some s => if negb (is_numeric_dtype s) then df else clamp_round_filter df c s
  end.

Definition bool_column (df : DataFrame) (c : string) : bool :=
  match column df c with
  | Some s => is_bool_dtype s
  | None => false
  end.

(** The cell of row [i] is there and is not null. *)
Definition has_value (s : Series) (i : nat) : Prop :=
  match s with
  | NumCol v => exists x, nth_error v i = Some (Some x)
  | BoolCol v => exists b, nth_error v i = Some b
  | TimeCol v => exists t, nth_error v i = Some (Some t)
  | ObjCol v => exists t, nth_error v i = Some (Some t)
  end.

(** No cell is null. *)
Definition no_null (s : Series) : Prop :=
  match s with
  | NumCol v => ~ In None v
  | BoolCol _ => True
  | TimeCol v => ~ In None v
  | ObjCol v => ~ In None v
  end.

Definition numeric_column (df : DataFrame) (c : string) : bool :=
  match column df c with
  | Some s => is_numeric_dtype s
  | None => false
  end.

Definition nonneg_column (df : DataFrame) (c : string) : Prop :=
  forall s, column df c = Some s -> is_numeric_dtype s = true ->
            Forall (fun x => ge0 x = true) (num_values s).

Definition nonneg_series (g : Labelled) : Prop := Forall (fun kx => 0 <= snd kx) g.

Definition categorical_column (df : DataFrame) (c : string) : bool :=
  has_column df c && negb (numeric_column df c).

Definition spend_table : DataFrame :=
  mkDF [0; 1; 2; 3]%nat
       [("Category", ObjCol [Some "rent"; Some "food"; Some "fuel"; Some "rent"]);
        ("Amount", NumCol [Some 10; Some 20; Some 30; Some 5])].

(** The series [make_chart] has in hand when it reaches line 262, for a
    pie request that got that far. *)
Definition pie_series_of (df : DataFrame) (columns : list string)
  : option (Labelled * list string) :=
  let cols := filter (has_column df) columns in
  match cols, _clean_chart_data df cols with
  | _ :: _, Ok df1 =>
      if (len df1 <? 3)%nat then None
      else
        match pie_series df1 (fst (_split_cols df1 cols)) (snd (_split_cols df1 cols)) with
        | (Some series, nums1) => Some (series, nums1)
        | (None, _) => None
        end
  | _, _ => None
  end.

Definition values (g : Labelled) : list Q := map snd g.

Definition slices_a : Labelled := [(KStr "rent", -50); (KStr "food", -30); (KStr "fuel", -20)].
Definition slices_b : Labelled := [(KStr "rent", -50); (KStr "pay", 30); (KStr "fuel", -20)].

Definition outflow_table : DataFrame :=
  mkDF [0; 1; 2]%nat
       [("Category", ObjCol [Some "rent"; Some "food"; Some "fuel"]);
        ("Amount", NumCol [Some (-50); Some (-30); Some (-20)])].

(** Its sums by category, as [groupby] orders them. *)
Definition outflow_sums : Labelled :=
  [(KStr "food", -30); (KStr "fuel", -20); (KStr "rent", -50)].

Definition supported_kind (kind : string) : bool :=
  String.eqb kind "bar" || String.eqb kind "line" || String.eqb kind "pie".

(** The number of rows [_clean_chart_data] leaves for a request; none
    when it raises. *)
Definition rows_after_cleaning (df : DataFrame) (columns : list string) : nat :=
  match _clean_chart_data df (filter (has_column df) columns) with
  | Ok df1 => len df1
  | Raised _ => 0
  end.

(** [_clean_chart_data] raises on the request. *)
Definition cleaning_raises (df : DataFrame) (columns : list string) : bool :=
  match _clean_chart_data df (filter (has_column df) columns) with
  | Ok _ => false
  | Raised _ => true
  end.

Definition is_nil {A : Type} (l : list A) : bool :=
  match l with
  | [] => true
  | _ :: _ => false
  end.

(** A bar or line request with nothing to draw: the first requested
    column that is not numeric holds dates, no requested column is
    numeric, and the table has no column of numbers. *)
Definition nothing_to_draw (df : DataFrame) (kind : string) (columns : list string) : bool :=
  let cols := filter (has_column df) columns in
  (String.eqb kind "bar" || String.eqb kind "line")
  && match filter (categorical_column df) cols with
     | c0 :: _ =>
         is_datetime_column df c0
         && is_nil (filter (numeric_column df) cols)
         && is_nil (filter (number_column df) (_all_numeric df))
     | [] => false
     end.

(** A table with a bool column, one with dates and texts only, and one
    with null cells. *)
Definition flags_table : DataFrame :=
  mkDF [0; 1; 2]%nat
       [("Category", ObjCol [Some "rent"; Some "food"; Some "fuel"]);
        ("Paid", BoolCol [true; false; true])].

Definition dated_table : DataFrame :=
  mkDF [0; 1; 2]%nat
       [("Date", TimeCol [Some 1%Z; Some 2%Z; Some 3%Z]);
        ("Note", ObjCol [Some "a"; Some "b"; Some "c"])].

Definition gaps_table : DataFrame :=
  mkDF [0; 1; 2; 3]%nat
       [("Category", ObjCol [Some "rent"; None; Some "fuel"; Some "food"]);
        ("Amount", NumCol [Some 10; Some 20; None; Some 30])].

Definition raises (r : Result) : Prop := exists e, r = Raise e.

Definition two_rows : DataFrame :=
  mkDF [0; 1]%nat [("Amount", NumCol [Some 10; Some 20])].

(** The six words of the specification, and the column it would pick. *)
Definition SPEC_MONEY_WORDS : list string :=
  ["amount"; "total"; "cost"; "value"; "balance"; "price"].

Definition spec_name_match (c : string) : bool :=
  existsb (fun w => contains w (lower c)) SPEC_MONEY_WORDS.

Definition spec_best_numeric (df : DataFrame) : option string :=
  match _all_numeric df with
  | [] => None
  | nums =>
      match find spec_name_match nums with
      | Some c => Some c
      | None => max_by (abs_sum df) nums
      end
  end.

Definition quantity_paid : DataFrame :=
  mkDF [0]%nat [("quantity", NumCol [Some 100]); ("paid", NumCol [Some 1])].

Definition quantity_amount : DataFrame :=
  mkDF [0; 1; 2]%nat
       [("quantity", NumCol [Some 1; Some 2; Some 3]);
        ("amount", NumCol [Some (-100); Some (-200); Some 5])].

(** The share as the specification words it: the cells that parse, among
    the cells that are not null. *)
Definition parses (s : string) : bool := negb (is_none (to_numeric (clean_text s))).

Definition spec_coerces (v : list (option string)) : bool :=
  (List.length (somes v) <=? 10 * List.length (filter parses (somes v)))%nat.

Definition mostly_null : list (option string) :=
  [Some "5"; Some "abc"] ++ repeat None 18.

Definition one_in_ten : list (option string) :=
  Some "7" :: repeat (Some "n/a") 9.

Definition nine_in_hundred : list (option string) :=
  repeat (Some "7") 9 ++ repeat (Some "n/a") 91.

(** [occurs c s]: the character [c] is somewhere in [s]. *)
Fixpoint occurs (c : ascii) (s : string) : bool :=
  match s with
  | EmptyString => false
  | String a r => Ascii.eqb a c || occurs c r
  end.

Definition NL : ascii := ascii_of_nat 10.

Definition LBRACE : ascii := "{".
Definition RBRACE : ascii := "}".

Definition nl : string := String NL EmptyString.

Definition pie_directive : string :=
  dq "{'action':'plot','kind':'pie','columns':['Category','Amount']}".

Definition fenced_reply : string :=
  ("Here you go:" ++ nl ++ "```" ++ nl ++ pie_directive ++ nl ++ "```")%string.

Definition json_fenced_reply : string :=
  ("```json" ++ nl ++ pie_directive ++ nl ++ "```")%string.

Definition error_reply : string :=
  dq "I could not plot it: {'action': 'error', 'message': 'no data'}".

(** The reply with the directive on the line of the opening fence. *)
Definition fence_line_reply : string :=
  ("```" ++ pie_directive ++ nl ++ "```")%string.

(** The extractor as the specification words it: the fence markers at
    the two ends of the trimmed reply are removed, nothing else. *)
Definition spec_strip_markers (assistant_text : string) : string :=
  let blob := strip assistant_text in
  let opened := if startswith FENCE blob then drop 3 blob else blob in
  if endswith FENCE opened then drop_last 3 opened else opened.

Definition spec_directive (assistant_text : string) : option string :=
  search_braces (spec_strip_markers assistant_text).

(** A stripped reply without its opening fence line, when it has one. *)
Definition without_fence_line (blob : string) : string :=
  if startswith FENCE blob then
    match after_newline blob with
    | Some rest => rest
    | None => blob
    end
  else blob.

(** The position of the percentile [q] among [n] sorted values. *)
Definition position (n : nat) (q : Q) : Q := inject_Z (Z.of_nat (n - 1)) * q.

Definition column_within (lo hi : Q) (df : DataFrame) (c : string) : Prop :=
  forall s x, column df c = Some s -> is_numeric_dtype s = true ->
              In (Some x) (num_values s) -> lo <= x /\ x <= hi.

Definition two_values : DataFrame :=
  mkDF [0; 1]%nat [("x", NumCol [Some 0; Some (14 # 10)])].

(** [m] keeps a row only where [n] does. *)
Definition mask_implies (m n : list bool) : Prop :=
  forall i, nth i m false = true -> nth i n false = true.

Definition outlier_table : DataFrame :=
  mkDF (seq 0 101) [("Amount", NumCol (Some (-5) :: repeat (Some 10) 100))].

(* ================================================================== *)
(** * Reading an upload *)
(* ================================================================== *)

(** The suffix of [s] that starts at the last [c]. *)
Fixpoint from_last (c : ascii) (s : string) : option string :=
  match s with
  | EmptyString => None
  | String a r =>
      match from_last c r with
      | Some t => Some t
      | None => if Ascii.eqb a c then Some s else None
      end
  end.

Definition basename_of (p : string) : string :=
  match from_last "/" p with
  | Some (String _ r) => r
  | _ => p
  end.

Fixpoint skip_dots (s : string) : string :=
  match s with
  | EmptyString => EmptyString
  | String c r => if Ascii.eqb c "." then skip_dots r else s
  end.

(** [os.path.splitext(p)[-1]] on a POSIX path: the text from the last dot
    of the last component, leading dots of the component not counting. *)
Definition splitext_ext (p : string) : string :=
  match from_last "." (skip_dots (basename_of p)) with
  | Some e => e
  | None => EmptyString
  end.

Inductive Engine : Type := Openpyxl | Xlrd | Odf.

(** The dictionary of [read_excel_any], with its [.get(ext)]. *)
Definition engine_hint (ext : string) : option Engine :=
  if String.eqb ext ".xlsx" then Some Openpyxl
  else if String.eqb ext ".xls" then Some Xlrd
  else if String.eqb ext ".xlsm" then Some Openpyxl
  else if String.eqb ext ".ods" then Some Odf
  else None.

Inductive CsvRead : Type :=
| CsvFrame (df : DataFrame)
| CsvUnicodeDecodeError
| CsvOtherError.

Inductive Upload : Type :=
| Parsed (df : DataFrame)
| ReadFailure.

(** [df.apply(coerce_numeric)] *)
Definition apply_coerce_numeric (df : DataFrame) : DataFrame :=
  {| index := index df;
     columns := map (fun nc => (fst nc, coerce_numeric (snd nc))) (columns df) |}.

Section Readers.

(** [pd.read_csv(io.BytesIO(data), encoding=...)] and
    [pd.read_excel(io.BytesIO(data), engine=...)]; [None] is an exception
    of the reader. *)
Variable read_csv : string -> option string -> CsvRead.
Variable read_excel : string -> option Engine -> option DataFrame.

Definition read_excel_any (data : string) (filename : string) : Upload :=
  let ext := lower (splitext_ext filename) in
  if String.eqb ext ".csv" then
    match read_csv data None with
    | CsvFrame df => Parsed df
    | CsvUnicodeDecodeError =>
        match read_csv data (Some "latin-1") with
        | CsvFrame df => Parsed df
        | _ => ReadFailure
        end
    | CsvOtherError => ReadFailure
    end
  else
    match read_excel data (engine_hint ext) with
    | Some df => Parsed (apply_coerce_numeric df)
    | None => ReadFailure
    end.

End Readers.

(* ================================================================== *)
(** * The calls to the model *)
(* ================================================================== *)

(** A chat message; [content] is [None] when the key is absent. *)
Record Message : Type := mkMessage {
  role : string;
  content : option string
}.

(** [m.get("content", "")] *)
Definition get_content (m : Message) : string :=
  match content m with
  | Some s => s
  | None => EmptyString
  end.

(** What [client.chat.completions.create] does on one call. *)
Inductive ApiReply : Type :=
| Completion (text : string)
| OpenAIError
| OtherError.

Inductive CallOutcome : Type :=
| Reply (text : string)
| RuntimeError
| Propagated.

Section OpenAI.

(** The prompt of the module, and the API: the reply to the prepared
    messages on the call number [n] of one run. *)
Variable SYSTEM_PROMPT : string.
Variable create : list Message -> nat -> ApiReply.

Definition system_message : Message :=
  {| role := "system"; content := Some SYSTEM_PROMPT |}.

Definition _with_system_prompt (messages : list Message) : list Message :=
  match messages with
  | [] => [system_message]
  | m :: _ =>
      if negb (contains SYSTEM_PROMPT (get_content m))
      then system_message :: messages
      else messages
  end.

(** The loop of [call_openai] from attempt [attempt] on, with [remaining]
    attempts to go and the seconds slept so far, in order. *)
Fixpoint attempts (prepared : list Message) (attempt remaining : nat)
    (slept : list nat) : CallOutcome * list nat :=
  match remaining with
  | O => (RuntimeError, slept)
  | S r =>
      match create prepared attempt with
      | Completion text => (Reply text, slept)
      | OpenAIError => attempts prepared (S attempt) r (slept ++ [2 ^ attempt]%nat)
      | OtherError => (Propagated, slept)
      end
  end.

Definition call_openai (messages : list Message) : CallOutcome * list nat :=
  attempts (_with_system_prompt messages) 0 4 [].

End OpenAI.

(** A sampler for the examples: the first [k] positions. *)
Definition first_positions (g : unit) (n : nat) (k : Z) : option (list nat) * unit :=
  (if (k <? 0)%Z then None else Some (seq 0 (Z.to_nat k)), g).

Definition thousand_rows : DataFrame :=
  mkDF (seq 0 1000) [("Amount", NumCol (repeat (Some 1) 1000))].

(** Two replies that fail, then one that answers. *)
Definition third_time_lucky (prepared : list Message) (n : nat) : ApiReply :=
  if (n <? 2)%nat then OpenAIError else Completion "hello".

Definition always_failing (prepared : list Message) (n : nat) : ApiReply := OpenAIError.

Definition sheet_reader (data : string) (e : option Engine) : option DataFrame :=
  Some (mkDF [0; 1]%nat [("Price", ObjCol [Some "£1,200"; Some "n/a"]);
                         ("Note", ObjCol (repeat (Some "n/a") 11))]).

Definition no_csv (data : string) (enc : option string) : CsvRead := CsvOtherError.

(** The positions are below [n] and there are [k] of them. *)
Definition good_sample (n : nat) (k : Z) (ps : list nat) : Prop :=
  Z.of_nat (List.length ps) = k /\ Forall (fun p => (p < n)%nat) ps.

(** Every column has as many cells as the table has rows. *)
Definition well_formed (df : DataFrame) : Prop :=
  Forall (fun nc => series_len (snd nc) = len df) (columns df).

(** The rows two selections in a row keep: the mask of the second is
    read along the rows the first one kept. *)
Fixpoint compose_masks (m1 m2 : list bool) : list bool :=
  match m1 with
  | [] => []
  | false :: r => false :: compose_masks r m2
  | true :: r =>
      match m2 with
      | [] => []
      | b :: r2 => b :: compose_masks r r2
      end
  end.

(** A length no column and no index of the table exceeds. *)
Definition longest (df : DataFrame) : nat :=
  list_max (len df :: map (fun nc => series_len (snd nc)) (columns df)).

(** A cell of a cleaned column: a number of hundredths that is not
    negative. *)
Definition tidy_cell (x : option Q) : Prop :=
  exists z : Z, x = Some (z # 100) /\ (0 <= z)%Z.

Definition tidy_column (df : DataFrame) (c : string) : Prop :=
  forall s, column df c = Some s -> is_numeric_dtype s = true ->
            exists v, s = NumCol v /\ Forall tidy_cell v.

Definition labels_table : DataFrame :=
  mkDF [0; 1; 2; 3]%nat
       [("Category", ObjCol [Some "food"; Some "rent"; Some "fuel"; Some "rent"]);
        ("Payee", ObjCol [Some "a"; Some "b"; None; Some "c"])].

(** The counts of a column in order of first appearance. *)
Definition column_count_values (df : DataFrame) (c : string) : Labelled :=
  match column df c with
  | Some s => count_values (keys s)
  | None => []
  end.

(* ================================================================== *)
(** * Stock prices and company information *)
(* ================================================================== *)

(** [s.upper()] *)
Fixpoint upper (s : string) : string :=
  match s with
  | EmptyString => EmptyString
  | String c r => String (upper_ascii c) (upper r)
  end.

(** The entry [currency] of the dictionary: absent, null or a text. *)
Inductive Currency : Type :=
| CurrencyAbsent
| CurrencyNull
| CurrencyText (c : string).

(** [info.get("currency", "USD")] as the f-string prints it: the default
    stands in for an absent key only, and a null prints as None. *)
Definition currency_text (c : Currency) : string :=
  match c with
  | CurrencyAbsent => "USD"
  | CurrencyNull => "None"
  | CurrencyText t => t
  end.

(** What [yf.Ticker(symbol).info] gives: an exception with its text, or
    the three entries of the dictionary that are read; for a price
    [None] is a key that is absent or null. *)
Inductive TickerInfo : Type :=
| InfoRaises (msg : string)
| InfoDict (regularMarketPrice currentPrice : option Q) (currency : Currency).

(** [a or b] on prices: a price that is null or zero is false. *)
Definition price_or (a b : option Q) : option Q :=
  match a with
  | Some x => if Qeq_bool x 0 then b else a
  | None => b
  end.

(** The response of the price and of the information route, or the
    [HTTPException] that leaves it, with its status code. *)
Inductive StockReply : Type :=
| StockResponse (symbol text status message : string)
| StockHTTPException (status_code : nat).

Section Stocks.

(** The lookup of a ticker and the [:.2f] format of a price. *)
Variable ticker_info : string -> TickerInfo.
Variable format_2f : Q -> string.

Definition get_current_stock_price (symbol : string) : string :=
  match ticker_info symbol with
  | InfoRaises msg => "Error retrieving price for " ++ symbol ++ ": " ++ msg
  | InfoDict regular current currency =>
      match price_or regular current with
      | Some price =>
          if Qeq_bool price 0 then "Price not available for " ++ symbol
          else format_2f price ++ " " ++ currency_text currency
      | None => "Price not available for " ++ symbol
      end
  end.

(** The route [/stock/price]: the body of the [try], then the
    [except Exception] that wraps whatever was raised in it.  The flag
    [STOCK_ANALYSIS_AVAILABLE] is set to true when the module loads and
    never changed, so its test is passed. *)
Definition get_stock_price (request_symbol : string) : StockReply :=
  let symbol := strip (upper request_symbol) in
  let tried :=
    if String.eqb symbol EmptyString then StockHTTPException 400
    else
      let price_result := get_current_stock_price symbol in
      if contains "Error" price_result || contains "unavailable" price_result
      then StockResponse symbol price_result "error"
             ("Unable to retrieve price for " ++ symbol)
      else StockResponse symbol price_result "success"
             ("Price retrieved for " ++ symbol) in
  match tried with
  | StockHTTPException _ => StockHTTPException 500
  | r => r
  end.

End Stocks.

Definition no_lower (s : string) : bool :=
  string_forallb (fun c => negb (is_lower c)) s.

(** A ticker with no price in its dictionary. *)
Definition unpriced (symbol : string) : TickerInfo := InfoDict None None (CurrencyText "USD").

Definition plain_format (x : Q) : string := "0.00".

(* ================================================================== *)
(** * Accounts *)
(* ================================================================== *)

(** Regular expressions, matched by derivatives. *)
Inductive regex : Type :=
| Never
| Eps
| Class (p : ascii -> bool)
| Cat (r1 r2 : regex)
| Alt (r1 r2 : regex)
| Star (r : regex).

Definition Plus (r : regex) : regex := Cat r (Star r).

Fixpoint nullable (r : regex) : bool :=
  match r with
  | Never => false
  | Eps => true
  | Class _ => false
  | Cat r1 r2 => nullable r1 && nullable r2
  | Alt r1 r2 => nullable r1 || nullable r2
  | Star _ => true
  end.

Fixpoint deriv (c : ascii) (r : regex) : regex :=
  match r with
  | Never => Never
  | Eps => Never
  | Class p => if p c then Eps else Never
  | Cat r1 r2 =>
      Alt (Cat (deriv c r1) r2) (if nullable r1 then deriv c r2 else Never)
  | Alt r1 r2 => Alt (deriv c r1) (deriv c r2)
  | Star r1 => Cat (deriv c r1) (Star r1)
  end.

(** The whole of [s] matches [r]. *)
Fixpoint fullmatch (r : regex) (s : string) : bool :=
  match s with
  | EmptyString => nullable r
  | String c t => fullmatch (deriv c r) t
  end.

(** [re.match("^" r "$", s) is not None]: the dollar matches at the end
    of the text and before a line feed that ends it. *)
Definition match_to_end (r : regex) (s : string) : bool :=
  fullmatch r s
  || match string_rev s with
     | String c t => (code c =? 10)%nat && fullmatch r (string_rev t)
     | EmptyString => false
     end.

Definition is_alnum (c : ascii) : bool := is_lower c || is_upper c || is_digit c.
Definition is_letter (c : ascii) : bool := is_lower c || is_upper c.

Definition one_of (set : string) (c : ascii) : bool :=
  negb (string_forallb (fun a => negb (Ascii.eqb a c)) set).

Definition local_char (c : ascii) : bool := is_alnum c || one_of "._%+-" c.
Definition domain_char (c : ascii) : bool := is_alnum c || one_of ".-" c.

(** The pattern of [validate_email], between its anchors. *)
Definition EMAIL_RE : regex :=
  Cat (Plus (Class local_char))
    (Cat (Class (Ascii.eqb "@"))
       (Cat (Plus (Class domain_char))
          (Cat (Class (Ascii.eqb "."))
             (Cat (Class is_letter) (Cat (Class is_letter) (Star (Class is_letter))))))).

Definition validate_email (email : string) : bool := match_to_end EMAIL_RE email.

Definition validate_name (name : string) : bool :=
  (2 <=? String.length (strip name))%nat.

(** A row of the table [users]; the time of creation is left out. *)
Record User : Type := mkUser {
  user_id : nat;
  user_name : string;
  user_email : string;
  password_hash : string
}.

Definition Db : Type := list User.

(** [db.query(User).filter(User.email == email).first()] *)
Definition get_user_by_email (db : Db) (email : string) : option User :=
  find (fun u => String.eqb (user_email u) email) db.

Inductive Creation : Type :=
| Created (u : User) (db : Db)
| CreateValueError (msg : string)
| IntegrityError.

Record LoginResponse : Type := mkLoginResponse {
  success : bool;
  message : string;
  resp_user_name : option string;
  resp_user_email : option string
}.

Section Auth.

(** The two calls to passlib, taken to return, and the text of the
    exception the database raises for an address that is already there. *)
Variable get_password_hash : string -> string.
Variable verify_password : string -> string -> bool.
Variable integrity_text : string.

Definition authenticate_user (db : Db) (email password : string) : option User :=
  match get_user_by_email db email with
  | None => None
  | Some user => if verify_password password (password_hash user) then Some user else None
  end.

(** [db.add(db_user); db.commit()]: the column [email] is unique, and the
    row gets the number after the largest one in use. *)
Definition insert_user (db : Db) (name email hash : string) : Creation :=
  if existsb (fun u => String.eqb (user_email u) email) db then IntegrityError
  else
    let u := mkUser (S (list_max (map user_id db))) name email hash in
    Created u (db ++ [u]).

Definition create_user (db : Db) (name email password : string) : Creation :=
  if negb (validate_name name) then
    CreateValueError "Name must contain at least 2 characters"
  else if negb (validate_email email) then
    CreateValueError "Invalid email format"
  else if (String.length password <? 4)%nat then
    CreateValueError "Password must contain at least 4 characters"
  else
    match get_user_by_email db email with
    | Some _ => CreateValueError "This email is already in use"
    | None =>
        insert_user db (strip name) (strip (lower email)) (get_password_hash password)
    end.

(** The route [/login]. *)
Definition login (db : Db) (email password : string) : LoginResponse :=
  if negb (validate_email email) then
    mkLoginResponse false "Invalid email format" None None
  else if String.eqb password EmptyString || (String.length (strip password) <? 1)%nat then
    mkLoginResponse false "Password required" None None
  else
    match authenticate_user db (strip (lower email)) password with
    | None => mkLoginResponse false "Incorrect email or password" None None
    | Some user =>
        mkLoginResponse true "Login successful" (Some (user_name user)) (Some (user_email user))
    end.

(** The route [/register], with the table it leaves. *)
Definition register (db : Db) (name email password : string) : LoginResponse * Db :=
  match create_user db name email password with
  | Created user db' =>
      (mkLoginResponse true "Account created successfully"
         (Some (user_name user)) (Some (user_email user)), db')
  | CreateValueError msg => (mkLoginResponse false msg None None, db)
  | IntegrityError => (mkLoginResponse false ("Error: " ++ integrity_text) None None, db)
  end.

End Auth.

(** What the pattern says. *)
Inductive Matches : regex -> string -> Prop :=
| MEps : Matches Eps EmptyString
| MClass : forall (p : ascii -> bool) c, p c = true -> Matches (Class p) (String c EmptyString)
| MCat : forall r1 r2 s1 s2,
    Matches r1 s1 -> Matches r2 s2 -> Matches (Cat r1 r2) (s1 ++ s2)
| MAltL : forall r1 r2 s, Matches r1 s -> Matches (Alt r1 r2) s
| MAltR : forall r1 r2 s, Matches r2 s -> Matches (Alt r1 r2) s
| MStar0 : forall r, Matches (Star r) EmptyString
| MStarS : forall r s1 s2,
    Matches r s1 -> Matches (Star r) s2 -> Matches (Star r) (s1 ++ s2).

(** An address as the pattern wants it: a local part, an at sign, a
    domain, a dot and two letters or more. *)
Definition address (s : string) : Prop :=
  exists loc dom tld,
    s = (loc ++ "@" ++ dom ++ "." ++ tld)%string
    /\ loc <> EmptyString /\ string_forallb local_char loc = true
    /\ dom <> EmptyString /\ string_forallb domain_char dom = true
    /\ (2 <= String.length tld)%nat /\ string_forallb is_letter tld = true.

(** A stand-in for the hashing of the examples. *)
Definition toy_hash (password : string) : string := ("hash:" ++ password)%string.
Definition toy_verify (password hash : string) : bool := String.eqb hash (toy_hash password).

Definition one_user : Db := [mkUser 1 "Ann" "ann@example.com" (toy_hash "secret")].

(* ================================================================== *)
(** * Sessions and uploads *)
(* ================================================================== *)

Section Sessions.

(** The dictionary [summarise_dataframe] returns, taken as given. *)
Variable Summary : Type.
Variable summarise_dataframe : DataFrame -> Summary.

Variable read_csv : string -> option string -> CsvRead.
Variable read_excel : string -> option Engine -> option DataFrame.

(** A session; an empty summary is [None]. *)
Record Session : Type := mkSession {
  sess_df : option DataFrame;
  sess_summary : option Summary;
  sess_chat : list Message
}.

(** [SESSIONS], in the order the keys were first set. *)
Definition Sessions : Type := list (string * Session).

Fixpoint get_session (store : Sessions) (session_id : string) : option Session :=
  match store with
  | [] => None
  | (k, v) :: r => if String.eqb k session_id then Some v else get_session r session_id
  end.

Fixpoint save_session (store : Sessions) (session_id : string) (session_data : Session)
    : Sessions :=
  match store with
  | [] => [(session_id, session_data)]
  | (k, v) :: r =>
      if String.eqb k session_id then (k, session_data) :: r
      else (k, v) :: save_session r session_id session_data
  end.

(** The session the routes start from. *)
Definition new_session : Session :=
  {| sess_df := None;
     sess_summary := None;
     sess_chat :=
       [{| role := "system"; content := Some "You are FinBot, an AI financial advisor." |}] |}.

(** [if session_id and (session := get_session(session_id))]: the session
    the request names, when it names one. *)
Definition named_session (store : Sessions) (session_id : option string) : option Session :=
  match session_id with
  | None => None
  | Some sid => if String.eqb sid EmptyString then None else get_session store sid
  end.

Inductive UploadReply : Type :=
| UploadResponse (session_id : string) (summary : Summary)
| UploadHTTP400.

(** The route [/upload]: [uuid4] is the identifier [uuid.uuid4()] gives
    when it is asked for one. *)
Definition upload_file (store : Sessions) (data filename : string)
    (session_id : option string) (uuid4 : string) : UploadReply * Sessions :=
  let '(sid, session, store1) :=
    match session_id, named_session store session_id with
    | Some sid, Some session => (sid, session, store)
    | _, _ => (uuid4, new_session, save_session store uuid4 new_session)
    end in
  match read_excel_any read_csv read_excel data filename with
  | ReadFailure => (UploadHTTP400, store1)
  | Parsed df =>
      let summary := summarise_dataframe df in
      let session' :=
        {| sess_df := Some df; sess_summary := Some summary; sess_chat := sess_chat session |} in
      (UploadResponse sid summary, save_session store1 sid session')
  end.

(** The route [/session]. *)
Definition create_session (store : Sessions) (uuid4 : string) : string * Sessions :=
  (uuid4, save_session store uuid4 new_session).

End Sessions.

Arguments mkSession {Summary}.
Arguments sess_df {Summary}.
Arguments sess_summary {Summary}.
Arguments sess_chat {Summary}.
Arguments get_session {Summary}.
Arguments save_session {Summary}.
Arguments new_session {Summary}.
Arguments named_session {Summary}.
Arguments UploadResponse {Summary}.
Arguments UploadHTTP400 {Summary}.
Arguments upload_file {Summary}.
Arguments create_session {Summary}.

(** A summary for the examples: the number of rows. *)
Definition count_rows (df : DataFrame) : nat := len df.

(* ================================================================== *)
(** * Properties *)
(* ================================================================== *)

(** ** Tables: lookup, row selection, assignment *)

Lemma lookup_replace_same : forall c s l, lookup c (replace_column c s l) = Some s.
Proof.
  intros c s l. induction l as [|[n x] r IH]; simpl.
  - now rewrite String.eqb_refl.
  - destruct (String.eqb c n) eqn:E; simpl; rewrite E; auto.
Qed.

Lemma lookup_replace_other : forall c x s l,
  x <> c -> lookup x (replace_column c s l) = lookup x l.
Proof.
  intros c x s l Hx. induction l as [|[n y] r IH]; simpl.
  - apply String.eqb_neq in Hx. now rewrite Hx.
  - destruct (String.eqb c n) eqn:E; simpl.
    + apply String.eqb_eq in E. subst n.
      apply String.eqb_neq in Hx. now rewrite Hx.
    + destruct (String.eqb x n); auto.
Qed.

Lemma lookup_map_snd : forall (f : Series -> Series) x l,
  lookup x (map (fun nc => (fst nc, f (snd nc))) l) = option_map f (lookup x l).
Proof.
  intros f x l. induction l as [|[n y] r IH]; simpl; auto.
  destruct (String.eqb x n); auto.
Qed.

Lemma column_take_rows : forall m df x,
  column (take_rows m df) x = option_map (series_select m) (column df x).
Proof. intros. unfold column, take_rows. simpl. apply lookup_map_snd. Qed.

Lemma column_set_same : forall df c s, column (set_column df c s) c = Some s.
Proof. intros. unfold column, set_column. simpl. apply lookup_replace_same. Qed.

Lemma column_set_other : forall df c x s,
  x <> c -> column (set_column df c s) x = column df x.
Proof. intros. unfold column, set_column. simpl. now apply lookup_replace_other. Qed.

Lemma is_numeric_select : forall m s,
  is_numeric_dtype (series_select m s) = is_numeric_dtype s.
Proof. intros m s. destruct s; reflexivity. Qed.

Lemma select_map : forall (A B : Type) (f : A -> B) m l,
  select m (map f l) = map f (select m l).
Proof.
  intros A B f m. induction m as [|b m IH]; intros [|x l]; simpl; auto.
  destruct b; simpl; now rewrite IH.
Qed.

Lemma num_values_select : forall m s,
  num_values (series_select m s) = select m (num_values s).
Proof.
  intros m s. destruct s; simpl; auto.
  - symmetry. apply select_map.
  - now destruct m.
  - now destruct m.
Qed.

Lemma select_length : forall (A : Type) m (l : list A),
  (List.length (select m l) <= List.length l)%nat.
Proof.
  intros A m. induction m as [|b m IH]; intros [|x l]; simpl; auto with arith.
  destruct b; simpl; specialize (IH l); lia.
Qed.

Lemma select_In : forall (A : Type) m (l : list A) x, In x (select m l) -> In x l.
Proof.
  intros A m. induction m as [|b m IH]; intros [|y l] x; simpl; try tauto.
  destruct b; simpl; intros H.
  - destruct H as [H|H]; [now left | right; now apply IH].
  - right. now apply IH.
Qed.

Lemma select_Forall : forall (A : Type) (P : A -> Prop) m l,
  Forall P l -> Forall P (select m l).
Proof.
  intros A P m l H. rewrite Forall_forall in *.
  intros x Hx. apply H. eapply select_In; eauto.
Qed.

(** Selecting by [map p l] keeps exactly the cells that satisfy [p]. *)
Lemma select_by_test : forall (A : Type) (p : A -> bool) l,
  select (map p l) l = filter p l.
Proof.
  intros A p l. induction l as [|x l IH]; simpl; auto.
  destruct (p x); now rewrite IH.
Qed.

Lemma clean_turn_numeric : forall df c s,
  column df c = Some s -> is_numeric_dtype s = true ->
  clean_turn df c =
    take_rows (map ge0 (cleaned_values s)) (set_column df c (NumCol (cleaned_values s))).
Proof.
  intros df c s Hc Hn. unfold clean_turn, clamp_round_filter. rewrite Hc, Hn. simpl.
  rewrite column_set_same. reflexivity.
Qed.

Lemma clean_turn_skip : forall df c,
  (forall s, column df c = Some s -> is_numeric_dtype s = false) ->
  clean_turn df c = df.
Proof.
  intros df c H. unfold clean_turn.
  destruct (column df c) as [s|] eqn:E; auto.
  now rewrite (H s eq_refl).
Qed.

Lemma has_column_take_rows : forall m df x,
  has_column (take_rows m df) x = has_column df x.
Proof.
  intros. unfold has_column. rewrite column_take_rows.
  now destruct (column df x).
Qed.

Lemma numeric_column_take_rows : forall m df x,
  numeric_column (take_rows m df) x = numeric_column df x.
Proof.
  intros. unfold numeric_column. rewrite column_take_rows.
  destruct (column df x); simpl; auto using is_numeric_select.
Qed.

Lemma numeric_column_clean : forall df c x,
  numeric_column (clean_turn df c) x = numeric_column df x.
Proof.
  intros df c x.
  destruct (column df c) as [s|] eqn:Hc.
  - destruct (is_numeric_dtype s) eqn:Hn.
    + rewrite (clean_turn_numeric _ _ _ Hc Hn), numeric_column_take_rows.
      unfold numeric_column.
      destruct (string_dec x c) as [->|Hx].
      * now rewrite column_set_same, Hc, Hn.
      * now rewrite column_set_other.
    + rewrite clean_turn_skip; auto. intros s' E. congruence.
  - rewrite clean_turn_skip; auto. intros s' E. congruence.
Qed.

Lemma has_column_clean : forall df c x,
  has_column (clean_turn df c) x = has_column df x.
Proof.
  intros df c x.
  destruct (column df c) as [s|] eqn:Hc.
  - destruct (is_numeric_dtype s) eqn:Hn.
    + rewrite (clean_turn_numeric _ _ _ Hc Hn), has_column_take_rows.
      unfold has_column.
      destruct (string_dec x c) as [->|Hx].
      * now rewrite column_set_same, Hc.
      * now rewrite column_set_other.
    + rewrite clean_turn_skip; auto. intros s' E. congruence.
  - rewrite clean_turn_skip; auto. intros s' E. congruence.
Qed.

Lemma numeric_column_fold : forall cols df x,
  numeric_column (fold_left clean_turn cols df) x = numeric_column df x.
Proof.
  induction cols as [|c cols IH]; intros df x; simpl; auto.
  now rewrite IH, numeric_column_clean.
Qed.

Lemma has_column_fold : forall cols df x,
  has_column (fold_left clean_turn cols df) x = has_column df x.
Proof.
  induction cols as [|c cols IH]; intros df x; simpl; auto.
  now rewrite IH, has_column_clean.
Qed.

(** ** The turns that raise, and the turns that return *)

Lemma clean_column_cases : forall df c,
  clean_column df c =
    match column df c with
    | Some (BoolCol (_ :: _)) => Raised TypeError
    | _ => Ok (clean_turn df c)
    end.
Proof.
  intros df c. unfold clean_column, clean_turn.
  destruct (column df c) as [[v|[|b v]|v|v]|]; reflexivity.
Qed.

Lemma clean_column_ok : forall df c out,
  clean_column df c = Ok out -> out = clean_turn df c.
Proof.
  intros df c out H. rewrite clean_column_cases in H.
  destruct (column df c) as [[v|[|b v]|v|v]|]; congruence.
Qed.

Lemma clean_column_raised : forall df c e,
  clean_column df c = Raised e -> e = TypeError /\ bool_column df c = true.
Proof.
  intros df c e H. rewrite clean_column_cases in H. unfold bool_column.
  destruct (column df c) as [[v|[|b v]|v|v]|]; try discriminate.
  injection H as <-. auto.
Qed.

Lemma clean_column_no_bool : forall df c,
  bool_column df c = false -> clean_column df c = Ok (clean_turn df c).
Proof.
  intros df c H. rewrite clean_column_cases. unfold bool_column in H.
  destruct (column df c) as [[v|[|b v]|v|v]|]; try reflexivity; discriminate.
Qed.

Lemma clean_columns_ok : forall cols df out,
  clean_columns df cols = Ok out -> out = fold_left clean_turn cols df.
Proof.
  induction cols as [|c cols IH]; intros df out H; simpl in *.
  - congruence.
  - destruct (clean_column df c) as [df1|e] eqn:E; [|discriminate].
    apply clean_column_ok in E. subst df1. now apply IH.
Qed.

Lemma clean_columns_raised : forall cols df e,
  clean_columns df cols = Raised e -> e = TypeError.
Proof.
  induction cols as [|c cols IH]; intros df e H; simpl in *; [discriminate|].
  destruct (clean_column df c) as [df1|e1] eqn:E.
  - eapply IH; eauto.
  - injection H as <-. now apply clean_column_raised in E.
Qed.

Lemma clean_columns_app : forall before after df,
  clean_columns df (before ++ after) =
    match clean_columns df before with
    | Ok t => clean_columns t after
    | Raised e => Raised e
    end.
Proof.
  induction before as [|c before IH]; intros after df; simpl; [reflexivity|].
  destruct (clean_column df c); [apply IH | reflexivity].
Qed.

Lemma bool_column_take_rows : forall m df x,
  bool_column (take_rows m df) x = bool_column df x.
Proof.
  intros. unfold bool_column. rewrite column_take_rows.
  destruct (column df x) as [s|]; simpl; [now destruct s | reflexivity].
Qed.

Lemma bool_column_clean_turn : forall df c x,
  bool_column df x = false -> bool_column (clean_turn df c) x = false.
Proof.
  intros df c x H.
  destruct (column df c) as [s|] eqn:Hc;
    [|rewrite clean_turn_skip by (intros; congruence); exact H].
  destruct (is_numeric_dtype s) eqn:Hn;
    [|rewrite clean_turn_skip by (intros; congruence); exact H].
  rewrite (clean_turn_numeric _ _ _ Hc Hn), bool_column_take_rows.
  unfold bool_column. destruct (string_dec x c) as [->|Hne].
  - now rewrite column_set_same.
  - rewrite column_set_other by assumption. exact H.
Qed.

Lemma clean_columns_no_bool : forall cols df,
  (forall c, In c cols -> bool_column df c = false) ->
  clean_columns df cols = Ok (fold_left clean_turn cols df).
Proof.
  induction cols as [|c cols IH]; intros df H; simpl; [reflexivity|].
  rewrite clean_column_no_bool by (apply H; now left).
  apply IH. intros x Hx. apply bool_column_clean_turn. apply H. now right.
Qed.

Lemma clean_chart_data_ok : forall df cols out,
  _clean_chart_data df cols = Ok out ->
  forallb (has_column df) cols = true
  /\ out = fold_left clean_turn cols (take_rows (notna_rows df cols) df).
Proof.
  intros df cols out H. unfold _clean_chart_data, dropna in H.
  destruct (forallb (has_column df) cols); [|discriminate].
  split; [reflexivity|]. now apply clean_columns_ok.
Qed.

Lemma clean_chart_data_raised : forall df cols e,
  _clean_chart_data df cols = Raised e ->
  (e = KeyError /\ forallb (has_column df) cols = false)
  \/ (e = TypeError /\ forallb (has_column df) cols = true).
Proof.
  intros df cols e H. unfold _clean_chart_data, dropna in H.
  destruct (forallb (has_column df) cols).
  - right. split; [|reflexivity]. eapply clean_columns_raised; eauto.
  - left. injection H as <-. auto.
Qed.

Lemma clean_chart_data_no_bool : forall df cols,
  forallb (has_column df) cols = true ->
  (forall c, In c cols -> bool_column df c = false) ->
  _clean_chart_data df cols
  = Ok (fold_left clean_turn cols (take_rows (notna_rows df cols) df)).
Proof.
  intros df cols F H. unfold _clean_chart_data, dropna. rewrite F.
  apply clean_columns_no_bool. intros c Hc. rewrite bool_column_take_rows. now apply H.
Qed.

Lemma filter_present : forall df columns,
  forallb (has_column df) (filter (has_column df) columns) = true.
Proof.
  intros. apply forallb_forall. intros x Hx. apply filter_In in Hx. tauto.
Qed.

(** For the columns of a request that are in the table, cleaning
    returns a table or raises the [TypeError] of a bool column. *)
Lemma clean_chart_data_filtered : forall df columns,
  (exists out, _clean_chart_data df (filter (has_column df) columns) = Ok out)
  \/ _clean_chart_data df (filter (has_column df) columns) = Raised TypeError.
Proof.
  intros df columns.
  destruct (_clean_chart_data df (filter (has_column df) columns)) as [out|e] eqn:E.
  - left. eauto.
  - right. apply clean_chart_data_raised in E.
    rewrite filter_present in E. destruct E as [[_ E]|[-> _]]; [discriminate | reflexivity].
Qed.

(** ** Row counts *)

Lemma len_take_rows : forall m df, (len (take_rows m df) <= len df)%nat.
Proof. intros. unfold len, take_rows. simpl. apply select_length. Qed.

Lemma len_clean_turn : forall df c, (len (clean_turn df c) <= len df)%nat.
Proof.
  intros df c. unfold clean_turn, clamp_round_filter.
  destruct (column df c) as [s|]; auto.
  destruct (negb (is_numeric_dtype s)); auto.
  rewrite column_set_same.
  eapply Nat.le_trans; [apply len_take_rows|]. reflexivity.
Qed.

Lemma len_fold_clean : forall cols df,
  (len (fold_left clean_turn cols df) <= len df)%nat.
Proof.
  induction cols as [|c cols IH]; intros df; simpl; auto.
  eapply Nat.le_trans; [apply IH | apply len_clean_turn].
Qed.

(** ** After cleaning, a numeric target column holds no negative value *)

Lemma filter_Forall_true : forall (A : Type) (p : A -> bool) l,
  Forall (fun x => p x = true) (filter p l).
Proof.
  intros. apply Forall_forall. intros x Hx. apply filter_In in Hx. tauto.
Qed.

Lemma nonneg_clean_self : forall df c, nonneg_column (clean_turn df c) c.
Proof.
  intros df c s' Hs' Hn'.
  destruct (column df c) as [s|] eqn:Hc.
  - destruct (is_numeric_dtype s) eqn:Hn.
    + rewrite (clean_turn_numeric _ _ _ Hc Hn), column_take_rows, column_set_same in Hs'.
      simpl in Hs'. injection Hs' as <-. simpl.
      rewrite select_by_test. apply filter_Forall_true.
    + rewrite clean_turn_skip in Hs' by (intros; congruence). congruence.
  - rewrite clean_turn_skip in Hs' by (intros; congruence). congruence.
Qed.

Lemma nonneg_clean_keeps : forall df c x,
  nonneg_column df x -> nonneg_column (clean_turn df c) x.
Proof.
  intros df c x Hx.
  destruct (string_dec x c) as [->|Hne]; [apply nonneg_clean_self|].
  intros s' Hs' Hn'.
  destruct (column df c) as [s|] eqn:Hc.
  - destruct (is_numeric_dtype s) eqn:Hn.
    + rewrite (clean_turn_numeric _ _ _ Hc Hn), column_take_rows,
        column_set_other in Hs' by assumption.
      destruct (column df x) as [sx|] eqn:Ex; simpl in Hs'; [|discriminate].
      injection Hs' as <-. rewrite is_numeric_select in Hn'.
      rewrite num_values_select. apply select_Forall. now apply Hx.
    + rewrite clean_turn_skip in Hs' by (intros; congruence). now apply Hx.
  - rewrite clean_turn_skip in Hs' by (intros; congruence). now apply Hx.
Qed.

Lemma nonneg_fold_keeps : forall cols df x,
  nonneg_column df x -> nonneg_column (fold_left clean_turn cols df) x.
Proof.
  induction cols as [|c cols IH]; intros df x H; simpl; auto.
  apply IH. now apply nonneg_clean_keeps.
Qed.

Lemma nonneg_fold : forall cols df c,
  In c cols -> nonneg_column (fold_left clean_turn cols df) c.
Proof.
  induction cols as [|a cols IH]; intros df c Hin; simpl in *; [contradiction|].
  destruct Hin as [->|Hin].
  - apply nonneg_fold_keeps, nonneg_clean_self.
  - now apply IH.
Qed.

Lemma nonneg_clean_chart_data : forall df cols out c,
  _clean_chart_data df cols = Ok out -> In c cols -> nonneg_column out c.
Proof.
  intros df cols out c H Hin. apply clean_chart_data_ok in H.
  destruct H as [_ ->]. now apply nonneg_fold.
Qed.

(** ** Group sums and counts of non-negative values *)

Lemma add_to_group_nonneg : forall k x g,
  0 <= x -> nonneg_series g -> nonneg_series (add_to_group k x g).
Proof.
  intros k x g Hx. induction g as [|[k' s] r IH]; intros Hg; simpl.
  - repeat constructor. exact Hx.
  - inversion Hg as [|? ? Hs Hr]; subst. simpl in Hs.
    destruct (key_eqb k k').
    + constructor; auto. simpl. lra.
    + constructor; auto. now apply IH.
Qed.

Lemma insert_by_key_In : forall kx g y,
  In y (insert_by_key kx g) <-> y = kx \/ In y g.
Proof.
  intros kx g y. induction g as [|ky r IH]; simpl.
  - intuition congruence.
  - destruct (key_leb (fst kx) (fst ky)); simpl; [intuition congruence|].
    rewrite IH. intuition congruence.
Qed.

Lemma sort_by_key_In : forall g y, In y (sort_by_key g) <-> In y g.
Proof.
  induction g as [|kx r IH]; intros y; simpl; [tauto|].
  rewrite insert_by_key_In, IH. intuition congruence.
Qed.

Lemma insert_by_count_perm : forall kx g, Permutation (insert_by_count kx g) (kx :: g).
Proof.
  intros kx g. induction g as [|ky r IH]; simpl; [reflexivity|].
  destruct (Qle_bool (snd ky) (snd kx)); [reflexivity|].
  rewrite IH. apply perm_swap.
Qed.

Lemma sort_by_count_perm : forall g, Permutation (sort_by_count g) g.
Proof.
  induction g as [|kx r IH]; simpl; [reflexivity|].
  rewrite insert_by_count_perm. now constructor.
Qed.

Lemma sort_by_count_In : forall g y, In y (sort_by_count g) <-> In y g.
Proof.
  intros g y. split; apply Permutation_in;
    [apply sort_by_count_perm | symmetry; apply sort_by_count_perm].
Qed.

Lemma sort_by_key_nonneg : forall g, nonneg_series g -> nonneg_series (sort_by_key g).
Proof.
  intros g H. unfold nonneg_series in *. rewrite Forall_forall in *.
  intros y Hy. apply H. now apply sort_by_key_In.
Qed.

Lemma sort_by_count_nonneg : forall g, nonneg_series g -> nonneg_series (sort_by_count g).
Proof.
  intros g H. unfold nonneg_series in *. rewrite Forall_forall in *.
  intros y Hy. apply H. now apply sort_by_count_In.
Qed.

Lemma group_sum_nonneg : forall ks vs,
  Forall (fun x => ge0 x = true) vs -> nonneg_series (group_sum ks vs).
Proof.
  intros ks vs Hv. unfold group_sum. apply sort_by_key_nonneg. unfold sum_groups.
  assert (G : forall l g,
    Forall (fun kv : option Key * option Q => ge0 (snd kv) = true) l ->
    nonneg_series g ->
    nonneg_series
      (fold_left
         (fun g kv =>
            match fst kv with
            | Some k => add_to_group k (match snd kv with Some x => x | None => 0 end) g
            | None => g
            end) l g)).
  { induction l as [|[k v] l IH]; intros g Hl Hg; simpl; auto.
    inversion Hl as [|? ? Hkv Hl']; subst. simpl in Hkv.
    apply IH; auto.
    destruct k; auto.
    apply add_to_group_nonneg; auto.
    destruct v as [x|]; simpl in Hkv; [|discriminate].
    now apply Qle_bool_iff. }
  apply G; [|constructor].
  apply Forall_forall. intros [k v] Hin. simpl.
  rewrite Forall_forall in Hv. apply Hv.
  now apply in_combine_r in Hin.
Qed.

Lemma value_counts_nonneg : forall ks, nonneg_series (value_counts ks).
Proof.
  intros ks. unfold value_counts. apply sort_by_count_nonneg. unfold count_values.
  assert (G : forall l g, nonneg_series g ->
    nonneg_series
      (fold_left (fun g k => match k with
                             | Some k => add_to_group k 1 g
                             | None => g
                             end) l g)).
  { induction l as [|k l IH]; intros g Hg; simpl; auto.
    apply IH. destruct k; auto.
    apply add_to_group_nonneg; auto. lra. }
  apply G. constructor.
Qed.

Lemma filter_negative_nonneg : forall g, nonneg_series g -> filter negative g = [].
Proof.
  induction g as [|kx g IH]; intros H; simpl; auto.
  inversion H as [|? ? Hx Hg]; subst.
  unfold negative at 1. apply Qle_bool_iff in Hx. rewrite Hx. simpl. auto.
Qed.

Lemma pie_signs_nonneg_spend : forall prompt g,
  spend_hint prompt = true -> nonneg_series g -> pie_signs prompt g = [].
Proof.
  intros prompt g Hh Hg. unfold pie_signs. rewrite Hh.
  rewrite (filter_negative_nonneg g Hg). reflexivity.
Qed.

(** ** [_split_cols] as two filters *)

Lemma split_cols_filters : forall df cols,
  _split_cols df cols =
    (filter (categorical_column df) cols, filter (numeric_column df) cols).
Proof.
  intros df cols. unfold _split_cols.
  assert (G : forall l a b,
    fold_left
      (fun acc c =>
         match column df c with
         | None => acc
         | Some s =>
             if is_numeric_dtype s then (fst acc, snd acc ++ [c])
             else (fst acc ++ [c], snd acc)
         end) l (a, b) =
    (a ++ filter (categorical_column df) l, b ++ filter (numeric_column df) l)).
  { induction l as [|c l IH]; intros a b; simpl.
    - now rewrite !app_nil_r.
    - unfold categorical_column, numeric_column, has_column at 1.
      destruct (column df c) as [s|] eqn:E; simpl.
      + destruct (is_numeric_dtype s); simpl; rewrite IH; simpl;
          now rewrite <- ?app_assoc.
      + apply IH. }
  apply (G cols [] []).
Qed.

Lemma groupby_sum_nonneg : forall df cat c,
  numeric_column df c = true -> nonneg_column df c ->
  nonneg_series (groupby_sum df cat c).
Proof.
  intros df cat c Hn Hc. unfold groupby_sum.
  destruct (column df cat) as [kb|]; [|constructor].
  unfold numeric_column in Hn.
  destruct (column df c) as [sc|] eqn:E; [|constructor].
  apply group_sum_nonneg. now apply Hc.
Qed.

Lemma column_value_counts_nonneg : forall df c,
  nonneg_series (column_value_counts df c).
Proof.
  intros. unfold column_value_counts.
  destruct (column df c); [apply value_counts_nonneg | constructor].
Qed.

Lemma pie_series_requested_numeric : forall df cats n0 nums,
  numeric_column df n0 = true -> nonneg_column df n0 ->
  exists series, fst (pie_series df cats (n0 :: nums)) = Some series
                 /\ nonneg_series series.
Proof.
  intros df cats n0 nums Hn Hc. unfold pie_series.
  destruct cats as [|c0 cats]; simpl.
  - eexists; split; [reflexivity | apply column_value_counts_nonneg].
  - eexists; split; [reflexivity | now apply groupby_sum_nonneg].
Qed.

(** A request that names no bool column of the table is cleaned
    without an exception. *)
Lemma cleaning_returns_no_bool : forall df columns,
  (forall x, In x columns -> bool_column df x = false) ->
  cleaning_raises df columns = false.
Proof.
  intros df columns H. unfold cleaning_raises.
  rewrite clean_chart_data_no_bool; [reflexivity | apply filter_present |].
  intros c Hc. apply H. apply filter_In in Hc. tauto.
Qed.

(** The pie request of a bool column with a spending hint raises: the
    percentile of the bool column cannot be taken. *)
Lemma make_chart_pie_bool_column_counterexample :
  In "Paid" ["Category"; "Paid"]
  /\ numeric_column flags_table "Paid" = true
  /\ spend_hint "show my spending" = true
  /\ make_chart flags_table "pie" ["Category"; "Paid"] "show my spending" []
     = (Raise TypeError, [])
  /\ fst (make_chart flags_table "pie" ["Category"; "Paid"] "show my spending" [])
     <> Return NOT_ENOUGH_DATA.
Proof.
  split; [simpl; auto|]. split; [reflexivity|]. split; [reflexivity|].
  split; [reflexivity | discriminate].
Qed.

(** C10 (as amended): a pie request that names a numeric column of the
    table, made with a hint that contains spend, expense or outflow,
    comes back as the not-enough-data document whenever cleaning returns:
    cleaning leaves no negative value in the requested numeric columns,
    so the plotted series has no negative slice and keeping only the
    negative ones leaves none.  Cleaning returns when no requested column
    is a bool column of the table; when it raises, on the percentile of a
    bool column, the request raises that TypeError instead. *)
Theorem make_chart_pie_spend_hint_not_enough_data :
  forall (df : DataFrame) (columns : list string) (prompt : string)
         (figs : Figures) (c : string),
    In c columns ->
    numeric_column df c = true ->
    spend_hint prompt = true ->
    fst (make_chart df "pie" columns prompt figs)
      = (if cleaning_raises df columns then Raise TypeError else Return NOT_ENOUGH_DATA)
    /\ ((forall x, In x columns -> bool_column df x = false) ->
        fst (make_chart df "pie" columns prompt figs) = Return NOT_ENOUGH_DATA).
Proof.
  intros df columns prompt figs c Hin Hnum Hhint.
  assert (Main : fst (make_chart df "pie" columns prompt figs)
                 = if cleaning_raises df columns then Raise TypeError
                   else Return NOT_ENOUGH_DATA).
  { unfold make_chart, cleaning_raises.
    assert (Hc : In c (filter (has_column df) columns)).
    { apply filter_In. split; auto. unfold numeric_column in Hnum. unfold has_column.
      destruct (column df c); [reflexivity | discriminate]. }
    set (cols := filter (has_column df) columns) in *.
    destruct (clean_chart_data_filtered df columns) as [[df1 Hclean]|Hraise];
      fold cols in Hclean || fold cols in Hraise.
    2:{ rewrite Hraise. destruct cols; [contradiction | reflexivity]. }
    destruct cols as [|c1 cols'] eqn:Ecols; [contradiction|].
    rewrite <- Ecols in *. clearbody cols. rewrite Hclean.
    destruct (len df1 <? 3)%nat; [reflexivity|].
    unfold subplots. rewrite split_cols_filters.
    change (String.eqb "pie" "bar" || String.eqb "pie" "line") with false.
    change (String.eqb "pie" "pie") with true. cbv iota.
    assert (Hnum1 : forall x, numeric_column df1 x = numeric_column df x).
    { intros x. destruct (clean_chart_data_ok _ _ _ Hclean) as [_ ->].
      now rewrite numeric_column_fold, numeric_column_take_rows. }
    assert (Hc1 : In c (filter (numeric_column df1) cols)).
    { apply filter_In. split; auto. now rewrite Hnum1. }
    destruct (filter (numeric_column df1) cols) as [|n0 nums] eqn:Enums; [contradiction|].
    assert (Hn0 : In n0 cols /\ numeric_column df1 n0 = true).
    { apply filter_In. rewrite Enums. now left. }
    destruct Hn0 as [Hn0 Hn0num].
    destruct (pie_series_requested_numeric df1 (filter (categorical_column df1) cols)
                n0 nums Hn0num (nonneg_clean_chart_data _ _ _ _ Hclean Hn0))
      as [series [Hs Hnn]].
    destruct (pie_series df1 (filter (categorical_column df1) cols) (n0 :: nums))
      as [os nums1] eqn:Eps.
    simpl in Hs. subst os.
    rewrite (pie_signs_nonneg_spend prompt series Hhint Hnn). reflexivity. }
  split; [exact Main|].
  intros Hb. rewrite Main. now rewrite (cleaning_returns_no_bool df columns Hb).
Qed.

Lemma make_chart_pie_spend_hint_witness :
  fst (make_chart spend_table "pie" ["Category"; "Amount"] "show my spending" [])
  = Return NOT_ENOUGH_DATA.
Proof.
  apply (make_chart_pie_spend_hint_not_enough_data
           spend_table ["Category"; "Amount"] "show my spending" [] "Amount").
  - simpl. right. left. reflexivity.
  - reflexivity.
  - reflexivity.
  - intros x [<-|[<-|[]]]; reflexivity.
Defined.

(** ** The sign handling of the pie *)

Lemma negative_iff : forall kx, negative kx = true <-> snd kx < 0.
Proof.
  intros kx. unfold negative. rewrite negb_true_iff.
  destruct (Qle_bool 0 (snd kx)) eqn:E.
  - apply Qle_bool_iff in E. split; [discriminate | intros H; exfalso; lra].
  - split; auto. intros _.
    destruct (Qlt_le_dec (snd kx) 0) as [H|H]; auto.
    apply Qle_bool_iff in H. congruence.
Qed.

Lemma nonzero_iff : forall kx, nonzero kx = true <-> ~ snd kx == 0.
Proof.
  intros kx. unfold nonzero. rewrite negb_true_iff.
  destruct (Qeq_bool (snd kx) 0) eqn:E.
  - apply Qeq_bool_iff in E. split; [discriminate | tauto].
  - split; auto. intros _ H. apply Qeq_bool_iff in H. congruence.
Qed.

Lemma forallb_negative : forall g,
  forallb negative g = true <-> Forall (fun kx => snd kx < 0) g.
Proof.
  intros g. rewrite forallb_forall, Forall_forall.
  split; intros H x Hx; apply negative_iff; auto.
Qed.

Lemma existsb_negative : forall g,
  existsb negative g = true <-> Exists (fun kx => snd kx < 0) g.
Proof.
  intros g. rewrite existsb_exists, Exists_exists.
  split; intros [x [Hx H]]; exists x; split; auto; apply negative_iff; auto.
Qed.

Lemma lower_upper_ascii : forall c, lower_ascii (upper_ascii c) = lower_ascii c.
Proof. intros c. destruct c as [[] [] [] [] [] [] [] []]; reflexivity. Qed.

Lemma lower_upper : forall s, lower (upper s) = lower s.
Proof.
  induction s as [|c s IH]; simpl; [reflexivity|].
  now rewrite IH, lower_upper_ascii.
Qed.

(** C6: the sign handling of the pie.  The hint counts when it contains
    spend, expense or outflow in any mix of cases (the hint in capitals
    counts as the hint itself does), and then only the negative values
    are kept; kept values that are all negative are negated, kept values
    of both signs are replaced by their absolute values, and otherwise
    they stay; zero slices are dropped; with fewer than three slices left
    [make_chart] returns the not-enough-data document, and with three or
    more it draws them.  The two series of the specification give 50, 30,
    20. *)
Theorem pie_sign_handling :
  forall (prompt : string) (series : Labelled),
    let kept := if spend_hint prompt then filter negative series else series in
    (spend_hint prompt = true <->
       exists w, In w ["spend"; "expense"; "outflow"] /\ contains w (lower prompt) = true)
    /\ spend_hint (upper prompt) = spend_hint prompt
    /\ spend_hint "My EXPENSES by month" = true
    /\ spend_hint "show my income" = false
    /\ (spend_hint prompt = true ->
          forall kx, In kx kept <-> In kx series /\ snd kx < 0)
    /\ (Forall (fun kx => snd kx < 0) kept ->
          pie_signs prompt series = filter nonzero (map (on_value Qopp) kept))
    /\ (Exists (fun kx => snd kx < 0) kept -> Exists (fun kx => ~ snd kx < 0) kept ->
          pie_signs prompt series = filter nonzero (map (on_value Qabs) kept))
    /\ (Forall (fun kx => ~ snd kx < 0) kept ->
          pie_signs prompt series = filter nonzero kept)
    /\ Forall (fun kx => 0 < snd kx) (pie_signs prompt series)
    /\ (forall df columns figs nums1,
          pie_series_of df columns = Some (series, nums1) ->
          fst (make_chart df "pie" columns prompt figs) =
            if (List.length (pie_signs prompt series) <? 3)%nat
            then Return NOT_ENOUGH_DATA
            else Return (Base64Png
                           (mkChart "pie" [("", pie_signs prompt series)]
                              (chart_title_of "pie" (filter (has_column df) columns) nums1))))
    /\ values (pie_signs "show my spending" slices_a) = [50; 30; 20]
    /\ sum_Q (values (pie_signs "show my spending" slices_a)) == 100
    /\ values (pie_signs "" slices_b) = [50; 30; 20].
Proof.
  intros prompt series kept.
  split; [|split; [|split; [|split; [|split; [|split; [|split; [|split; [|split; [|split]]]]]]]]].
  - unfold spend_hint. rewrite existsb_exists. reflexivity.
  - unfold spend_hint. now rewrite lower_upper.
  - reflexivity.
  - reflexivity.
  - intros Hh kx. unfold kept. rewrite Hh, filter_In, negative_iff. reflexivity.
  - intros Hall. unfold pie_signs. fold kept.
    apply forallb_negative in Hall. now rewrite Hall.
  - intros Hsome Hnot. unfold pie_signs. fold kept.
    apply existsb_negative in Hsome. rewrite Hsome.
    destruct (forallb negative kept) eqn:E; auto.
    apply forallb_negative in E. exfalso.
    apply Exists_exists in Hnot. destruct Hnot as [x [Hx Hn]].
    rewrite Forall_forall in E. auto.
  - intros Hnone. unfold pie_signs. fold kept.
    destruct kept as [|k0 kept'] eqn:Ek; [reflexivity|].
    assert (E1 : forallb negative (k0 :: kept') = false).
    { simpl. inversion Hnone as [|? ? H0 _]; subst.
      destruct (negative k0) eqn:E; auto. apply negative_iff in E. contradiction. }
    assert (E2 : existsb negative (k0 :: kept') = false).
    { destruct (existsb negative (k0 :: kept')) eqn:E; auto.
      apply existsb_negative, Exists_exists in E. destruct E as [x [Hx Hn]].
      rewrite Forall_forall in Hnone. exfalso. eapply Hnone; eauto. }
    now rewrite E1, E2.
  - unfold pie_signs. fold kept. apply Forall_forall. intros kx Hin.
    apply filter_In in Hin. destruct Hin as [Hin Hnz]. apply nonzero_iff in Hnz.
    destruct (forallb negative kept) eqn:Eall.
    + apply in_map_iff in Hin. destruct Hin as [y [<- Hy]].
      apply forallb_negative in Eall. rewrite Forall_forall in Eall.
      specialize (Eall y Hy). unfold on_value in *. simpl in *. lra.
    + destruct (existsb negative kept) eqn:Eex.
      * apply in_map_iff in Hin. destruct Hin as [y [<- Hy]].
        unfold on_value in *. simpl in *.
        pose proof (Qabs_nonneg (snd y)) as Ha. 
        destruct (Qlt_le_dec 0 (Qabs (snd y))) as [H|H]; auto.
        exfalso. apply Hnz. lra.
      * destruct (Qlt_le_dec 0 (snd kx)) as [H|H]; auto.
        exfalso.
        assert (Hneg : existsb negative kept = true).
        { apply existsb_negative, Exists_exists. exists kx. split; auto.
          destruct (Qlt_le_dec (snd kx) 0) as [H'|H']; auto.
          exfalso. apply Hnz. lra. }
        congruence.
  - intros df columns figs nums1 Hps. unfold pie_series_of in Hps. unfold make_chart.
    destruct (filter (has_column df) columns) as [|c1 cols']; [discriminate|].
    destruct (_clean_chart_data df (c1 :: cols')) as [df1|e]; [|discriminate].
    destruct (len df1 <? 3)%nat; [discriminate|].
    unfold subplots.
    destruct (_split_cols df1 (c1 :: cols')) as [cats nums].
    simpl fst in Hps. simpl snd in Hps.
    change (String.eqb "pie" "bar" || String.eqb "pie" "line") with false.
    change (String.eqb "pie" "pie") with true. cbv iota.
    destruct (pie_series df1 cats nums) as [[s|] n1]; [|discriminate].
    injection Hps as -> ->.
    destruct (List.length (pie_signs prompt series) <? 3)%nat; reflexivity.
  - split; [reflexivity|]. split; reflexivity.
Qed.

(** The outflows of three categories, asked for as a pie of the
    category with a hint in capitals: the sums come in the order of the
    categories, food, fuel, rent, and are drawn as positive slices. *)
Lemma pie_sign_handling_witness :
  fst (make_chart outflow_table "pie" ["Category"] "Show my SPENDING" []) =
  Return (Base64Png
            (mkChart "pie"
               [("", [(KStr "food", 30); (KStr "fuel", 20); (KStr "rent", 50)])]
               "Pie – Category")).
Proof.
  destruct (pie_sign_handling "Show my SPENDING" outflow_sums)
    as (_ & _ & _ & _ & _ & _ & _ & _ & _ & H & _).
  rewrite (H outflow_table ["Category"] [] ["Amount"]).
  - reflexivity.
  - reflexivity.
Defined.

(** ** What cleaning keeps of the columns *)

Lemma all_numeric_take_rows : forall m df,
  _all_numeric (take_rows m df) = _all_numeric df.
Proof.
  intros m df. unfold _all_numeric, take_rows. simpl.
  induction (columns df) as [|[n s] l IH]; simpl; [reflexivity|].
  rewrite is_numeric_select. destruct (is_numeric_dtype s); simpl; now rewrite IH.
Qed.

Lemma is_datetime_take_rows : forall m df c,
  is_datetime_column (take_rows m df) c = is_datetime_column df c.
Proof.
  intros m df c. unfold is_datetime_column. rewrite column_take_rows.
  destruct (column df c) as [s|]; simpl; [now destruct s | reflexivity].
Qed.

Lemma fold_clean_no_numeric : forall cols df,
  (forall c, In c cols -> numeric_column df c = false) ->
  fold_left clean_turn cols df = df.
Proof.
  induction cols as [|c cols IH]; intros df H; simpl; [reflexivity|].
  assert (E : clean_turn df c = df).
  { apply clean_turn_skip. intros s Hs.
    specialize (H c (or_introl eq_refl)). unfold numeric_column in H.
    now rewrite Hs in H. }
  rewrite E. apply IH. intros x Hx. apply H. now right.
Qed.

Lemma filter_all : forall (A : Type) (p : A -> bool) l,
  (forall x, In x l -> p x = true) -> filter p l = l.
Proof.
  intros A p l H. induction l as [|x l IH]; simpl; [reflexivity|].
  rewrite (H x (or_introl eq_refl)). f_equal. apply IH. intros y Hy. apply H. now right.
Qed.

Lemma filter_none : forall (A : Type) (p : A -> bool) l,
  (forall x, In x l -> p x = false) -> filter p l = [].
Proof.
  intros A p l H. induction l as [|x l IH]; simpl; [reflexivity|].
  rewrite (H x (or_introl eq_refl)). apply IH. intros y Hy. apply H. now right.
Qed.

Lemma number_column_take_rows : forall m df x,
  number_column (take_rows m df) x = number_column df x.
Proof.
  intros. unfold number_column. rewrite column_take_rows.
  destruct (column df x) as [s|]; simpl; [now destruct s | reflexivity].
Qed.

Lemma number_is_numeric : forall df x, number_column df x = true -> numeric_column df x = true.
Proof.
  intros df x. unfold number_column, numeric_column.
  destruct (column df x) as [[]|]; simpl; congruence.
Qed.

Lemma number_clean_turn_self : forall df c,
  numeric_column df c = true -> number_column (clean_turn df c) c = true.
Proof.
  intros df c H. unfold numeric_column in H.
  destruct (column df c) as [s|] eqn:Hc; [|discriminate].
  rewrite (clean_turn_numeric _ _ _ Hc H), number_column_take_rows.
  unfold number_column. now rewrite column_set_same.
Qed.

Lemma number_clean_turn_keeps : forall df c x,
  number_column df x = true -> number_column (clean_turn df c) x = true.
Proof.
  intros df c x H.
  destruct (string_dec x c) as [->|Hne];
    [apply number_clean_turn_self; now apply number_is_numeric|].
  destruct (column df c) as [s|] eqn:Hc;
    [|rewrite clean_turn_skip by (intros; congruence); exact H].
  destruct (is_numeric_dtype s) eqn:Hn;
    [|rewrite clean_turn_skip by (intros; congruence); exact H].
  rewrite (clean_turn_numeric _ _ _ Hc Hn), number_column_take_rows.
  unfold number_column. rewrite column_set_other by assumption. exact H.
Qed.

Lemma number_fold_requested : forall cols df c,
  In c cols -> numeric_column df c = true ->
  number_column (fold_left clean_turn cols df) c = true.
Proof.
  assert (K : forall cols df x,
    number_column df x = true -> number_column (fold_left clean_turn cols df) x = true).
  { induction cols as [|a cols IH]; intros df x H; simpl; auto.
    apply IH. now apply number_clean_turn_keeps. }
  induction cols as [|a cols IH]; intros df c Hin Hn; simpl in *; [contradiction|].
  destruct Hin as [->|Hin].
  - apply K. now apply number_clean_turn_self.
  - apply IH; auto. now rewrite numeric_column_clean.
Qed.

Lemma is_datetime_clean_turn : forall df c x,
  is_datetime_column (clean_turn df c) x = is_datetime_column df x.
Proof.
  intros df c x.
  destruct (column df c) as [s|] eqn:Hc;
    [|rewrite clean_turn_skip by (intros; congruence); reflexivity].
  destruct (is_numeric_dtype s) eqn:Hn;
    [|rewrite clean_turn_skip by (intros; congruence); reflexivity].
  rewrite (clean_turn_numeric _ _ _ Hc Hn), is_datetime_take_rows.
  unfold is_datetime_column. destruct (string_dec x c) as [->|Hne].
  - rewrite column_set_same, Hc. destruct s; simpl in *; congruence.
  - now rewrite column_set_other.
Qed.

Lemma is_datetime_fold : forall cols df x,
  is_datetime_column (fold_left clean_turn cols df) x = is_datetime_column df x.
Proof.
  induction cols as [|c cols IH]; intros df x; simpl; auto.
  now rewrite IH, is_datetime_clean_turn.
Qed.

Lemma filter_same : forall (A : Type) (p q : A -> bool) l,
  (forall x, In x l -> p x = q x) -> filter p l = filter q l.
Proof.
  intros A p q l H. induction l as [|x l IH]; simpl; [reflexivity|].
  rewrite (H x (or_introl eq_refl)).
  destruct (q x); [f_equal|]; apply IH; intros y Hy; apply H; now right.
Qed.

(** The columns of a request after cleaning: the same are there, the
    same are numeric, the same hold dates. *)
Lemma cleaned_columns : forall df cols df1,
  _clean_chart_data df cols = Ok df1 ->
  (forall x, has_column df1 x = has_column df x)
  /\ (forall x, numeric_column df1 x = numeric_column df x)
  /\ (forall x, categorical_column df1 x = categorical_column df x)
  /\ (forall x, is_datetime_column df1 x = is_datetime_column df x)
  /\ (forall x, In x cols -> numeric_column df x = true -> number_column df1 x = true)
  /\ ((forall x, In x cols -> numeric_column df x = false) ->
      df1 = take_rows (notna_rows df cols) df).
Proof.
  intros df cols df1 H. destruct (clean_chart_data_ok _ _ _ H) as [_ ->].
  assert (Hh : forall x, has_column (fold_left clean_turn cols
                            (take_rows (notna_rows df cols) df)) x = has_column df x)
    by (intros; now rewrite has_column_fold, has_column_take_rows).
  assert (Hn : forall x, numeric_column (fold_left clean_turn cols
                            (take_rows (notna_rows df cols) df)) x = numeric_column df x)
    by (intros; now rewrite numeric_column_fold, numeric_column_take_rows).
  split; [exact Hh|]. split; [exact Hn|]. split; [|split; [|split]].
  - intros x. unfold categorical_column. now rewrite Hh, Hn.
  - intros x. now rewrite is_datetime_fold, is_datetime_take_rows.
  - intros x Hin Hx. apply number_fold_requested; auto.
    now rewrite numeric_column_take_rows.
  - intros Hc. apply fold_clean_no_numeric. intros c Hin.
    rewrite numeric_column_take_rows. now apply Hc.
Qed.

(** ** The outcomes of [make_chart] *)

(** The request of a chart of an unsupported kind on a table of two rows
    does not raise: the row count is checked before the kind is. *)
Lemma make_chart_unsupported_kind_two_rows :
  supported_kind "scatter" = false /\
  fst (make_chart two_rows "scatter" ["Amount"] "" []) = Return NOT_ENOUGH_DATA /\
  ~ (raises (fst (make_chart two_rows "scatter" ["Amount"] "" [])) <->
     (supported_kind "scatter" = false \/ filter (has_column two_rows) ["Amount"] = [])).
Proof.
  split; [reflexivity|]. split; [reflexivity|].
  intros [_ H].
  destruct (H (or_introl eq_refl)) as [e He].
  vm_compute in He. discriminate.
Qed.

Lemma supported_kind_cases : forall kind,
  supported_kind kind = false ->
  (String.eqb kind "bar" || String.eqb kind "line") = false /\ String.eqb kind "pie" = false.
Proof.
  intros kind H. unfold supported_kind in H.
  apply orb_false_iff in H. tauto.
Qed.

Lemma make_chart_no_columns : forall df kind columns prompt figs,
  filter (has_column df) columns = [] ->
  make_chart df kind columns prompt figs = (Raise (ValueError "No valid columns"), figs).
Proof. intros df kind columns prompt figs H. unfold make_chart. now rewrite H. Qed.

Lemma cleaning_raises_cases : forall df columns,
  (cleaning_raises df columns = true
   /\ _clean_chart_data df (filter (has_column df) columns) = Raised TypeError
   /\ rows_after_cleaning df columns = 0%nat)
  \/ (cleaning_raises df columns = false
      /\ exists df1, _clean_chart_data df (filter (has_column df) columns) = Ok df1
                     /\ rows_after_cleaning df columns = len df1).
Proof.
  intros df columns. unfold cleaning_raises, rows_after_cleaning.
  destruct (clean_chart_data_filtered df columns) as [[df1 E]|E]; rewrite E.
  - right. eauto.
  - left. auto.
Qed.

Lemma make_chart_cleaning_raises : forall df kind columns prompt figs,
  filter (has_column df) columns <> [] ->
  cleaning_raises df columns = true ->
  make_chart df kind columns prompt figs = (Raise TypeError, figs).
Proof.
  intros df kind columns prompt figs Hc Hr.
  destruct (cleaning_raises_cases df columns) as [[_ [E _]]|[E _]]; [|congruence].
  unfold make_chart. rewrite E.
  destruct (filter (has_column df) columns); [congruence | reflexivity].
Qed.

Lemma make_chart_few_rows : forall df kind columns prompt figs,
  filter (has_column df) columns <> [] ->
  cleaning_raises df columns = false ->
  (rows_after_cleaning df columns < 3)%nat ->
  make_chart df kind columns prompt figs = (Return NOT_ENOUGH_DATA, figs).
Proof.
  intros df kind columns prompt figs Hc Hk Hr.
  destruct (cleaning_raises_cases df columns) as [[E _]|[_ [df1 [E R]]]]; [congruence|].
  unfold make_chart. rewrite E. rewrite R in Hr.
  destruct (filter (has_column df) columns); [congruence|].
  apply Nat.ltb_lt in Hr. now rewrite Hr.
Qed.

Lemma enough_rows_cleaned : forall df columns,
  (3 <= rows_after_cleaning df columns)%nat ->
  cleaning_raises df columns = false
  /\ exists df1, _clean_chart_data df (filter (has_column df) columns) = Ok df1
                 /\ (len df1 <? 3)%nat = false.
Proof.
  intros df columns H.
  destruct (cleaning_raises_cases df columns) as [[_ [_ R]]|[K [df1 [E R]]]]; [lia|].
  split; [exact K|]. exists df1. split; [exact E|]. apply Nat.ltb_ge. lia.
Qed.

(** The bar and line branch on a cleaned table: it raises exactly when
    there is nothing to draw. *)
Lemma bar_line_cleaned : forall df kind columns df1,
  _clean_chart_data df (filter (has_column df) columns) = Ok df1 ->
  (String.eqb kind "bar" || String.eqb kind "line") = true ->
  let cols := filter (has_column df) columns in
  if nothing_to_draw df kind columns
  then bar_line df1 kind (fst (_split_cols df1 cols)) (snd (_split_cols df1 cols))
       = Raised TypeError
  else exists drawn data nums1,
         bar_line df1 kind (fst (_split_cols df1 cols)) (snd (_split_cols df1 cols))
         = Ok (drawn, data, nums1)
         /\ (drawn = kind \/ drawn = "bar").
Proof.
  intros df kind columns df1 E Ek cols.
  destruct (cleaned_columns _ _ _ E) as (Hh & Hn & Hcat & Hdt & Hnum & Hsame).
  fold cols in Hnum, Hsame.
  rewrite split_cols_filters. cbn [fst snd].
  rewrite (filter_same _ _ (categorical_column df) cols (fun x _ => Hcat x)).
  rewrite (filter_same _ _ (numeric_column df) cols (fun x _ => Hn x)).
  unfold nothing_to_draw. fold cols. rewrite Ek. cbn [andb].
  assert (Hshown : forall nums, nums <> [] ->
            (forall x, In x nums -> In x cols /\ numeric_column df x = true) ->
            forall idx, frame_plot df1 idx nums = Ok (frame_points df1 idx nums)).
  { intros nums Hne Hall idx. unfold frame_plot.
    rewrite filter_all by (intros x Hx; destruct (Hall x Hx); now apply Hnum).
    destruct nums; [congruence | reflexivity]. }
  assert (Hnums : forall x, In x (filter (numeric_column df) cols) ->
                            In x cols /\ numeric_column df x = true)
    by (intros x Hx; now apply filter_In in Hx).
  destruct (filter (categorical_column df) cols) as [|c0 cats'] eqn:Ecats.
  - unfold bar_line.
    destruct (filter (numeric_column df) cols) as [|n0 nums'] eqn:Enums.
    + eexists _, _, _. split; [reflexivity | now left].
    + rewrite Hshown by (auto; discriminate).
      eexists _, _, _. split; [reflexivity | now left].
  - unfold bar_line. rewrite Hdt.
    destruct (is_datetime_column df c0) eqn:Edt; cbn [andb].
    + destruct (filter (numeric_column df) cols) as [|n0 nums'] eqn:Enums; cbn [is_nil andb].
      * assert (Hnone : forall x, In x cols -> numeric_column df x = false).
        { intros x Hx. destruct (numeric_column df x) eqn:Ex; [|reflexivity].
          assert (Hin : In x (filter (numeric_column df) cols))
            by (apply filter_In; auto).
          rewrite Enums in Hin. contradiction. }
        rewrite (Hsame Hnone). rewrite all_numeric_take_rows.
        unfold frame_plot.
        rewrite (filter_same _ _ (number_column df) (_all_numeric df)
                   (fun x _ => number_column_take_rows _ df x)).
        destruct (filter (number_column df) (_all_numeric df)) as [|y ys];
          cbn [is_nil]; [reflexivity|].
        eexists _, _, _. split; [reflexivity | now left].
      * rewrite Hshown by (auto; discriminate).
        eexists _, _, _. split; [reflexivity | now left].
    + destruct (filter (numeric_column df) cols) as [|n0 nums'].
      * destruct (truthy (_best_numeric df1));
          eexists _, _, _; (split; [reflexivity|]); [now left | now right].
      * eexists _, _, _. split; [reflexivity | now left].
Qed.

(** Past the row check: the outcome and the open figures, by kind. *)
Lemma make_chart_enough_rows : forall df kind columns prompt figs,
  filter (has_column df) columns <> [] ->
  (3 <= rows_after_cleaning df columns)%nat ->
  let fig := S (list_max figs) in
  if supported_kind kind then
    if nothing_to_draw df kind columns then
      make_chart df kind columns prompt figs = (Raise TypeError, figs ++ [fig])
    else
      (exists c, make_chart df kind columns prompt figs
                 = (Return (Base64Png c), plt_close fig (figs ++ [fig])))
      \/ (kind = "pie" /\
          make_chart df kind columns prompt figs = (Return NOT_ENOUGH_DATA, figs ++ [fig]))
  else
    make_chart df kind columns prompt figs
    = (Raise (ValueError "Unsupported chart type"), figs ++ [fig]).
Proof.
  intros df kind columns prompt figs Hc Hr fig.
  destruct (enough_rows_cleaned df columns Hr) as [_ [df1 [E Hlen]]].
  pose proof (bar_line_cleaned df kind columns df1 E) as BL. cbv zeta in BL.
  unfold make_chart. rewrite E.
  destruct (filter (has_column df) columns) as [|c1 cols'] eqn:Ecols; [congruence|].
  rewrite Hlen. unfold subplots. fold fig.
  destruct (_split_cols df1 (c1 :: cols')) as [cats nums]. cbn [fst snd] in BL.
  destruct (supported_kind kind) eqn:Ek.
  - destruct (String.eqb kind "bar" || String.eqb kind "line") eqn:Ebl.
    + specialize (BL eq_refl).
      destruct (nothing_to_draw df kind columns).
      * now rewrite BL.
      * destruct BL as [drawn [data [nums1 [-> _]]]]. left. eauto.
    + assert (N : nothing_to_draw df kind columns = false)
        by (unfold nothing_to_draw; now rewrite Ebl).
      rewrite N.
      unfold supported_kind in Ek. rewrite Ebl in Ek. simpl in Ek. rewrite Ek.
      apply String.eqb_eq in Ek.
      destruct (pie_series df1 cats nums) as [[s|] n1].
      * destruct (List.length (pie_signs prompt s) <? 3)%nat; [right | left]; eauto.
      * right; auto.
  - destruct (supported_kind_cases kind Ek) as [-> ->]. reflexivity.
Qed.

Lemma nothing_to_draw_supported : forall df kind columns,
  nothing_to_draw df kind columns = true -> supported_kind kind = true.
Proof.
  intros df kind columns H. unfold nothing_to_draw in H. unfold supported_kind.
  apply andb_true_iff in H. destruct H as [H _]. now rewrite H.
Qed.

(** The six ways a call of [make_chart] can go. *)
Lemma make_chart_cases : forall df kind columns prompt figs,
  let r := fst (make_chart df kind columns prompt figs) in
  let cols := filter (has_column df) columns in
  (cols = [] /\ cleaning_raises df columns = false
   /\ r = Raise (ValueError "No valid columns"))
  \/ (cols <> [] /\ cleaning_raises df columns = true
      /\ rows_after_cleaning df columns = 0%nat /\ r = Raise TypeError)
  \/ (cols <> [] /\ cleaning_raises df columns = false
      /\ (rows_after_cleaning df columns < 3)%nat /\ r = Return NOT_ENOUGH_DATA)
  \/ (cols <> [] /\ cleaning_raises df columns = false
      /\ (3 <= rows_after_cleaning df columns)%nat
      /\ supported_kind kind = false /\ nothing_to_draw df kind columns = false
      /\ r = Raise (ValueError "Unsupported chart type"))
  \/ (cols <> [] /\ cleaning_raises df columns = false
      /\ (3 <= rows_after_cleaning df columns)%nat
      /\ supported_kind kind = true /\ nothing_to_draw df kind columns = true
      /\ r = Raise TypeError)
  \/ (cols <> [] /\ cleaning_raises df columns = false
      /\ (3 <= rows_after_cleaning df columns)%nat
      /\ supported_kind kind = true /\ nothing_to_draw df kind columns = false
      /\ exists p, r = Return p).
Proof.
  intros df kind columns prompt figs r cols. subst r cols.
  destruct (filter (has_column df) columns) as [|c1 cols'] eqn:Ecols.
  - left. rewrite (make_chart_no_columns _ _ _ _ _ Ecols).
    split; [reflexivity|]. split; [|reflexivity].
    unfold cleaning_raises. now rewrite Ecols.
  - right. assert (Hne : filter (has_column df) columns <> []) by congruence.
    assert (Hne' : c1 :: cols' <> []) by discriminate.
    destruct (cleaning_raises_cases df columns) as [[K [_ R]]|[K _]].
    + left. now rewrite (make_chart_cleaning_raises _ kind _ prompt figs Hne K).
    + right.
      destruct (Nat.lt_ge_cases (rows_after_cleaning df columns) 3) as [Hlt|Hge].
      * left. now rewrite (make_chart_few_rows _ kind _ prompt figs Hne K Hlt).
      * right.
        pose proof (make_chart_enough_rows df kind columns prompt figs Hne Hge) as H.
        cbv zeta in H.
        destruct (supported_kind kind) eqn:Ek.
        -- right. destruct (nothing_to_draw df kind columns) eqn:En.
           ++ left. now rewrite H.
           ++ right. repeat (split; [assumption || reflexivity|]).
              destruct H as [[c H]|[_ H]]; rewrite H; simpl; eauto.
        -- left. rewrite H.
           assert (En : nothing_to_draw df kind columns = false).
           { destruct (nothing_to_draw df kind columns) eqn:En; [|reflexivity].
             apply nothing_to_draw_supported in En. congruence. }
           repeat split; assumption || reflexivity.
Qed.

Lemma make_chart_raises_cases : forall df kind columns prompt figs e,
  fst (make_chart df kind columns prompt figs) = Raise e ->
  e = TypeError \/ exists msg, e = ValueError msg.
Proof.
  intros df kind columns prompt figs e He.
  pose proof (make_chart_cases df kind columns prompt figs) as C. cbv zeta in C.
  destruct C as [(E & K & R)|[(E & K & Z & R)|[(E & K & L & R)|[(E & K & L & S1 & N & R)
    |[(E & K & L & S1 & N & R)|(E & K & L & S1 & N & [p R])]]]]]; rewrite R in He;
    try discriminate; injection He as <-; eauto.
Qed.

(** C1 (as amended): [make_chart] raises exactly when no requested column
    is in the table, or when cleaning raises, or when three or more rows
    are left after cleaning and the kind is none of bar, line and pie or
    a bar or line chart has nothing to draw.  It raises the ValueError of
    the invalid request in the first and the third case, and a TypeError
    that comes out of pandas in the others, never a KeyError.  Cleaning
    does not raise when no requested column is a bool column of the
    table.  Whenever a requested column is in the table, cleaning returns
    and fewer than three rows are left, it returns the not-enough-data
    document, whatever the kind. *)
Theorem make_chart_raises_iff :
  forall (df : DataFrame) (kind : string) (columns : list string)
         (prompt : string) (figs : Figures),
    (raises (fst (make_chart df kind columns prompt figs)) <->
       filter (has_column df) columns = []
       \/ cleaning_raises df columns = true
       \/ ((3 <= rows_after_cleaning df columns)%nat
           /\ (supported_kind kind = false \/ nothing_to_draw df kind columns = true)))
    /\ (forall e, fst (make_chart df kind columns prompt figs) = Raise e ->
                  e = TypeError \/ exists msg, e = ValueError msg)
    /\ (fst (make_chart df kind columns prompt figs) = Raise TypeError <->
          filter (has_column df) columns <> []
          /\ (cleaning_raises df columns = true
              \/ ((3 <= rows_after_cleaning df columns)%nat
                  /\ nothing_to_draw df kind columns = true)))
    /\ ((forall x, In x columns -> bool_column df x = false) ->
        cleaning_raises df columns = false)
    /\ (filter (has_column df) columns <> [] ->
        cleaning_raises df columns = false ->
        (rows_after_cleaning df columns < 3)%nat ->
        fst (make_chart df kind columns prompt figs) = Return NOT_ENOUGH_DATA).
Proof.
  intros df kind columns prompt figs.
  pose proof (make_chart_cases df kind columns prompt figs) as C. cbv zeta in C.
  unfold raises.
  split; [|split; [|split; [|split]]].
  - destruct C as [(E & K & R)|[(E & K & Z & R)|[(E & K & L & R)|[(E & K & L & S1 & N & R)
      |[(E & K & L & S1 & N & R)|(E & K & L & S1 & N & [p R])]]]]]; rewrite R; split;
      try (intros _; eexists; reflexivity); try (intros [e He]; discriminate); auto.
    + intros [H|[H|[H _]]]; [congruence | congruence | lia].
    + intros [H|[H|[_ [H|H]]]]; congruence.
  - intros e He.
    destruct C as [(E & K & R)|[(E & K & Z & R)|[(E & K & L & R)|[(E & K & L & S1 & N & R)
      |[(E & K & L & S1 & N & R)|(E & K & L & S1 & N & [p R])]]]]]; rewrite R in He;
      try discriminate; injection He as <-; eauto.
  - destruct C as [(E & K & R)|[(E & K & Z & R)|[(E & K & L & R)|[(E & K & L & S1 & N & R)
      |[(E & K & L & S1 & N & R)|(E & K & L & S1 & N & [p R])]]]]]; rewrite R; split;
      try discriminate; auto.
    + intros [H _]. congruence.
    + intros [_ [H|[H _]]]; [congruence | lia].
    + intros [_ [H|[_ H]]]; congruence.
    + intros [_ [H|[_ H]]]; congruence.
  - apply cleaning_returns_no_bool.
  - intros Hne Hk Hlt. now rewrite (make_chart_few_rows _ kind _ prompt figs Hne Hk Hlt).
Qed.

Lemma make_chart_raises_iff_witness :
  fst (make_chart two_rows "scatter" ["Amount"] "" []) = Return NOT_ENOUGH_DATA.
Proof.
  apply (make_chart_raises_iff two_rows "scatter" ["Amount"] "" []).
  - vm_compute. discriminate.
  - reflexivity.
  - vm_compute. lia.
Defined.

(** ** The figures [make_chart] leaves open *)

Lemma plt_close_fresh : forall figs,
  plt_close (S (list_max figs)) (figs ++ [S (list_max figs)]) = figs.
Proof.
  intros figs. unfold plt_close.
  assert (B : Forall (fun k => (k <= list_max figs)%nat) figs)
    by (apply list_max_le; reflexivity).
  remember (S (list_max figs)) as fig eqn:Ef.
  assert (B' : Forall (fun k => (k < fig)%nat) figs).
  { eapply Forall_impl; [|exact B]. simpl. intros; lia. }
  clear B Ef. rewrite filter_app. simpl. rewrite Nat.eqb_refl. simpl.
  rewrite app_nil_r.
  induction figs as [|n figs IH]; simpl; auto.
  inversion B' as [|? ? Hn Hr]; subst.
  assert (E : Nat.eqb n fig = false) by (apply Nat.eqb_neq; lia).
  rewrite E. simpl. now rewrite IH.
Qed.

Lemma fresh_figure_stays : forall figs, figs ++ [S (list_max figs)] <> figs.
Proof.
  intros figs H. apply (f_equal (@List.length nat)) in H.
  rewrite length_app in H. simpl in H. lia.
Qed.

(** C9: where the code stands on closing the figure.  The image branch
    closes the figure it opened; the not-enough-data returns of the pie
    branch, the raise for an unsupported kind and an exception of the
    plotting call leave it open; an exception raised before the figure
    is opened, for no valid column or in cleaning, leaves none.  On a
    table of four rows that all survive cleaning, a pie request with a
    spending hint and a scatter request both end with figure 1 still
    open, and a bar request ends with none open. *)
Theorem make_chart_open_figures :
  forall (df : DataFrame) (kind : string) (columns : list string)
         (prompt : string) (figs : Figures),
    snd (make_chart df kind columns prompt figs) =
      match fst (make_chart df kind columns prompt figs) with
      | Return (Base64Png _) => figs
      | Return (Json _) =>
          if (rows_after_cleaning df columns <? 3)%nat then figs
          else figs ++ [S (list_max figs)]
      | Raise _ =>
          if is_nil (filter (has_column df) columns) || cleaning_raises df columns
          then figs
          else figs ++ [S (list_max figs)]
      end
    /\ figs ++ [S (list_max figs)] <> figs
    /\ make_chart spend_table "pie" ["Category"; "Amount"] "show my spending" []
       = (Return NOT_ENOUGH_DATA, [1%nat])
    /\ make_chart spend_table "scatter" ["Category"; "Amount"] "" []
       = (Raise (ValueError "Unsupported chart type"), [1%nat])
    /\ snd (make_chart spend_table "bar" ["Category"; "Amount"] "" []) = [].
Proof.
  intros df kind columns prompt figs.
  split; [|split; [apply fresh_figure_stays | repeat split; reflexivity]].
  destruct (filter (has_column df) columns) as [|c1 cols'] eqn:Ecols.
  - now rewrite (make_chart_no_columns _ _ _ _ _ Ecols).
  - assert (Hne : filter (has_column df) columns <> []) by congruence.
    rewrite <- Ecols in *.
    assert (Enil : is_nil (filter (has_column df) columns) = false)
      by (rewrite Ecols; reflexivity).
    rewrite Enil. cbn [orb].
    destruct (cleaning_raises_cases df columns) as [[K [_ R]]|[K _]].
    + now rewrite (make_chart_cleaning_raises _ kind _ prompt figs Hne K), K.
    + rewrite K.
      destruct (rows_after_cleaning df columns <? 3)%nat eqn:Er.
      * apply Nat.ltb_lt in Er.
        now rewrite (make_chart_few_rows _ kind _ prompt figs Hne K Er).
      * apply Nat.ltb_ge in Er.
        pose proof (make_chart_enough_rows df kind columns prompt figs Hne Er) as H.
        cbv zeta in H.
        destruct (supported_kind kind).
        -- destruct (nothing_to_draw df kind columns).
           ++ now rewrite H.
           ++ destruct H as [[c H]|[_ H]]; rewrite H; simpl; auto using plt_close_fresh.
        -- now rewrite H.
Qed.

(** ** Sampling *)

(** C8: [sample_df] selects the same rows, in the same order, whatever
    state the generator is in when it is called: the first call and a
    second one made in the state the first one left agree, and so do two
    calls made in any two states. *)
Theorem sample_df_deterministic :
  forall (RNG : Type) (random_seed : Z -> RNG)
         (random_sample : RNG -> nat -> Z -> option (list nat) * RNG)
         (cfg : Settings) (df : DataFrame) (g g' : RNG),
    fst (sample_df RNG random_seed random_sample cfg df g)
    = fst (sample_df RNG random_seed random_sample cfg df g')
    /\ fst (sample_df RNG random_seed random_sample cfg df
              (snd (sample_df RNG random_seed random_sample cfg df g)))
       = fst (sample_df RNG random_seed random_sample cfg df g).
Proof.
  intros RNG random_seed random_sample cfg df g g'.
  assert (D : forall a b,
    fst (sample_df RNG random_seed random_sample cfg df a)
    = fst (sample_df RNG random_seed random_sample cfg df b)).
  { intros a b. unfold sample_df.
    destruct (Z.of_nat (len df) <=?
              Z.max (SAMPLE_MIN_ROWS cfg) (Z.min (SAMPLE_MAX_ROWS cfg) (Z.of_nat (len df))))%Z;
      [reflexivity|].
    destruct (random_sample (random_seed 42%Z) (len df)
                (Z.max (SAMPLE_MIN_ROWS cfg) (Z.min (SAMPLE_MAX_ROWS cfg) (Z.of_nat (len df)))))
      as [[ps|] g2]; reflexivity. }
  split; apply D.
Qed.

(** ** Substrings *)

Lemma startswith_iff : forall p s,
  startswith p s = true <-> exists b, s = (p ++ b)%string.
Proof.
  induction p as [|a p IH]; intros s; simpl.
  - split; eauto.
  - destruct s as [|c s].
    + split; [discriminate | intros [b H]; discriminate].
    + rewrite andb_true_iff, IH. split.
      * intros [E [b ->]]. apply Ascii.eqb_eq in E. subst. eauto.
      * intros [b H]. injection H as -> ->. split; [apply Ascii.eqb_refl | eauto].
Qed.

Lemma contains_iff : forall w s,
  contains w s = true <-> exists a b, s = (a ++ w ++ b)%string.
Proof.
  intros w s. induction s as [|c s IH]; simpl.
  - rewrite orb_false_r, startswith_iff. split.
    + intros [b H]. exists EmptyString, b. exact H.
    + intros [a [b H]]. destruct a; simpl in H; [eauto | discriminate].
  - rewrite orb_true_iff, startswith_iff, IH. split.
    + intros [[b H]|[a [b H]]].
      * exists EmptyString, b. exact H.
      * exists (String c a), b. simpl. now rewrite H.
    + intros [a [b H]]. destruct a as [|c' a]; simpl in H.
      * left. eauto.
      * right. injection H as _ ->. eauto.
Qed.

(** ** The best numeric column *)

Lemma find_first : forall (p : string -> bool) pre c post,
  (forall x, In x pre -> p x = false) -> p c = true ->
  find p (pre ++ c :: post) = Some c.
Proof.
  intros p pre c post Hpre Hc. induction pre as [|a pre IH]; simpl.
  - now rewrite Hc.
  - rewrite (Hpre a (or_introl eq_refl)). apply IH.
    intros x Hx. apply Hpre. now right.
Qed.

Lemma find_no_match : forall (p : string -> bool) l,
  (forall x, In x l -> p x = false) -> find p l = None.
Proof.
  intros p l H. induction l as [|a l IH]; simpl; auto.
  rewrite (H a (or_introl eq_refl)). apply IH. intros x Hx. apply H. now right.
Qed.

Lemma max_by_fold : forall (key : string -> Q) r best,
  let m := fold_left (fun best c => if Qlt_le_dec (key best) (key c) then c else best) r best in
  (m = best \/ In m r) /\ key best <= key m /\ forall y, In y r -> key y <= key m.
Proof.
  intros key r. induction r as [|c r IH]; intros best; simpl.
  - split; [now left|]. split; [apply Qle_refl | tauto].
  - destruct (Qlt_le_dec (key best) (key c)) as [Hlt|Hle];
      [specialize (IH c) | specialize (IH best)]; simpl in IH;
      destruct IH as [Hin [Hb Hall]].
    + split; [right; destruct Hin as [->|Hin]; auto|].
      split; [lra|]. intros y [<-|Hy]; auto.
    + split; [destruct Hin as [->|Hin]; auto|].
      split; [assumption|]. intros y [<-|Hy]; auto. lra.
Qed.

Lemma max_by_spec : forall (key : string -> Q) l,
  l <> [] ->
  exists m, max_by key l = Some m /\ In m l /\ forall y, In y l -> key y <= key m.
Proof.
  intros key [|x r] Hne; [congruence|]. simpl.
  destruct (max_by_fold key r x) as [Hin [Hb Hall]].
  eexists. split; [reflexivity|]. split.
  - destruct Hin as [->|Hin]; [now left | now right].
  - intros y [<-|Hy]; auto.
Qed.

(** Neither name contains one of the six words and quantity has the
    larger sum of absolute values, yet the column picked is paid. *)
Lemma best_numeric_six_words_counterexample :
  spec_name_match "quantity" = false /\
  spec_name_match "paid" = false /\
  abs_sum quantity_paid "paid" < abs_sum quantity_paid "quantity" /\
  spec_best_numeric quantity_paid = Some "quantity" /\
  _best_numeric quantity_paid = Some "paid".
Proof. repeat split; reflexivity. Qed.

(** C3 (as amended): [_best_numeric] returns nothing exactly when the
    table has no numeric column; otherwise it returns the first numeric
    column, in table order, whose lower-case name contains one of the ten
    words amount, cost, price, total, value, balance, paid, spend, debit,
    credit; when no name contains one of them it returns a numeric column
    whose sum of absolute values no other exceeds; on the columns quantity
    1, 2, 3 and amount -100, -200, 5 it returns amount. *)
Theorem best_numeric_spec :
  forall df : DataFrame,
    (_best_numeric df = None <-> _all_numeric df = [])
    /\ (forall c, _MONEY_RE_search c = true <->
          exists w a b,
            In w ["amount"; "cost"; "price"; "total"; "value"; "balance";
                  "paid"; "spend"; "debit"; "credit"]
            /\ lower c = (a ++ w ++ b)%string)
    /\ (forall pre c post,
          _all_numeric df = pre ++ c :: post ->
          (forall x, In x pre -> _MONEY_RE_search x = false) ->
          _MONEY_RE_search c = true ->
          _best_numeric df = Some c)
    /\ (_all_numeric df <> [] ->
        (forall x, In x (_all_numeric df) -> _MONEY_RE_search x = false) ->
        exists c, _best_numeric df = Some c
                  /\ In c (_all_numeric df)
                  /\ forall x, In x (_all_numeric df) -> abs_sum df x <= abs_sum df c)
    /\ _best_numeric quantity_amount = Some "amount".
Proof.
  intros df. split; [|split; [|split; [|split]]].
  - unfold _best_numeric. destruct (_all_numeric df) as [|x r] eqn:E.
    + tauto.
    + split; [|discriminate]. intros H. exfalso.
      destruct (find _MONEY_RE_search (x :: r)); [discriminate|].
      destruct (max_by_spec (abs_sum df) (x :: r)) as [m [Hm _]]; congruence.
  - intros c. unfold _MONEY_RE_search. rewrite existsb_exists. split.
    + intros [w [Hw Hc]]. apply contains_iff in Hc. destruct Hc as [a [b Hc]].
      exists w, a, b. auto.
    + intros [w [a [b [Hw Hc]]]]. exists w. split; auto.
      apply contains_iff. eauto.
  - intros pre c post E Hpre Hc. unfold _best_numeric. rewrite E.
    rewrite (find_first _ _ _ _ Hpre Hc). now destruct pre.
  - intros Hne Hnone. unfold _best_numeric.
    destruct (_all_numeric df) as [|x r] eqn:E; [congruence|].
    rewrite (find_no_match _ _ Hnone).
    destruct (max_by_spec (abs_sum df) (x :: r)) as [m [Hm [Hin Hmax]]]; [discriminate|].
    exists m. auto.
  - reflexivity.
Qed.

Lemma best_numeric_spec_witness : _best_numeric quantity_paid = Some "paid".
Proof.
  destruct (best_numeric_spec quantity_paid) as (_ & _ & H & _).
  apply (H ["quantity"] "paid" []).
  - reflexivity.
  - intros x [<-|[]]. reflexivity.
  - reflexivity.
Defined.

(** ** Column coercion *)

Lemma Zpos_of_nat : forall n, (n <> 0)%nat -> Z.pos (Pos.of_nat n) = Z.of_nat n.
Proof.
  intros n Hn. rewrite <- positive_nat_Z. now rewrite Nat2Pos.id.
Qed.

Lemma ge_tenth_notna_mean : forall (A : Type) (l : list (option A)),
  ge_tenth (notna_mean l) =
  (1 <=? List.length l)%nat && (List.length l <=? 10 * count_notna l)%nat.
Proof.
  intros A l. destruct l as [|x r]; [reflexivity|].
  change (notna_mean (x :: r))
    with (Some (Z.of_nat (count_notna (x :: r)) # Pos.of_nat (List.length (x :: r)))).
  remember (x :: r) as l eqn:E.
  assert (Hn : List.length l <> 0%nat) by (subst; simpl; lia).
  clear E. unfold ge_tenth.
  replace (1 <=? List.length l)%nat with true by (symmetry; apply Nat.leb_le; lia).
  cbn [andb].
  destruct (List.length l <=? 10 * count_notna l)%nat eqn:L.
  - apply Nat.leb_le in L. apply Qle_bool_iff. unfold Qle. simpl.
    rewrite Zpos_of_nat by assumption. lia.
  - apply Nat.leb_gt in L.
    destruct (Qle_bool (1 # 10) (Z.of_nat (count_notna l) # Pos.of_nat (List.length l))) eqn:Q;
      auto.
    apply Qle_bool_iff in Q. unfold Qle in Q. simpl in Q.
    rewrite Zpos_of_nat in Q by assumption. lia.
Qed.

(** The first test of [coerce_numeric] holds of a bool column, which is
    returned as it is. *)
Lemma coerce_numeric_bool : forall v, coerce_numeric (BoolCol v) = BoolCol v.
Proof. reflexivity. Qed.

(** One of the two cells that are not null parses, half of them, and the
    column of twenty cells is left as text. *)
Lemma coerce_numeric_nonnull_share_counterexample :
  spec_coerces mostly_null = true /\
  coerce_numeric (ObjCol mostly_null) = ObjCol mostly_null.
Proof. split; reflexivity. Qed.

(** C4 (as amended): a numeric or datetime column is returned as it is; a
    text column becomes numeric exactly when it is not empty and at least
    a tenth of all its cells, the null ones counted, parse as numbers once
    every character other than a digit, a dot or a minus is removed; the
    cells that do not parse become null and none is dropped; otherwise the
    column is returned as it is.  One cell in ten that parses coerces the
    column, nine in a hundred leave it as text. *)
Theorem coerce_numeric_spec :
  forall v : list (option string),
    let nums := map to_numeric (map clean_text (astype_str v)) in
    (forall w, coerce_numeric (NumCol w) = NumCol w)
    /\ (forall w, coerce_numeric (TimeCol w) = TimeCol w)
    /\ coerce_numeric (ObjCol v) =
         (if (1 <=? List.length v)%nat && (List.length v <=? 10 * count_notna nums)%nat
          then NumCol nums else ObjCol v)
    /\ List.length nums = List.length v
    /\ (forall i, nth_error nums i
                  = option_map (fun x => to_numeric
                                  (clean_text (match x with Some s => s | None => "nan" end)))
                               (nth_error v i))
    /\ (forall s, clean_text s = string_filter (fun c => is_digit c || Ascii.eqb c "." || Ascii.eqb c "-") s)
    /\ coerce_numeric (ObjCol one_in_ten) = NumCol (Some 7 :: repeat None 9)
    /\ coerce_numeric (ObjCol nine_in_hundred) = ObjCol nine_in_hundred.
Proof.
  intros v nums. split; [reflexivity|]. split; [reflexivity|].
  split; [|split; [|split; [|split; [|split; reflexivity]]]].
  - subst nums. unfold coerce_numeric.
    cbn [is_numeric_dtype is_datetime64_any_dtype is_bool_dtype].
    rewrite ge_tenth_notna_mean. unfold astype_str. rewrite !length_map. reflexivity.
  - unfold nums, astype_str. now rewrite !length_map.
  - intros i. unfold nums, astype_str. rewrite !nth_error_map.
    now destruct (nth_error v i).
  - intros s. unfold clean_text. induction s as [|c s IH]; simpl; auto.
    unfold currency_keep at 1.
    destruct (is_digit c) eqn:D; simpl.
    + destruct (Ascii.eqb c ",") eqn:C; simpl.
      * apply Ascii.eqb_eq in C. subst c. discriminate.
      * now rewrite IH.
    + destruct (Ascii.eqb c ".") eqn:P; simpl.
      * destruct (Ascii.eqb c ",") eqn:C; simpl.
        -- apply Ascii.eqb_eq in C. apply Ascii.eqb_eq in P. congruence.
        -- now rewrite IH.
      * destruct (Ascii.eqb c ",") eqn:C; simpl.
        -- apply Ascii.eqb_eq in C. subst c. simpl. exact IH.
        -- destruct (Ascii.eqb c "-"); simpl; [rewrite C; simpl|]; now rewrite IH.
Qed.

(** ** Text: append, reversal, first and last occurrence *)

Lemma sapp_assoc : forall a b c : string, ((a ++ b) ++ c = a ++ (b ++ c))%string.
Proof. induction a as [|x a IH]; intros; simpl; [reflexivity | now rewrite IH]. Qed.

Lemma sapp_nil_r : forall a : string, (a ++ EmptyString = a)%string.
Proof. induction a as [|x a IH]; simpl; [reflexivity | now rewrite IH]. Qed.

Lemma string_rev_onto_app : forall s acc,
  string_rev_onto acc s = (string_rev s ++ acc)%string.
Proof.
  unfold string_rev. induction s as [|c s IH]; intros acc; simpl.
  - reflexivity.
  - rewrite IH. rewrite (IH (String c EmptyString)). now rewrite sapp_assoc.
Qed.

Lemma string_rev_cons : forall c s,
  string_rev (String c s) = (string_rev s ++ String c EmptyString)%string.
Proof. intros. unfold string_rev at 1. simpl. apply string_rev_onto_app. Qed.

Lemma string_rev_app : forall a b,
  string_rev (a ++ b) = (string_rev b ++ string_rev a)%string.
Proof.
  induction a as [|c a IH]; intros b; simpl.
  - now rewrite sapp_nil_r.
  - now rewrite !string_rev_cons, IH, sapp_assoc.
Qed.

Lemma string_rev_involutive : forall s, string_rev (string_rev s) = s.
Proof.
  induction s as [|c s IH]; [reflexivity|].
  rewrite string_rev_cons, string_rev_app, IH. reflexivity.
Qed.

Lemma strip_closing_fence_app : forall body,
  strip_closing_fence (body ++ FENCE) = body.
Proof.
  intros body. unfold strip_closing_fence, endswith, drop_last.
  rewrite string_rev_app.
  change (string_rev FENCE) with FENCE.
  change (startswith FENCE (FENCE ++ string_rev body)) with true. cbv iota.
  change (drop 3 (FENCE ++ string_rev body)) with (string_rev body).
  apply string_rev_involutive.
Qed.

Lemma after_newline_app : forall pre rest,
  occurs NL pre = false ->
  after_newline (pre ++ String NL rest) = Some rest.
Proof.
  induction pre as [|c pre IH]; intros rest H; simpl in *.
  - reflexivity.
  - apply orb_false_iff in H. destruct H as [Hc Hp].
    assert (E : (code c =? 10)%nat = false).
    { apply Nat.eqb_neq. intros E. apply Ascii.eqb_neq in Hc. apply Hc.
      unfold code in E. rewrite <- (ascii_nat_embedding c), E. reflexivity. }
    rewrite E. now apply IH.
Qed.

Lemma from_first_app : forall c pre rest,
  occurs c pre = false ->
  from_first c (pre ++ String c rest) = Some (String c rest).
Proof.
  induction pre as [|a pre IH]; intros rest H; simpl in *.
  - now rewrite Ascii.eqb_refl.
  - apply orb_false_iff in H. destruct H as [Ha Hp]. rewrite Ha. now apply IH.
Qed.

Lemma from_first_some : forall c s t,
  from_first c s = Some t ->
  exists pre r, s = (pre ++ t)%string /\ t = String c r /\ occurs c pre = false.
Proof.
  induction s as [|a s IH]; intros t H; simpl in H; [discriminate|].
  destruct (Ascii.eqb a c) eqn:E.
  - injection H as <-. apply Ascii.eqb_eq in E. subst a.
    exists EmptyString, s. auto.
  - destruct (IH t H) as [pre [r [-> [-> Hp]]]].
    exists (String a pre), r. simpl. rewrite E, Hp. auto.
Qed.

Lemma upto_last_none : forall c s, occurs c s = false -> upto_last c s = None.
Proof.
  induction s as [|a s IH]; intros H; simpl in *; [reflexivity|].
  apply orb_false_iff in H. destruct H as [Ha Hs]. now rewrite IH, Ha.
Qed.

Lemma upto_last_app : forall c m post,
  occurs c post = false ->
  upto_last c (m ++ String c post) = Some (m ++ String c EmptyString)%string.
Proof.
  induction m as [|a m IH]; intros post H; simpl.
  - now rewrite (upto_last_none c post H), Ascii.eqb_refl.
  - now rewrite IH.
Qed.

Lemma upto_last_some : forall c s p,
  upto_last c s = Some p ->
  exists m post, p = (m ++ String c EmptyString)%string
                 /\ s = (p ++ post)%string /\ occurs c post = false.
Proof.
  induction s as [|a s IH]; intros p H; simpl in H; [discriminate|].
  destruct (upto_last c s) as [q|] eqn:E.
  - injection H as <-. destruct (IH q eq_refl) as [m [post [-> [-> Hp]]]].
    exists (String a m), post. auto.
  - destruct (Ascii.eqb a c) eqn:Ea; [|discriminate].
    injection H as <-. apply Ascii.eqb_eq in Ea. subst a.
    exists EmptyString, s. simpl. split; [reflexivity|]. split; [reflexivity|].
    clear IH. induction s as [|b s IHs]; [reflexivity|].
    simpl in E. simpl.
    destruct (upto_last c s); [discriminate|].
    destruct (Ascii.eqb b c); [discriminate|]. simpl. now apply IHs.
Qed.

(** The match of the greedy pattern: from the first opening brace to the
    last closing brace after it. *)
Lemma search_braces_iff : forall blob span,
  search_braces blob = Some span <->
  exists pre mid post,
    blob = (pre ++ String LBRACE (mid ++ String RBRACE post))%string
    /\ occurs LBRACE pre = false /\ occurs RBRACE post = false
    /\ span = String LBRACE (mid ++ String RBRACE EmptyString)%string.
Proof.
  intros blob span. unfold search_braces. split.
  - intros H. destruct (from_first "{" blob) as [s|] eqn:F; [|discriminate].
    destruct (from_first_some _ _ _ F) as [pre [r [-> [-> Hpre]]]].
    destruct (upto_last_some _ _ _ H) as [m [post [-> [Hs Hpost]]]].
    destruct m as [|a m]; simpl in Hs.
    + injection Hs as Hc _. discriminate.
    + injection Hs as <- ->. exists pre, m, post.
      rewrite sapp_assoc. simpl. auto.
  - intros [pre [mid [post [-> [Hpre [Hpost ->]]]]]].
    unfold LBRACE in *. rewrite (from_first_app _ _ _ Hpre).
    apply (upto_last_app RBRACE (String "{" mid) post Hpost).
Qed.

(** ** The directive in the model's reply *)

Lemma from_first_none : forall c s, occurs c s = false -> from_first c s = None.
Proof.
  induction s as [|a s IH]; intros H; simpl in *; [reflexivity|].
  apply orb_false_iff in H. destruct H as [Ha Hs]. rewrite Ha. now apply IH.
Qed.

Lemma from_first_app_free : forall c a t,
  occurs c t = false ->
  from_first c (a ++ t) = option_map (fun s => (s ++ t)%string) (from_first c a).
Proof.
  intros c a t Ht. induction a as [|x a IH]; simpl.
  - now apply from_first_none.
  - destruct (Ascii.eqb x c); [reflexivity | exact IH].
Qed.

Lemma upto_last_app_free : forall c s t,
  occurs c t = false -> upto_last c (s ++ t) = upto_last c s.
Proof.
  intros c s t Ht. induction s as [|x s IH]; simpl.
  - now apply upto_last_none.
  - now rewrite IH.
Qed.

Lemma search_braces_app_free : forall a t,
  occurs LBRACE t = false -> occurs RBRACE t = false ->
  search_braces (a ++ t) = search_braces a.
Proof.
  intros a t Hl Hr. unfold search_braces. unfold LBRACE, RBRACE in *.
  rewrite (from_first_app_free _ a t Hl).
  destruct (from_first "{" a) as [s|]; simpl; [|reflexivity].
  now apply upto_last_app_free.
Qed.

Lemma endswith_fence_split : forall s,
  endswith FENCE s = true -> s = (drop_last 3 s ++ FENCE)%string.
Proof.
  intros s H. unfold endswith in H. change (string_rev FENCE) with FENCE in H.
  apply startswith_iff in H. destruct H as [b Hb].
  unfold drop_last. rewrite Hb.
  change (drop 3 (FENCE ++ b)) with b.
  rewrite <- (string_rev_involutive s) at 1. rewrite Hb, string_rev_app.
  reflexivity.
Qed.

(** Removing a closing fence does not change the span that is found. *)
Lemma search_braces_strip_closing_fence : forall s,
  search_braces (strip_closing_fence s) = search_braces s.
Proof.
  intros s. unfold strip_closing_fence.
  destruct (endswith FENCE s) eqn:E; [|reflexivity].
  rewrite (endswith_fence_split s E) at 2.
  symmetry. now apply search_braces_app_free.
Qed.

Lemma search_braces_directive_blob : forall text,
  search_braces (directive_blob text) = search_braces (without_fence_line (strip text)).
Proof.
  intros text. unfold directive_blob, without_fence_line, sub_fences.
  destruct (startswith FENCE (strip text)); [|reflexivity].
  destruct (after_newline (strip text)); apply search_braces_strip_closing_fence.
Qed.

Lemma directive_blob_fenced : forall text lang body,
  strip text = (FENCE ++ lang ++ String NL (body ++ FENCE))%string ->
  occurs NL lang = false ->
  directive_blob text = body.
Proof.
  intros text lang body Hs Hl. unfold directive_blob. rewrite Hs.
  change (startswith FENCE (FENCE ++ lang ++ String NL (body ++ FENCE))) with true.
  cbv iota. unfold sub_fences.
  change (after_newline (FENCE ++ lang ++ String NL (body ++ FENCE)))
    with (after_newline (lang ++ String NL (body ++ FENCE))).
  rewrite (after_newline_app lang _ Hl). apply strip_closing_fence_app.
Qed.

(** A reply whose directive is on the line of the opening fence: the
    extractor of the specification, which removes the markers only,
    finds the directive; the code removes the whole line, finds no span
    and answers the reply as plain text, with no chart. *)
Lemma directive_on_fence_line_counterexample :
  spec_directive fence_line_reply = Some pie_directive
  /\ directive_blob fence_line_reply = EmptyString
  /\ search_braces (directive_blob fence_line_reply) = None
  /\ (forall df figs,
        chart_handling (Some df) fence_line_reply figs = (Answer fence_line_reply None, figs))
  /\ spec_directive fenced_reply = Some pie_directive
  /\ spec_strip_markers fenced_reply <> directive_blob fenced_reply.
Proof.
  split; [reflexivity|]. split; [reflexivity|]. split; [reflexivity|].
  split; [|split; [reflexivity | vm_compute; discriminate]].
  intros df figs. unfold chart_handling. cbv zeta.
  change (search_braces (directive_blob fence_line_reply)) with (@None string).
  reflexivity.
Qed.

(** C2 (as amended): the directive extractor.  A reply that, once
    stripped, does not open with a fence is searched as it is.  One that
    opens with a fence loses its whole first line, up to the first line
    feed, and a fence at its very end, so a directive written on the
    fence line is not found.  A closing fence left in place never changes
    the span that is found.  The candidate is the span from the first
    opening brace to the last closing brace.  With no span, with a span
    that is not JSON, or with a document whose action is not plot, the
    reply is answered as plain text, with no chart and no failure.  On
    the reply of the specification nothing is removed, the candidate
    parses to action plot, kind pie and columns Category, Amount, and
    these are what [make_chart] is called with. *)
Theorem directive_extraction :
  (forall text, startswith FENCE (strip text) = false -> directive_blob text = strip text)
  /\ (forall text lang body,
        strip text = (FENCE ++ lang ++ String NL (body ++ FENCE))%string ->
        occurs NL lang = false ->
        directive_blob text = body)
  /\ (forall text line rest,
        strip text = (FENCE ++ line ++ String NL rest)%string ->
        occurs NL line = false ->
        occurs LBRACE rest = false ->
        search_braces (directive_blob text) = None)
  /\ (forall text,
        search_braces (directive_blob text)
        = search_braces (without_fence_line (strip text)))
  /\ (forall blob span,
        search_braces blob = Some span <->
        exists pre mid post,
          blob = (pre ++ String LBRACE (mid ++ String RBRACE post))%string
          /\ occurs LBRACE pre = false /\ occurs RBRACE post = false
          /\ span = String LBRACE (mid ++ String RBRACE EmptyString)%string)
  /\ (forall session_df text figs,
        search_braces (directive_blob text) = None ->
        chart_handling session_df text figs = (Answer text None, figs))
  /\ (forall session_df text figs span,
        search_braces (directive_blob text) = Some span ->
        json_loads span = None ->
        chart_handling session_df text figs = (Answer text None, figs))
  /\ (forall session_df text figs span v,
        search_braces (directive_blob text) = Some span ->
        json_loads span = Some v ->
        (forall spec, v = JObj spec -> dict_get "action" spec <> Some (JStr "plot")) ->
        chart_handling session_df text figs = (Answer text None, figs))
  /\ directive_blob fenced_reply = fenced_reply
  /\ search_braces (directive_blob fenced_reply) = Some pie_directive
  /\ json_loads pie_directive =
       Some (JObj [("action", JStr "plot"); ("kind", JStr "pie");
                   ("columns", JArr [JStr "Category"; JStr "Amount"])])
  /\ (forall df figs,
        chart_handling (Some df) fenced_reply figs =
          match make_chart df "pie" ["Category"; "Amount"] EmptyString figs with
          | (Raise (ValueError _), figs1) => (Answer fenced_reply None, figs1)
          | (Raise KeyError, figs1) => (Fails UncaughtKeyError, figs1)
          | (Raise TypeError, figs1) => (Fails UncaughtTypeError, figs1)
          | (Return p, figs1) => (Answer DEFAULT_TITLE (Some p), figs1)
          end).
Proof.
  split; [|split; [|split; [|split; [|split; [|split; [|split; [|split;
    [|split; [|split; [|split]]]]]]]]]].
  - intros text H. unfold directive_blob. now rewrite H.
  - exact directive_blob_fenced.
  - intros text line rest Hs Hl Hb.
    rewrite search_braces_directive_blob. unfold without_fence_line. rewrite Hs.
    change (startswith FENCE (FENCE ++ line ++ String NL rest)) with true. cbv iota.
    change (after_newline (FENCE ++ line ++ String NL rest))
      with (after_newline (line ++ String NL rest)).
    rewrite (after_newline_app line _ Hl).
    unfold search_braces. unfold LBRACE in Hb. now rewrite (from_first_none _ _ Hb).
  - exact search_braces_directive_blob.
  - exact search_braces_iff.
  - intros session_df text figs H. unfold chart_handling. now rewrite H.
  - intros session_df text figs span H J. unfold chart_handling. now rewrite H, J.
  - intros session_df text figs span v H J A. unfold chart_handling. rewrite H, J.
    destruct v as [| | | |items|spec]; try reflexivity.
    destruct (dict_get "action" spec) as [[| | |action| |]|] eqn:E; try reflexivity.
    destruct (String.eqb action "plot") eqn:P; [|reflexivity].
    apply String.eqb_eq in P. subst action. exfalso. now apply (A spec eq_refl).
  - reflexivity.
  - reflexivity.
  - reflexivity.
  - intros df figs. unfold chart_handling.
    assert (E1 : search_braces (directive_blob fenced_reply) = Some pie_directive)
      by reflexivity.
    assert (E2 : json_loads pie_directive =
                 Some (JObj [("action", JStr "plot"); ("kind", JStr "pie");
                             ("columns", JArr [JStr "Category"; JStr "Amount"])]))
      by reflexivity.
    cbv zeta. rewrite E1. cbv beta iota. rewrite E2. cbv beta iota.
    change (dict_get "action" [("action", JStr "plot"); ("kind", JStr "pie");
                               ("columns", JArr [JStr "Category"; JStr "Amount"])])
      with (Some (JStr "plot")).
    cbv beta iota.
    change (String.eqb "plot" "plot") with true. cbv beta iota.
    change (dict_get "kind" [("action", JStr "plot"); ("kind", JStr "pie");
                             ("columns", JArr [JStr "Category"; JStr "Amount"])])
      with (Some (JStr "pie")).
    cbv beta iota.
    change (columns_arg (dict_get "columns" [("action", JStr "plot"); ("kind", JStr "pie");
                             ("columns", JArr [JStr "Category"; JStr "Amount"])]))
      with (Some ["Category"; "Amount"]).
    cbv beta iota.
    change (kind_arg (JStr "pie")) with "pie".
    change (dict_get "title" [("action", JStr "plot"); ("kind", JStr "pie");
                              ("columns", JArr [JStr "Category"; JStr "Amount"])])
      with (@None json).
    destruct (make_chart df "pie" ["Category"; "Amount"] "" figs) as [[[msg| |]|p] figs1];
      reflexivity.
Qed.

Lemma directive_extraction_witness :
  directive_blob "  Your total is 42.  " = "Your total is 42."
  /\ directive_blob json_fenced_reply = (pie_directive ++ nl)%string
  /\ search_braces (directive_blob fence_line_reply) = None
  /\ chart_handling None "Your total is 42." [] = (Answer "Your total is 42." None, [])
  /\ chart_handling None "{not json}" [] = (Answer "{not json}" None, [])
  /\ chart_handling None error_reply [] = (Answer error_reply None, []).
Proof.
  destruct directive_extraction as (H1 & H2 & H3 & _ & _ & H4 & H5 & H6 & _).
  split; [|split; [|split; [|split; [|split]]]].
  - apply (H1 "  Your total is 42.  "). reflexivity.
  - apply (H2 json_fenced_reply "json" (pie_directive ++ nl)%string); reflexivity.
  - apply (H3 fence_line_reply pie_directive "```"); reflexivity.
  - apply (H4 None "Your total is 42." []). reflexivity.
  - apply (H5 None "{not json}" [] "{not json}"); reflexivity.
  - apply (H6 None error_reply [] (dq "{'action': 'error', 'message': 'no data'}")
              (JObj [("action", JStr "error"); ("message", JStr "no data")])).
    + reflexivity.
    + reflexivity.
    + intros spec E. injection E as <-. vm_compute. discriminate.
Defined.

(** ** Rounding *)

Lemma round_half_even_mono : forall x y,
  x <= y -> (round_half_even x <= round_half_even y)%Z.
Proof.
  intros x y H. unfold round_half_even.
  pose proof (Qfloor_resp_le _ _ H) as Hf.
  destruct (Z.eq_dec (Qfloor x) (Qfloor y)) as [E|N].
  - rewrite <- E.
    destruct (Qcompare_spec (x - inject_Z (Qfloor x)) (1 # 2)) as [Ex|Ex|Ex];
      destruct (Qcompare_spec (y - inject_Z (Qfloor x)) (1 # 2)) as [Ey|Ey|Ey];
      try (destruct (Z.even (Qfloor x)); lia);
      try lia; exfalso; lra.
  - destruct (Qcompare (x - inject_Z (Qfloor x)) (1 # 2));
      destruct (Qcompare (y - inject_Z (Qfloor y)) (1 # 2));
      try destruct (Z.even (Qfloor x)); try destruct (Z.even (Qfloor y)); lia.
Qed.

Lemma round_half_even_int : forall x z, x == inject_Z z -> round_half_even x = z.
Proof.
  intros x z H. unfold round_half_even.
  rewrite (Qfloor_comp _ _ H), Qfloor_Z.
  destruct (Qcompare_spec (x - inject_Z z) (1 # 2)) as [E|E|E];
    [exfalso; lra | reflexivity | exfalso; lra].
Qed.

Lemma round2_mono : forall x y, x <= y -> round2 x <= round2 y.
Proof.
  intros x y H. unfold round2.
  assert (M : (round_half_even (x * 100) <= round_half_even (y * 100))%Z)
    by (apply round_half_even_mono; lra).
  unfold Qle. simpl. lia.
Qed.

Lemma round2_fixed : forall x, round2 (round2 x) = round2 x.
Proof.
  intros x. unfold round2 at 1 3. f_equal.
  apply round_half_even_int. unfold round2, Qeq, inject_Z. simpl. lia.
Qed.

(** ** Sorting and percentiles *)

Lemma insert_sorted_In : forall x y l, In y (insert_sorted x l) <-> y = x \/ In y l.
Proof.
  intros x y l. induction l as [|a l IH]; simpl.
  - intuition auto.
  - destruct (Qle_bool x a); simpl; rewrite ?IH; intuition auto.
Qed.

Lemma sort_Q_In : forall y l, In y (sort_Q l) <-> In y l.
Proof.
  intros y l. induction l as [|a l IH]; simpl; [tauto|].
  rewrite insert_sorted_In, IH. intuition auto.
Qed.

Lemma insert_sorted_length : forall x l,
  List.length (insert_sorted x l) = S (List.length l).
Proof.
  intros x l. induction l as [|a l IH]; simpl; auto.
  destruct (Qle_bool x a); simpl; auto.
Qed.

Lemma sort_Q_length : forall l, List.length (sort_Q l) = List.length l.
Proof.
  induction l as [|a l IH]; simpl; auto.
  now rewrite insert_sorted_length, IH.
Qed.

Lemma insert_sorted_sorted : forall x l,
  StronglySorted Qle l -> StronglySorted Qle (insert_sorted x l).
Proof.
  intros x l H. induction H as [|a l Hs IH Ha]; simpl.
  - repeat constructor.
  - destruct (Qle_bool x a) eqn:E.
    + apply Qle_bool_iff in E. constructor; [now constructor|].
      constructor; auto. eapply Forall_impl; [|exact Ha]. simpl. intros; lra.
    + assert (Hax : a <= x).
      { destruct (Qlt_le_dec x a) as [L|L]; auto.
        assert (Qle_bool x a = true) by (apply Qle_bool_iff; lra). congruence. }
      constructor; auto.
      apply Forall_forall. intros y Hy. apply insert_sorted_In in Hy.
      destruct Hy as [->|Hy]; auto. rewrite Forall_forall in Ha. auto.
Qed.

Lemma sort_Q_sorted : forall l, StronglySorted Qle (sort_Q l).
Proof.
  induction l as [|a l IH]; simpl; [constructor | now apply insert_sorted_sorted].
Qed.

Lemma sorted_nth_le : forall l d i j,
  StronglySorted Qle l -> (i <= j)%nat -> (j < List.length l)%nat ->
  nth i l d <= nth j l d.
Proof.
  intros l d i j H. revert i j.
  induction H as [|a l Hs IH Ha]; intros i j Hij Hj; simpl in Hj; [lia|].
  destruct i as [|i], j as [|j]; simpl; try lra; try lia.
  - rewrite Forall_forall in Ha. apply Ha. apply nth_In. lia.
  - apply IH; lia.
Qed.

Lemma position_bounds : forall n q, 0 <= q -> q <= 1 ->
  0 <= position n q /\ position n q <= inject_Z (Z.of_nat (n - 1)).
Proof.
  intros n q H0 H1. unfold position.
  assert (P : 0 <= inject_Z (Z.of_nat (n - 1))).
  { change 0 with (inject_Z 0). rewrite <- Zle_Qle. lia. }
  split; nra.
Qed.

Lemma floor_position : forall n q, 0 <= q -> q <= 1 ->
  (0 <= Qfloor (position n q) <= Z.of_nat (n - 1))%Z.
Proof.
  intros n q H0 H1. destruct (position_bounds n q H0 H1) as [L U]. split.
  - rewrite <- (Qfloor_Z 0). now apply Qfloor_resp_le.
  - rewrite <- (Qfloor_Z (Z.of_nat (n - 1))). now apply Qfloor_resp_le.
Qed.

(** A percentile lies between the two sorted values around its position. *)
Lemma quantile_between : forall vals q v xs,
  xs = sort_Q (somes vals) ->
  0 <= q -> q <= 1 ->
  quantile vals q = Some v ->
  exists a b,
    a = nth (Z.to_nat (Qfloor (position (List.length xs) q))) xs 0
    /\ (Z.to_nat (Qfloor (position (List.length xs) q)) < List.length xs)%nat
    /\ In a xs /\ (b = a \/ In b xs) /\ a <= b /\ a <= v /\ v <= b
    /\ v == a + (position (List.length xs) q
                 - inject_Z (Qfloor (position (List.length xs) q))) * (b - a)
    /\ ((S (Z.to_nat (Qfloor (position (List.length xs) q))) < List.length xs)%nat ->
        b = nth (S (Z.to_nat (Qfloor (position (List.length xs) q)))) xs 0)
    /\ ((List.length xs <= S (Z.to_nat (Qfloor (position (List.length xs) q))))%nat ->
        b = a).
Proof.
  intros vals q v xs Exs H0 H1 Hq. unfold quantile in Hq. rewrite <- Exs in Hq.
  assert (Sx : StronglySorted Qle xs) by (subst xs; apply sort_Q_sorted).
  clear Exs. destruct xs as [|x0 r]; [discriminate|].
  set (xs := x0 :: r) in *.
  assert (Hn : (0 < List.length xs)%nat) by (simpl; lia).
  fold (position (List.length xs) q) in Hq.
  pose proof (floor_position (List.length xs) q H0 H1) as Hfl.
  pose proof (Qfloor_le (position (List.length xs) q)) as Hf1.
  pose proof (Qlt_floor (position (List.length xs) q)) as Hf2.
  rewrite inject_Z_plus in Hf2.
  set (lo := Z.to_nat (Qfloor (position (List.length xs) q))) in *.
  assert (Hlo : (lo < List.length xs)%nat) by (unfold lo; lia).
  set (a := nth lo xs x0) in *.
  set (b := nth (S lo) xs a) in *.
  assert (Ea : a = nth lo xs 0) by (apply nth_indep; exact Hlo).
  assert (Ia : In a xs) by (apply nth_In; exact Hlo).
  assert (Hb : (b = a \/ In b xs) /\ a <= b
               /\ ((S lo < List.length xs)%nat -> b = nth (S lo) xs 0)
               /\ ((List.length xs <= S lo)%nat -> b = a)).
  { destruct (Nat.lt_ge_cases (S lo) (List.length xs)) as [L|G].
    - split; [right; apply nth_In; exact L|]. split; [|split].
      + unfold b. rewrite (nth_indep xs a x0 L). unfold a.
        apply sorted_nth_le; auto.
      + intros _. apply nth_indep; exact L.
      + intros G. lia.
    - assert (E : b = a) by (apply nth_overflow; exact G).
      split; [now left|]. split; [rewrite E; lra|]. split; [lia | auto]. }
  destruct Hb as [Ib [Hab [Hnth Hover]]].
  change (inject_Z 1) with 1 in Hf2.
  set (frac := position (List.length xs) q
               - inject_Z (Qfloor (position (List.length xs) q))) in *.
  assert (F0 : 0 <= frac) by (unfold frac; lra).
  assert (F1 : 0 <= 1 - frac) by (unfold frac; lra).
  assert (D : 0 <= b - a) by lra.
  pose proof (Qmult_le_0_compat _ _ F0 D) as P0.
  pose proof (Qmult_le_0_compat _ _ F1 D) as P1.
  assert (Ev : a + frac * (b - a) = v) by congruence.
  rewrite <- Ev.
  exists a, b.
  split; [exact Ea|]. split; [exact Hlo|]. split; [exact Ia|].
  split; [exact Ib|]. split; [exact Hab|].
  split; [lra|]. split; [lra|]. split; [apply Qeq_refl|].
  split; [exact Hnth | exact Hover].
Qed.

Lemma position_mono : forall n q1 q2, q1 <= q2 -> position n q1 <= position n q2.
Proof.
  intros n q1 q2 H. unfold position.
  assert (P : 0 <= inject_Z (Z.of_nat (n - 1))).
  { change 0 with (inject_Z 0). rewrite <- Zle_Qle. lia. }
  nra.
Qed.

(** Percentiles grow with the level. *)
Lemma quantile_mono : forall vals q1 q2 v1 v2,
  0 <= q1 -> q1 <= q2 -> q2 <= 1 ->
  quantile vals q1 = Some v1 -> quantile vals q2 = Some v2 ->
  v1 <= v2.
Proof.
  intros vals q1 q2 v1 v2 H0 H12 H1 Q1 Q2.
  assert (H1' : q1 <= 1) by lra. assert (H0' : 0 <= q2) by lra.
  destruct (quantile_between vals q1 v1 _ eq_refl H0 H1' Q1)
    as (a1 & b1 & Ea1 & Hlo1 & _ & _ & Hab1 & Hav1 & Hvb1 & Ev1 & Hn1 & Ho1).
  destruct (quantile_between vals q2 v2 _ eq_refl H0' H1 Q2)
    as (a2 & b2 & Ea2 & Hlo2 & _ & _ & Hab2 & Hav2 & Hvb2 & Ev2 & Hn2 & Ho2).
  set (xs := sort_Q (somes vals)) in *.
  set (n := List.length xs) in *.
  pose proof (position_mono n q1 q2 H12) as Hp.
  pose proof (Qfloor_resp_le _ _ Hp) as Hf.
  pose proof (floor_position n q1 H0 H1') as B1.
  pose proof (floor_position n q2 H0' H1) as B2.
  destruct (Z.eq_dec (Qfloor (position n q1)) (Qfloor (position n q2))) as [E|N].
  - rewrite <- E in *.
    set (lo := Z.to_nat (Qfloor (position n q1))) in *.
    assert (Ea : a2 = a1) by congruence.
    assert (Eb : b2 = b1).
    { destruct (Nat.lt_ge_cases (S lo) n) as [L|G].
      - rewrite (Hn1 L), (Hn2 L). reflexivity.
      - rewrite (Ho1 G), (Ho2 G). exact Ea. }
    rewrite Ea, Eb in Ev2. clear Hn1 Hn2 Ho1 Ho2.
    assert (D : 0 <= b1 - a1) by lra.
    assert (F : 0 <= position n q2 - position n q1) by lra.
    pose proof (Qmult_le_0_compat _ _ F D) as P. lra.
  - set (lo1 := Z.to_nat (Qfloor (position n q1))) in *.
    set (lo2 := Z.to_nat (Qfloor (position n q2))) in *.
    assert (L : (S lo1 <= lo2)%nat) by (unfold lo1, lo2; lia).
    assert (L' : (S lo1 < n)%nat) by lia.
    assert (b1 <= a2).
    { rewrite (Hn1 L'), Ea2. apply sorted_nth_le; auto. apply sort_Q_sorted. }
    lra.
Qed.

Lemma somes_In : forall (A : Type) (x : A) l, In x (somes l) <-> In (Some x) l.
Proof.
  intros A x l. induction l as [|[y|] l IH]; simpl.
  - tauto.
  - rewrite IH. split; intros [H|H]; auto; left; congruence.
  - rewrite IH. split; [auto | intros [H|H]; [discriminate | auto]].
Qed.

(** A percentile of values that lie in a range lies in that range. *)
Lemma quantile_in_range : forall vals q v lo hi,
  0 <= q -> q <= 1 ->
  (forall x, In (Some x) vals -> lo <= x /\ x <= hi) ->
  quantile vals q = Some v ->
  lo <= v /\ v <= hi.
Proof.
  intros vals q v lo hi H0 H1 R HQ.
  destruct (quantile_between vals q v _ eq_refl H0 H1 HQ)
    as (a & b & _ & _ & Ia & Ib & _ & Hav & Hvb & _).
  assert (S : forall x, In x (sort_Q (somes vals)) -> lo <= x /\ x <= hi).
  { intros x Hx. apply (proj1 (sort_Q_In x (somes vals))) in Hx. apply R.
    apply (proj1 (somes_In Q x vals)). exact Hx. }
  destruct (S a Ia) as [La Ua].
  assert (Hb : lo <= b /\ b <= hi) by (destruct Ib as [->|Ib]; auto).
  destruct Hb. split; lra.
Qed.

(** ** Clamping *)

Lemma clip1_between : forall l u x, l <= u ->
  l <= clip1 (Some l) (Some u) x /\ clip1 (Some l) (Some u) x <= u.
Proof.
  intros l u x H. unfold clip1.
  destruct (Qlt_le_dec x l); destruct (Qlt_le_dec u _); split; lra.
Qed.

Lemma clip1_cases : forall lower upper x,
  clip1 lower upper x = x \/ lower = Some (clip1 lower upper x)
  \/ upper = Some (clip1 lower upper x).
Proof.
  intros [l|] [u|] x; unfold clip1;
    repeat match goal with
           | |- context [Qlt_le_dec ?a ?b] => destruct (Qlt_le_dec a b)
           end; auto.
Qed.

Lemma clip1_in_range : forall lower upper x lo hi,
  lo <= x /\ x <= hi ->
  (forall l, lower = Some l -> lo <= l /\ l <= hi) ->
  (forall u, upper = Some u -> lo <= u /\ u <= hi) ->
  lo <= clip1 lower upper x /\ clip1 lower upper x <= hi.
Proof.
  intros lower upper x lo hi Hx Hl Hu.
  destruct (clip1_cases lower upper x) as [E|[E|E]].
  - now rewrite E.
  - now apply Hl.
  - now apply Hu.
Qed.

(** ** The range of a cleaned column *)

Lemma cleaned_values_In : forall s x,
  In (Some x) (cleaned_values s) ->
  exists y, In (Some y) (num_values s)
            /\ x = round2 (clip1 (quantile (num_values s) (1 # 100))
                                 (quantile (num_values s) (99 # 100)) y).
Proof.
  intros s x H. unfold cleaned_values, clip_round in H.
  apply in_map_iff in H. destruct H as [[y|] [E Hy]]; simpl in E; [|discriminate].
  injection E as <-. eauto.
Qed.

Lemma hundredths_levels : 0 <= 1 # 100 /\ 1 # 100 <= 99 # 100 /\ 99 # 100 <= 1.
Proof. repeat split; unfold Qle; simpl; lia. Qed.

Lemma within_after_clean : forall df c s lower upper,
  column df c = Some s -> is_numeric_dtype s = true ->
  quantile (num_values s) (1 # 100) = Some lower ->
  quantile (num_values s) (99 # 100) = Some upper ->
  column_within (round2 lower) (round2 upper) (clean_turn df c) c.
Proof.
  intros df c s lower upper Hc Hn Hl Hu s' x Hs' _ Hx.
  rewrite (clean_turn_numeric _ _ _ Hc Hn), column_take_rows, column_set_same in Hs'.
  simpl in Hs'. injection Hs' as <-. simpl in Hx.
  apply select_In, cleaned_values_In in Hx. destruct Hx as [y [_ ->]].
  rewrite Hl, Hu.
  destruct hundredths_levels as [L0 [L1 L2]].
  assert (Hlu : lower <= upper) by (eapply (quantile_mono _ (1 # 100) (99 # 100)); eauto).
  destruct (clip1_between lower upper y Hlu). split; now apply round2_mono.
Qed.

Lemma within_clean_keeps : forall lo hi df c x,
  round2 lo = lo -> round2 hi = hi ->
  column_within lo hi df x -> column_within lo hi (clean_turn df c) x.
Proof.
  intros lo hi df c x Flo Fhi Hw s' z Hs' Hn' Hz.
  destruct (column df c) as [s|] eqn:Hc;
    [|rewrite clean_turn_skip in Hs' by (intros; congruence); eapply Hw; eauto].
  destruct (is_numeric_dtype s) eqn:Hn;
    [|rewrite clean_turn_skip in Hs' by (intros; congruence); eapply Hw; eauto].
  rewrite (clean_turn_numeric _ _ _ Hc Hn), column_take_rows in Hs'.
  destruct (string_dec x c) as [->|Hne].
  - rewrite column_set_same in Hs'. simpl in Hs'. injection Hs' as <-. simpl in Hz.
    apply select_In, cleaned_values_In in Hz. destruct Hz as [y [Hy ->]].
    destruct hundredths_levels as [L0 [L1 L2]].
    assert (R : forall w, In (Some w) (num_values s) -> lo <= w /\ w <= hi)
      by (intros w Hw'; eapply Hw; eauto).
    assert (C : lo <= clip1 (quantile (num_values s) (1 # 100))
                           (quantile (num_values s) (99 # 100)) y
                /\ clip1 (quantile (num_values s) (1 # 100))
                         (quantile (num_values s) (99 # 100)) y <= hi).
    { apply clip1_in_range; auto.
      - intros l El. eapply (quantile_in_range _ (1 # 100)); eauto; lra.
      - intros u Eu. eapply (quantile_in_range _ (99 # 100)); eauto; lra. }
    destruct C as [C1 C2]. rewrite <- Flo, <- Fhi. split; now apply round2_mono.
  - rewrite column_set_other in Hs' by assumption.
    destruct (column df x) as [sx|] eqn:Ex; simpl in Hs'; [|discriminate].
    injection Hs' as <-. rewrite is_numeric_select in Hn'.
    rewrite num_values_select in Hz. apply select_In in Hz. eapply Hw; eauto.
Qed.

Lemma within_fold_keeps : forall lo hi cols df x,
  round2 lo = lo -> round2 hi = hi ->
  column_within lo hi df x -> column_within lo hi (fold_left clean_turn cols df) x.
Proof.
  intros lo hi cols. induction cols as [|c cols IH]; intros df x Flo Fhi H; simpl; auto.
  apply IH; auto. now apply within_clean_keeps.
Qed.

(** The two values 0 and 1.4 have the percentiles 0.014 and 1.386; the
    cleaned values are 0.01 and 1.39, both outside that range. *)
Lemma clean_chart_data_percentile_counterexample :
  exists p1 p99,
    quantile [Some 0; Some (14 # 10)] (1 # 100) = Some p1
    /\ quantile [Some 0; Some (14 # 10)] (99 # 100) = Some p99
    /\ p1 == 14 # 1000 /\ p99 == 1386 # 1000
    /\ _clean_chart_data two_values ["x"]
       = Ok (mkDF [0; 1]%nat [("x", NumCol [Some (1 # 100); Some (139 # 100)])])
    /\ 1 # 100 < p1 /\ p99 < 139 # 100.
Proof.
  eexists. eexists.
  split; [reflexivity|]. split; [reflexivity|].
  repeat split.
Qed.

(** C7 (as amended): cleaning raises a KeyError exactly when a target
    column is not in the table, and otherwise returns a table or raises
    the TypeError of a bool target column; it returns one whenever the
    target columns are in the table and none is a bool column.  The table
    it returns has no more rows than the input, and every value left in a
    numeric target column lies between the 1st and the 99th percentile,
    each rounded to two decimals, of the values the column held when its
    turn of the loop began. *)
Theorem clean_chart_data_bounds :
  forall (df : DataFrame) (cols : list string),
    (forallb (has_column df) cols = false <-> _clean_chart_data df cols = Raised KeyError)
    /\ (forall e, _clean_chart_data df cols = Raised e -> e = KeyError \/ e = TypeError)
    /\ (forallb (has_column df) cols = true ->
        (forall c, In c cols -> bool_column df c = false) ->
        exists out, _clean_chart_data df cols = Ok out)
    /\ forall out,
         _clean_chart_data df cols = Ok out ->
         (len out <= len df)%nat
         /\ exists df0,
              dropna df cols = Some df0
              /\ forall before c after t s lower upper,
                   cols = before ++ c :: after ->
                   clean_columns df0 before = Ok t ->
                   column t c = Some s ->
                   is_numeric_dtype s = true ->
                   quantile (num_values s) (1 # 100) = Some lower ->
                   quantile (num_values s) (99 # 100) = Some upper ->
                   forall s' x,
                     column out c = Some s' ->
                     In (Some x) (num_values s') ->
                     round2 lower <= x /\ x <= round2 upper.
Proof.
  intros df cols. split; [|split; [|split]].
  - split.
    + intros H. unfold _clean_chart_data, dropna. now rewrite H.
    + intros H. apply clean_chart_data_raised in H.
      destruct H as [[_ H]|[H _]]; [exact H | discriminate].
  - intros e H. apply clean_chart_data_raised in H. tauto.
  - intros F B. rewrite (clean_chart_data_no_bool df cols F B). eauto.
  - intros out H. destruct (clean_chart_data_ok _ _ _ H) as [F Eout].
    assert (D : dropna df cols = Some (take_rows (notna_rows df cols) df))
      by (unfold dropna; now rewrite F).
    split.
    + rewrite Eout. eapply Nat.le_trans; [apply len_fold_clean | apply len_take_rows].
    + eexists. split; [exact D|].
      set (df0 := take_rows (notna_rows df cols) df) in *.
      intros before c after t s lower upper Ecols Ht Hc Hn Hl Hu s' x Hs' Hx.
      apply clean_columns_ok in Ht. subst t.
      rewrite Eout, Ecols, fold_left_app in Hs'. simpl in Hs'.
      pose proof (within_after_clean _ _ _ _ _ Hc Hn Hl Hu) as W.
      pose proof (within_fold_keeps _ _ after _ c
                    (round2_fixed lower) (round2_fixed upper) W) as W'.
      assert (Hn' : is_numeric_dtype s' = true).
      { pose proof (numeric_column_fold after
                      (clean_turn (fold_left clean_turn before df0) c) c) as N.
        rewrite numeric_column_clean in N. unfold numeric_column in N.
        rewrite Hs', Hc in N. congruence. }
      eapply W'; eauto.
Qed.

Lemma clean_chart_data_bounds_witness :
  round2 (14 # 1000) <= 1 # 100 /\ 1 # 100 <= round2 (1386 # 1000).
Proof.
  destruct (clean_chart_data_bounds two_values ["x"]) as (_ & _ & _ & H).
  destruct (H _ eq_refl) as [_ [df0 [D B]]].
  vm_compute in D. injection D as <-.
  destruct (quantile [Some 0; Some (14 # 10)] (1 # 100)) as [p1|] eqn:E1; [|discriminate].
  destruct (quantile [Some 0; Some (14 # 10)] (99 # 100)) as [p99|] eqn:E99; [|discriminate].
  assert (R : round2 p1 <= 1 # 100 /\ 1 # 100 <= round2 p99).
  { apply (B [] "x" [] _ (NumCol [Some 0; Some (14 # 10)]) p1 p99
             eq_refl eq_refl eq_refl eq_refl E1 E99
             (NumCol [Some (1 # 100); Some (139 # 100)]) (1 # 100) eq_refl).
    left. reflexivity. }
  vm_compute in E1. vm_compute in E99.
  injection E1 as <-. injection E99 as <-. exact R.
Defined.

(** ** The order of the cleaning steps *)

Lemma and_masks_nth : forall m n i,
  nth i (and_masks m n) false = nth i m false && nth i n false.
Proof.
  induction m as [|a m IH]; intros n i.
  - simpl. now destruct i.
  - destruct n as [|b n]; simpl.
    + destruct i; simpl; now rewrite andb_false_r.
    + destruct i; simpl; auto.
Qed.

Lemma notna_rows_implies : forall df cols c s,
  In c cols -> column df c = Some s ->
  mask_implies (notna_rows df cols) (map negb (isna s)).
Proof.
  intros df cols c s Hin Hc. unfold notna_rows.
  set (step := fun (m : list bool) (c : string) =>
         match column df c with
         | Some s => and_masks m (map negb (isna s))
         | None => m
         end).
  assert (Down : forall l m, mask_implies (fold_left step l m) m).
  { induction l as [|a l IH]; intros m i H; simpl in *; auto.
    apply IH in H. unfold step in H. destruct (column df a); auto.
    rewrite and_masks_nth in H. apply andb_true_iff in H. tauto. }
  generalize (map (fun _ : nat => true) (index df)) as m0.
  induction cols as [|a cols IH]; intros m0; simpl in *; [contradiction|].
  destruct Hin as [->|Hin].
  - intros i H. apply Down in H. unfold step in H. rewrite Hc in H.
    rewrite and_masks_nth in H. apply andb_true_iff in H. tauto.
  - now apply IH.
Qed.

Lemma select_mask_implies : forall m bs,
  mask_implies m (map negb bs) -> Forall (fun b => b = false) (select m bs).
Proof.
  induction m as [|a m IH]; intros bs H; [constructor|].
  destruct bs as [|b bs]; [constructor|]. simpl.
  assert (T : mask_implies m (map negb bs)) by (intros i Hi; apply (H (S i) Hi)).
  destruct a.
  - constructor; [|now apply IH].
    specialize (H 0%nat eq_refl). simpl in H. now apply negb_true_iff in H.
  - now apply IH.
Qed.

Lemma isna_select : forall m s, isna (series_select m s) = select m (isna s).
Proof. intros m s. destruct s; simpl; symmetry; apply select_map. Qed.

Lemma dropna_no_null : forall df cols df0 c s,
  dropna df cols = Some df0 -> In c cols -> column df0 c = Some s ->
  Forall (fun b => b = false) (isna s).
Proof.
  intros df cols df0 c s D Hin Hc. unfold dropna in D.
  destruct (forallb (has_column df) cols); [|discriminate].
  injection D as <-. rewrite column_take_rows in Hc.
  destruct (column df c) as [s0|] eqn:E; simpl in Hc; [|discriminate].
  injection Hc as <-. rewrite isna_select.
  apply select_mask_implies. eapply notna_rows_implies; eauto.
Qed.

Lemma nth_all_true : forall (A : Type) (l : list A) i,
  nth i (map (fun _ => true) l) false = true <-> (i < List.length l)%nat.
Proof.
  intros A l. induction l as [|x l IH]; intros i; simpl.
  - destruct i; split; intros H; try discriminate; lia.
  - destruct i; [split; auto; lia|]. rewrite IH. lia.
Qed.

Lemma notna_option : forall (A : Type) (v : list (option A)) i,
  nth i (map negb (map is_none v)) false = true <-> exists x, nth_error v i = Some (Some x).
Proof.
  intros A v. induction v as [|a v IH]; intros i; simpl.
  - destruct i; simpl; split; intros H; try discriminate; destruct H; discriminate.
  - destruct i; simpl; [|apply IH].
    destruct a as [x|]; simpl; split; intros H; try discriminate; eauto.
    destruct H as [x H]. discriminate.
Qed.

Lemma notna_has_value : forall s i,
  nth i (map negb (isna s)) false = true <-> has_value s i.
Proof.
  intros s i. destruct s as [v|v|v|v]; simpl; try apply notna_option.
  rewrite map_map. simpl. revert i.
  induction v as [|a v IH]; intros i; simpl.
  - destruct i; simpl; split; intros H; try discriminate; destruct H; discriminate.
  - destruct i; simpl; [split; eauto | apply IH].
Qed.

(** The rows [dropna] keeps: those at which every target column has a
    cell that is not null. *)
Lemma notna_rows_iff : forall df cols i,
  nth i (notna_rows df cols) false = true <->
  (i < len df)%nat
  /\ forall c s, In c cols -> column df c = Some s -> has_value s i.
Proof.
  intros df cols i. unfold notna_rows, len.
  rewrite <- (nth_all_true _ (index df) i).
  generalize (map (fun _ : nat => true) (index df)) as m.
  induction cols as [|a cols IH]; intros m; simpl.
  - split; [intros H; split; [exact H | intros c s []] | tauto].
  - rewrite IH. destruct (column df a) as [sa|] eqn:Ea.
    + rewrite and_masks_nth, andb_true_iff, notna_has_value. split.
      * intros [[Hm Ha] Hr]. split; [exact Hm|].
        intros c s [<-|Hin] Hc; [congruence | eauto].
      * intros [Hm Hr]. split; [split; [exact Hm | eauto] | eauto].
    + split.
      * intros [Hm Hr]. split; [exact Hm|].
        intros c s [<-|Hin] Hc; [congruence | eauto].
      * intros [Hm Hr]. split; eauto.
Qed.

Lemma no_null_option : forall (A : Type) (v : list (option A)),
  Forall (fun b => b = false) (map is_none v) -> ~ In None v.
Proof.
  intros A v H Hin. rewrite Forall_forall in H.
  specialize (H (is_none (@None A)) (in_map is_none v None Hin)). discriminate.
Qed.

Lemma isna_no_null : forall s, Forall (fun b => b = false) (isna s) -> no_null s.
Proof. intros s H. destruct s; simpl in *; auto using no_null_option. Qed.

(** A bool column among the targets: the code takes it as numeric, and
    the percentile that opens its turn raises. *)
Lemma clean_chart_data_bool_column_counterexample :
  column flags_table "Paid" = Some (BoolCol [true; false; true])
  /\ is_numeric_dtype (BoolCol [true; false; true]) = true
  /\ _clean_chart_data flags_table ["Paid"] = Raised TypeError
  /\ forall out, _clean_chart_data flags_table ["Paid"] <> Ok out.
Proof.
  split; [reflexivity|]. split; [reflexivity|]. split; [reflexivity|].
  intros out H. vm_compute in H. discriminate.
Qed.

(** C5 (as amended): the order of the cleaning steps.  The rows with a
    null in a target column go first: a row stays exactly when every
    target column has a value in it, and no null is left in a target
    column.  Then the columns are taken in sequence, each on the table
    the turn before left.  A column of numbers gets its 1st and 99th
    percentiles computed on the rows that are left at that point, its
    values clamped to them and rounded to two decimals, and only then the
    rows dropped whose clamped and rounded value is negative; a bool
    column that has a row makes the percentile, and so the cleaning,
    raise a TypeError; a column that is absent or not numeric is passed
    over.  So a row stays exactly when its value after clamping is not
    negative: in a column of one -5 and a hundred 10s the -5 is clamped
    up to 10 and kept. *)
Theorem clean_chart_data_order :
  forall (df : DataFrame) (cols : list string),
    _clean_chart_data df cols =
      match dropna df cols with
      | Some df0 => clean_columns df0 cols
      | None => Raised KeyError
      end
    /\ (forall df0,
          dropna df cols = Some df0 ->
          df0 = take_rows (notna_rows df cols) df
          /\ (forall i, nth i (notna_rows df cols) false = true <->
                        (i < len df)%nat
                        /\ forall c s, In c cols -> column df c = Some s -> has_value s i)
          /\ (forall c s, In c cols -> column df0 c = Some s -> no_null s))
    /\ (forall t c rest,
          clean_columns t (c :: rest) =
            match clean_column t c with
            | Ok t1 => clean_columns t1 rest
            | Raised e => Raised e
            end)
    /\ (forall t c v,
          column t c = Some (NumCol v) ->
          let lower := quantile v (1 # 100) in
          let upper := quantile v (99 # 100) in
          let clamped := map (option_map (fun x => round2 (clip1 lower upper x))) v in
          let t1 := take_rows (map ge0 clamped) (set_column t c (NumCol clamped)) in
          clean_column t c = Ok t1
          /\ column t1 c = Some (NumCol (filter ge0 clamped))
          /\ index t1 = select (map ge0 clamped) (index t)
          /\ forall i x,
               nth_error v i = Some (Some x) ->
               nth_error (map ge0 clamped) i
               = Some (Qle_bool 0 (round2 (clip1 lower upper x))))
    /\ (forall t c b v,
          column t c = Some (BoolCol (b :: v)) -> clean_column t c = Raised TypeError)
    /\ (forall t c, numeric_column t c = false -> clean_column t c = Ok t)
    /\ (forall l u x, l <= u ->
          (x < l -> clip1 (Some l) (Some u) x = l)
          /\ (u < x -> clip1 (Some l) (Some u) x = u)
          /\ (l <= x -> x <= u -> clip1 (Some l) (Some u) x = x))
    /\ _clean_chart_data outlier_table ["Amount"]
       = Ok (mkDF (seq 0 101) [("Amount", NumCol (repeat (Some (1000 # 100)) 101))])
    /\ _clean_chart_data gaps_table ["Category"; "Amount"]
       = Ok (mkDF [0; 3]%nat
               [("Category", ObjCol [Some "rent"; Some "food"]);
                ("Amount", NumCol [Some (1020 # 100); Some (2980 # 100)])]).
Proof.
  intros df cols.
  split; [|split; [|split; [|split; [|split; [|split; [|split; [|split]]]]]]].
  - reflexivity.
  - intros df0 D. split; [|split].
    + unfold dropna in D. destruct (forallb (has_column df) cols); congruence.
    + intros i. apply notna_rows_iff.
    + intros c s Hin Hc. apply isna_no_null. eapply dropna_no_null; eauto.
  - reflexivity.
  - intros t c v Hc lower upper clamped t1.
    assert (E : clean_turn t c = t1)
      by (apply (clean_turn_numeric t c (NumCol v) Hc eq_refl)).
    split; [|split; [|split]].
    + rewrite clean_column_cases, Hc. now rewrite E.
    + unfold t1. rewrite column_take_rows, column_set_same. simpl.
      now rewrite select_by_test.
    + reflexivity.
    + intros i x Hi. rewrite nth_error_map. unfold clamped. rewrite nth_error_map, Hi.
      reflexivity.
  - intros t c b v Hc. rewrite clean_column_cases. now rewrite Hc.
  - intros t c H. unfold clean_column. unfold numeric_column in H.
    destruct (column t c) as [s|]; [|reflexivity]. now rewrite H.
  - intros l u x Hlu. unfold clip1. split; [|split].
    + intros H. destruct (Qlt_le_dec x l); [|exfalso; lra].
      destruct (Qlt_le_dec u l); [exfalso; lra | reflexivity].
    + intros H. destruct (Qlt_le_dec x l); [exfalso; lra|].
      destruct (Qlt_le_dec u x); [reflexivity | exfalso; lra].
    + intros H1 H2. destruct (Qlt_le_dec x l); [exfalso; lra|].
      destruct (Qlt_le_dec u x); [exfalso; lra | reflexivity].
  - vm_compute. reflexivity.
  - vm_compute. reflexivity.
Qed.

(** The table with one -5 among a hundred 10s keeps all its rows, and
    the table with two null cells loses the two rows that hold them. *)
Lemma clean_chart_data_order_witness :
  clean_column outlier_table "Amount"
  = Ok (mkDF (seq 0 101) [("Amount", NumCol (repeat (Some (1000 # 100)) 101))])
  /\ index (take_rows (notna_rows gaps_table ["Category"; "Amount"]) gaps_table)
     = [0; 3]%nat
  /\ no_null (ObjCol [Some "rent"; Some "food"]).
Proof.
  destruct (clean_chart_data_order outlier_table ["Amount"]) as (_ & _ & _ & H & _).
  destruct (H outlier_table "Amount" (Some (-5) :: repeat (Some 10) 100) eq_refl)
    as (E & _).
  destruct (clean_chart_data_order gaps_table ["Category"; "Amount"]) as (_ & G & _).
  destruct (G (take_rows (notna_rows gaps_table ["Category"; "Amount"]) gaps_table)
              eq_refl) as (_ & _ & N).
  split; [|split].
  - rewrite E. vm_compute. reflexivity.
  - reflexivity.
  - apply (N "Category"); [now left | reflexivity].
Defined.

(* ================================================================== *)
(** * Further properties of the code *)
(* ================================================================== *)

(** ** Coercion and uploads *)

Lemma coerce_numeric_twice : forall col,
  coerce_numeric (coerce_numeric col) = coerce_numeric col.
Proof.
  intros col. destruct col as [v|v|v|v]; try reflexivity.
  unfold coerce_numeric.
  cbn [is_numeric_dtype is_datetime64_any_dtype is_bool_dtype].
  destruct (ge_tenth (notna_mean (map to_numeric (map clean_text (astype_str v))))) eqn:E.
  - reflexivity.
  - cbn [is_numeric_dtype is_datetime64_any_dtype is_bool_dtype]. now rewrite E.
Qed.

Lemma coerce_numeric_text : forall v,
  coerce_numeric (ObjCol v) =
  if (1 <=? List.length v)%nat
     && (List.length v <=?
         10 * count_notna (map to_numeric (map clean_text (astype_str v))))%nat
  then NumCol (map to_numeric (map clean_text (astype_str v)))
  else ObjCol v.
Proof.
  intros v. unfold coerce_numeric.
  cbn [is_numeric_dtype is_datetime64_any_dtype is_bool_dtype].
  rewrite ge_tenth_notna_mean. unfold astype_str. rewrite !length_map. reflexivity.
Qed.

(** X1: coercing twice is coercing once; coercion keeps the number of
    cells; and the result is a text column only when the column came in
    as text and is returned as it is. *)
Theorem coerce_numeric_idempotent :
  forall col : Series,
    coerce_numeric (coerce_numeric col) = coerce_numeric col
    /\ series_len (coerce_numeric col) = series_len col
    /\ (is_object_dtype (coerce_numeric col) = true -> coerce_numeric col = col).
Proof.
  intros col. split; [apply coerce_numeric_twice|].
  destruct col as [v|v|v|v]; try (split; reflexivity).
  unfold coerce_numeric.
  cbn [is_numeric_dtype is_datetime64_any_dtype is_bool_dtype].
  destruct (ge_tenth (notna_mean (map to_numeric (map clean_text (astype_str v))))) eqn:E.
  - split; [|discriminate].
    simpl. unfold astype_str. now rewrite !length_map.
  - split; reflexivity.
Qed.

Lemma lookup_In : forall (A : Type) c (l : list (string * A)) x,
  lookup c l = Some x -> In (c, x) l.
Proof.
  intros A c l x. induction l as [|[n y] l IH]; simpl; [discriminate|].
  destruct (String.eqb c n) eqn:E.
  - intros H. injection H as <-. apply String.eqb_eq in E. subst. now left.
  - intros H. right. now apply IH.
Qed.

(** X2: a table read from anything but a CSV file holds only columns that
    coercion leaves alone: a text column in it is empty or has fewer than
    a tenth of its cells that parse as numbers; the row labels and the
    column names are those the reader gave. *)
Theorem read_excel_any_coerced :
  forall (read_csv : string -> option string -> CsvRead)
         (read_excel : string -> option Engine -> option DataFrame)
         (data filename : string) (df : DataFrame),
    lower (splitext_ext filename) <> ".csv" ->
    read_excel_any read_csv read_excel data filename = Parsed df ->
    (forall c s, column df c = Some s -> coerce_numeric s = s)
    /\ (forall c v, column df c = Some (ObjCol v) ->
          v = [] \/
          (10 * count_notna (map to_numeric (map clean_text (astype_str v)))
           < List.length v)%nat)
    /\ exists raw,
         read_excel data (engine_hint (lower (splitext_ext filename))) = Some raw
         /\ index df = index raw
         /\ map fst (columns df) = map fst (columns raw).
Proof.
  intros read_csv read_excel data filename df Hext H.
  unfold read_excel_any in H. apply String.eqb_neq in Hext. rewrite Hext in H.
  destruct (read_excel data (engine_hint (lower (splitext_ext filename)))) as [raw|];
    [|discriminate].
  injection H as <-.
  assert (F : forall c s, column (apply_coerce_numeric raw) c = Some s ->
                          coerce_numeric s = s).
  { intros c s Hc. unfold column, apply_coerce_numeric in Hc. simpl in Hc.
    rewrite lookup_map_snd in Hc.
    destruct (lookup c (columns raw)) as [s0|]; simpl in Hc; [|discriminate].
    injection Hc as <-. apply coerce_numeric_twice. }
  split; [exact F|]. split.
  - intros c v Hc. specialize (F c _ Hc). rewrite coerce_numeric_text in F.
    destruct ((1 <=? List.length v)%nat &&
              (List.length v <=?
               10 * count_notna (map to_numeric (map clean_text (astype_str v))))%nat)
      eqn:L; [discriminate|].
    apply andb_false_iff in L. destruct L as [L|L].
    + left. apply Nat.leb_gt in L. destruct v; [reflexivity | simpl in L; lia].
    + right. now apply Nat.leb_gt in L.
  - exists raw. split; [reflexivity|]. split; [reflexivity|].
    unfold apply_coerce_numeric. simpl. rewrite map_map. reflexivity.
Qed.

Lemma read_excel_any_coerced_witness :
  column (mkDF [0; 1]%nat [("Price", NumCol [Some (1200 # 1); None]);
                           ("Note", ObjCol (repeat (Some "n/a") 11))]) "Price"
  = Some (NumCol [Some (1200 # 1); None])
  /\ coerce_numeric (NumCol [Some (1200 # 1); None]) = NumCol [Some (1200 # 1); None].
Proof.
  split; [reflexivity|].
  apply (read_excel_any_coerced no_csv sheet_reader "" "Book.XLSX"
           (mkDF [0; 1]%nat [("Price", NumCol [Some (1200 # 1); None]);
                             ("Note", ObjCol (repeat (Some "n/a") 11))]))
    with (c := "Price").
  - vm_compute. discriminate.
  - vm_compute. reflexivity.
  - reflexivity.
Defined.

(** ** The system prompt and the retries *)

Lemma contains_self : forall s, contains s s = true.
Proof.
  intros s. apply contains_iff. exists EmptyString, EmptyString.
  simpl. now rewrite sapp_nil_r.
Qed.

(** X3: [_with_system_prompt] returns a list whose first message contains
    the system prompt; it returns either the messages as they are or the
    messages after one system message; applied to its own result it
    changes nothing. *)
Theorem with_system_prompt_once :
  forall (SYSTEM_PROMPT : string) (messages : list Message),
    let prepared := _with_system_prompt SYSTEM_PROMPT messages in
    (exists m rest, prepared = m :: rest
                    /\ contains SYSTEM_PROMPT (get_content m) = true)
    /\ (prepared = messages \/ prepared = system_message SYSTEM_PROMPT :: messages)
    /\ _with_system_prompt SYSTEM_PROMPT prepared = prepared.
Proof.
  intros P messages prepared. unfold prepared, _with_system_prompt.
  destruct messages as [|m rest].
  - split; [|split].
    + exists (system_message P), []. split; [reflexivity|]. apply contains_self.
    + now right.
    + change (get_content (system_message P)) with P. now rewrite contains_self.
  - destruct (contains P (get_content m)) eqn:E; simpl.
    + split; [|split].
      * exists m, rest. auto.
      * now left.
      * now rewrite E.
    + split; [|split].
      * exists (system_message P), (m :: rest). split; [reflexivity|]. apply contains_self.
      * now right.
      * change (get_content (system_message P)) with P. now rewrite contains_self.
Qed.

Lemma attempts_all_fail : forall create prepared remaining attempt slept,
  (forall j, (attempt <= j < attempt + remaining)%nat -> create prepared j = OpenAIError) ->
  attempts create prepared attempt remaining slept
  = (RuntimeError, slept ++ map (fun j => 2 ^ j)%nat (seq attempt remaining)).
Proof.
  intros create prepared remaining.
  induction remaining as [|r IH]; intros attempt slept H; simpl.
  - now rewrite app_nil_r.
  - rewrite (H attempt) by lia. rewrite IH by (intros j Hj; apply H; lia).
    now rewrite <- app_assoc.
Qed.

Lemma attempts_first_success : forall create prepared text k remaining attempt slept,
  (k < remaining)%nat ->
  (forall j, (attempt <= j < attempt + k)%nat -> create prepared j = OpenAIError) ->
  create prepared (attempt + k)%nat = Completion text ->
  attempts create prepared attempt remaining slept
  = (Reply text, slept ++ map (fun j => 2 ^ j)%nat (seq attempt k)).
Proof.
  intros create prepared text k.
  induction k as [|k IH]; intros remaining attempt slept Hk Hf Hs.
  - destruct remaining as [|r]; [lia|]. simpl. rewrite Nat.add_0_r in Hs.
    rewrite Hs. now rewrite app_nil_r.
  - destruct remaining as [|r]; [lia|]. simpl.
    rewrite (Hf attempt) by lia.
    rewrite (IH r (S attempt)); [now rewrite <- app_assoc | lia | |].
    + intros j Hj. apply Hf. lia.
    + now replace (S attempt + k)%nat with (attempt + S k)%nat by lia.
Qed.

Lemma attempts_slept : forall create prepared remaining attempt slept out slept',
  attempts create prepared attempt remaining slept = (out, slept') ->
  exists k, (k <= remaining)%nat
            /\ slept' = slept ++ map (fun j => 2 ^ j)%nat (seq attempt k)
            /\ (out = RuntimeError -> k = remaining).
Proof.
  intros create prepared remaining.
  induction remaining as [|r IH]; intros attempt slept out slept' H; simpl in H.
  - injection H as <- <-. exists 0%nat. simpl. rewrite app_nil_r. auto.
  - destruct (create prepared attempt) as [text| |].
    + injection H as <- <-. exists 0%nat. simpl. rewrite app_nil_r.
      split; [lia|]. split; [reflexivity | discriminate].
    + apply IH in H. destruct H as [k [Hk [-> Hr]]].
      exists (S k). split; [lia|]. split.
      * simpl. now rewrite <- app_assoc.
      * intros E. now rewrite (Hr E).
    + injection H as <- <-. exists 0%nat. simpl. rewrite app_nil_r.
      split; [lia|]. split; [reflexivity | discriminate].
Qed.

(** X4: the retries of [call_openai].  When the first [k] calls fail with
    an API error and the next one, among the four allowed, answers, the
    answer is returned after sleeps of 1, 2, ... seconds, [k] of them;
    when four calls fail it gives up with a RuntimeError after sleeping 1,
    2, 4 and 8 seconds, the last sleep coming after the last call; it
    never sleeps more than four times, always for the first powers of
    two, and gives up only after the four of them. *)
Theorem call_openai_retries :
  forall (SYSTEM_PROMPT : string) (create : list Message -> nat -> ApiReply)
         (messages : list Message),
    let prepared := _with_system_prompt SYSTEM_PROMPT messages in
    (forall k text,
       (k < 4)%nat ->
       (forall j, (j < k)%nat -> create prepared j = OpenAIError) ->
       create prepared k = Completion text ->
       call_openai SYSTEM_PROMPT create messages
       = (Reply text, map (fun j => 2 ^ j)%nat (seq 0 k)))
    /\ ((forall j, (j < 4)%nat -> create prepared j = OpenAIError) ->
        call_openai SYSTEM_PROMPT create messages = (RuntimeError, [1; 2; 4; 8]%nat))
    /\ (exists k, (k <= 4)%nat
                  /\ snd (call_openai SYSTEM_PROMPT create messages)
                     = map (fun j => 2 ^ j)%nat (seq 0 k)
                  /\ (fst (call_openai SYSTEM_PROMPT create messages) = RuntimeError ->
                      k = 4%nat)).
Proof.
  intros P create messages prepared. unfold call_openai. fold prepared.
  split; [|split].
  - intros k text Hk Hf Hs.
    apply (attempts_first_success create prepared text k 4 0 []); auto.
    intros j Hj. apply Hf. lia.
  - intros Hf.
    rewrite (attempts_all_fail create prepared 4 0 []); [reflexivity|].
    intros j Hj. apply Hf. lia.
  - destruct (attempts create prepared 0 4 []) as [out slept] eqn:E.
    apply attempts_slept in E. destruct E as [k [Hk [-> Hr]]].
    exists k. simpl. auto.
Qed.

Lemma call_openai_retries_witness :
  call_openai "You are Abacus." third_time_lucky [mkMessage "user" (Some "hi")]
  = (Reply "hello", [1; 2]%nat)
  /\ call_openai "You are Abacus." always_failing [mkMessage "user" (Some "hi")]
     = (RuntimeError, [1; 2; 4; 8]%nat).
Proof.
  destruct (call_openai_retries "You are Abacus." third_time_lucky
              [mkMessage "user" (Some "hi")]) as [H1 _].
  destruct (call_openai_retries "You are Abacus." always_failing
              [mkMessage "user" (Some "hi")]) as [_ [H2 _]].
  split.
  - apply (H1 2%nat "hello").
    + lia.
    + intros j Hj. destruct j as [|[|j]]; [reflexivity | reflexivity | lia].
    + reflexivity.
  - apply H2. intros j Hj. reflexivity.
Defined.

(** ** The split of the requested columns *)

(** X5: [_split_cols] sorts the requested columns that are in the table
    into the text ones and the numeric ones, each in the order of the
    request; a name that is not a column is in neither, no name is in
    both, and together they are as many as the requested columns that
    are in the table. *)
Theorem split_cols_partition :
  forall (df : DataFrame) (cols : list string),
    fst (_split_cols df cols) = filter (categorical_column df) cols
    /\ snd (_split_cols df cols) = filter (numeric_column df) cols
    /\ (forall c, In c (fst (_split_cols df cols)) <->
                  In c cols /\ has_column df c = true /\ numeric_column df c = false)
    /\ (forall c, In c (snd (_split_cols df cols)) <->
                  In c cols /\ has_column df c = true /\ numeric_column df c = true)
    /\ (forall c, ~ (In c (fst (_split_cols df cols)) /\ In c (snd (_split_cols df cols))))
    /\ (List.length (fst (_split_cols df cols)) + List.length (snd (_split_cols df cols))
        = List.length (filter (has_column df) cols))%nat.
Proof.
  intros df cols. rewrite split_cols_filters. simpl.
  assert (N : forall c, numeric_column df c = true -> has_column df c = true).
  { intros c. unfold numeric_column, has_column. now destruct (column df c). }
  split; [reflexivity|]. split; [reflexivity|].
  split; [|split; [|split]].
  - intros c. rewrite filter_In. unfold categorical_column.
    rewrite andb_true_iff, negb_true_iff. tauto.
  - intros c. rewrite filter_In. split; [|tauto]. intros [H1 H2]. auto.
  - intros c [H1 H2]. apply filter_In in H1. apply filter_In in H2.
    unfold categorical_column in H1. destruct H1 as [_ H1], H2 as [_ H2].
    rewrite H2 in H1. rewrite andb_false_r in H1. discriminate.
  - induction cols as [|c cols IH]; simpl; [reflexivity|].
    unfold categorical_column at 1.
    destruct (numeric_column df c) eqn:E.
    + rewrite (N c E). simpl. lia.
    + destruct (has_column df c); simpl; lia.
Qed.

(** ** Sampling bounds *)

Lemma gather_in_range : forall (A : Type) (d : A) ps (l : list A),
  Forall (fun p => (p < List.length l)%nat) ps ->
  gather ps l = Some (map (fun p => nth p l d) ps).
Proof.
  intros A d ps l H. induction H as [|p ps Hp _ IH]; simpl; [reflexivity|].
  rewrite IH. destruct (nth_error l p) as [x|] eqn:E.
  - now rewrite (nth_error_nth _ _ d E).
  - apply nth_error_None in E. lia.
Qed.

Lemma series_gather_in_range : forall ps s,
  Forall (fun p => (p < series_len s)%nat) ps ->
  exists s', series_gather ps s = Some s'
             /\ series_len s' = List.length ps.
Proof.
  intros ps s H. destruct s as [v|v|v|v]; simpl in *.
  - rewrite (gather_in_range _ None ps v H). eexists. split; [reflexivity|].
    simpl. now rewrite length_map.
  - rewrite (gather_in_range _ false ps v H). eexists. split; [reflexivity|].
    simpl. now rewrite length_map.
  - rewrite (gather_in_range _ None ps v H). eexists. split; [reflexivity|].
    simpl. now rewrite length_map.
  - rewrite (gather_in_range _ None ps v H). eexists. split; [reflexivity|].
    simpl. now rewrite length_map.
Qed.

Lemma columns_gather_in_range : forall ps n (l : list (string * Series)),
  Forall (fun nc => series_len (snd nc) = n) l ->
  Forall (fun p => (p < n)%nat) ps ->
  exists l', columns_gather ps l = Some l'
             /\ map fst l' = map fst l
             /\ Forall (fun nc => series_len (snd nc) = List.length ps) l'.
Proof.
  intros ps n l Hl Hp. induction Hl as [|[c s] l Hs _ IH]; simpl.
  - exists []. repeat split; constructor.
  - simpl in Hs. subst n.
    destruct (series_gather_in_range ps s Hp) as [s' [E Hs']].
    destruct IH as [l' [E' [Hn Hf]]]. rewrite E, E'.
    exists ((c, s') :: l'). simpl. rewrite Hn.
    split; [reflexivity|]. split; [reflexivity|]. constructor; auto.
Qed.

(** X6: [sample_df] hands the table back, and leaves the generator as it
    is, exactly when the table has no more rows than the larger of the
    two bounds; a longer table is sampled from the state that seed 42
    installs, and the number of rows asked for is the larger of the two
    bounds, whatever the length of the table. *)
Theorem sample_df_bounds :
  forall (RNG : Type) (random_seed : Z -> RNG)
         (random_sample : RNG -> nat -> Z -> option (list nat) * RNG)
         (cfg : Settings) (df : DataFrame) (g : RNG),
    sample_df RNG random_seed random_sample cfg df g =
      if (Z.of_nat (len df) <=? Z.max (SAMPLE_MIN_ROWS cfg) (SAMPLE_MAX_ROWS cfg))%Z
      then (Some df, g)
      else
        match random_sample (random_seed 42%Z) (len df)
                (Z.max (SAMPLE_MIN_ROWS cfg) (SAMPLE_MAX_ROWS cfg)) with
        | (Some ps, g2) => (iloc df ps, g2)
        | (None, g2) => (None, g2)
        end.
Proof.
  intros RNG random_seed random_sample cfg df g. unfold sample_df.
  set (n := Z.of_nat (len df)). set (a := SAMPLE_MIN_ROWS cfg). set (b := SAMPLE_MAX_ROWS cfg).
  destruct (n <=? Z.max a b)%Z eqn:E.
  - apply Z.leb_le in E.
    assert (L : (n <=? Z.max a (Z.min b n))%Z = true) by (apply Z.leb_le; lia).
    now rewrite L.
  - apply Z.leb_gt in E.
    assert (L : (n <=? Z.max a (Z.min b n))%Z = false) by (apply Z.leb_gt; lia).
    rewrite L. replace (Z.max a (Z.min b n)) with (Z.max a b) by lia. reflexivity.
Qed.

(** X7: when a table whose columns all have one cell per row is sampled
    and the generator gives as many positions as asked, all of them rows
    of the table, the result is a table with that many rows: its row
    labels are those at the positions drawn, in the order drawn, its
    columns have the names of the table's, in order, and each has one
    cell per row. *)
Theorem sample_df_rows :
  forall (RNG : Type) (random_seed : Z -> RNG)
         (random_sample : RNG -> nat -> Z -> option (list nat) * RNG)
         (cfg : Settings) (df : DataFrame) (g g2 : RNG) (ps : list nat),
    well_formed df ->
    (Z.max (SAMPLE_MIN_ROWS cfg) (SAMPLE_MAX_ROWS cfg) < Z.of_nat (len df))%Z ->
    random_sample (random_seed 42%Z) (len df)
      (Z.max (SAMPLE_MIN_ROWS cfg) (SAMPLE_MAX_ROWS cfg)) = (Some ps, g2) ->
    good_sample (len df) (Z.max (SAMPLE_MIN_ROWS cfg) (SAMPLE_MAX_ROWS cfg)) ps ->
    exists out,
      sample_df RNG random_seed random_sample cfg df g = (Some out, g2)
      /\ Z.of_nat (len out) = Z.max (SAMPLE_MIN_ROWS cfg) (SAMPLE_MAX_ROWS cfg)
      /\ index out = map (fun p => nth p (index df) 0%nat) ps
      /\ map fst (columns out) = map fst (columns df)
      /\ well_formed out.
Proof.
  intros RNG random_seed random_sample cfg df g g2 ps Hwf Hlen Hs [Hk Hr].
  unfold sample_df.
  set (n := Z.of_nat (len df)) in *.
  set (a := SAMPLE_MIN_ROWS cfg) in *. set (b := SAMPLE_MAX_ROWS cfg) in *.
  assert (L : (n <=? Z.max a (Z.min b n))%Z = false) by (apply Z.leb_gt; lia).
  rewrite L. replace (Z.max a (Z.min b n)) with (Z.max a b) by lia. rewrite Hs.
  unfold iloc.
  rewrite (gather_in_range _ 0%nat ps (index df) Hr).
  destruct (columns_gather_in_range ps (len df) (columns df) Hwf Hr) as [l' [E [Hn Hf]]].
  rewrite E. eexists. split; [reflexivity|].
  unfold len. simpl. rewrite length_map. repeat split; auto.
  unfold well_formed, len. simpl. now rewrite length_map.
Qed.

Lemma sample_df_rows_witness :
  exists out,
    sample_df unit (fun _ => tt) first_positions settings thousand_rows tt = (Some out, tt)
    /\ Z.of_nat (len out) = 400%Z.
Proof.
  destruct (sample_df_rows unit (fun _ => tt) first_positions settings thousand_rows
              tt tt (seq 0 400)) as [out [E [L _]]].
  - unfold well_formed. repeat constructor.
  - vm_compute. reflexivity.
  - reflexivity.
  - split; [reflexivity|]. apply Forall_forall. intros p Hp. apply in_seq in Hp.
    change (len thousand_rows) with 1000%nat. lia.
  - exists out. split; [exact E | exact L].
Defined.

(** ** What cleaning leaves alone, and what it leaves behind *)

Lemma select_nil : forall (A : Type) m, select m (@nil A) = [].
Proof. intros A m. now destruct m. Qed.

Lemma select_select : forall (A : Type) m1 m2 (l : list A),
  select m2 (select m1 l) = select (compose_masks m1 m2) l.
Proof.
  intros A m1. induction m1 as [|b m1 IH]; intros m2 l; simpl.
  - apply select_nil.
  - destruct l as [|x l]; [destruct b; [destruct m2|]; simpl; apply select_nil || reflexivity|].
    destruct b.
    + destruct m2 as [|b2 m2]; simpl; [reflexivity|].
      destruct b2; now rewrite IH.
    + simpl. apply IH.
Qed.

Lemma series_select_select : forall m1 m2 s,
  series_select m2 (series_select m1 s) = series_select (compose_masks m1 m2) s.
Proof. intros m1 m2 s. destruct s; simpl; now rewrite select_select. Qed.

Lemma select_all_true : forall (A : Type) n (l : list A),
  (List.length l <= n)%nat -> select (repeat true n) l = l.
Proof.
  intros A n. induction n as [|n IH]; intros l H.
  - destruct l; [reflexivity | simpl in H; lia].
  - destruct l as [|x l]; [reflexivity|]. simpl. rewrite IH; [reflexivity | simpl in H; lia].
Qed.

Lemma series_select_all_true : forall n s,
  (series_len s <= n)%nat -> series_select (repeat true n) s = s.
Proof. intros n s H. destruct s; simpl in *; now rewrite select_all_true. Qed.

Lemma list_max_ge : forall l n, In n l -> (n <= list_max l)%nat.
Proof.
  intros l n H.
  assert (F : Forall (fun k => (k <= list_max l)%nat) l) by (apply list_max_le; reflexivity).
  rewrite Forall_forall in F. auto.
Qed.

Lemma longest_index : forall df, (List.length (index df) <= longest df)%nat.
Proof. intros df. unfold longest. apply list_max_ge. now left. Qed.

Lemma longest_column : forall df c s,
  column df c = Some s -> (series_len s <= longest df)%nat.
Proof.
  intros df c s H. unfold longest. apply list_max_ge. right.
  apply lookup_In in H.
  change (series_len s) with ((fun nc : string * Series => series_len (snd nc)) (c, s)).
  now apply in_map.
Qed.

(** One turn of the loop, as a selection of rows: the row labels and
    every column other than a numeric column being cleaned. *)
Lemma clean_turn_selects : forall df c,
  exists m,
    index (clean_turn df c) = select m (index df)
    /\ forall x, x <> c \/ numeric_column df x = false ->
                 column (clean_turn df c) x = option_map (series_select m) (column df x).
Proof.
  intros df c.
  assert (Id : exists m, index df = select m (index df)
                         /\ forall x, column df x = option_map (series_select m) (column df x)).
  { exists (repeat true (longest df)). split.
    - symmetry. apply select_all_true, longest_index.
    - intros x. destruct (column df x) as [s|] eqn:E; [|reflexivity]. simpl.
      now rewrite series_select_all_true by (eapply longest_column; eauto). }
  destruct (column df c) as [s|] eqn:Hc.
  - destruct (is_numeric_dtype s) eqn:Hn.
    + rewrite (clean_turn_numeric _ _ _ Hc Hn).
      exists (map ge0 (cleaned_values s)). split; [reflexivity|].
      intros x Hx. rewrite column_take_rows.
      destruct (string_dec x c) as [->|Hne].
      * destruct Hx as [Hx|Hx]; [congruence|].
        unfold numeric_column in Hx. rewrite Hc in Hx. congruence.
      * now rewrite column_set_other.
    + rewrite clean_turn_skip by (intros; congruence).
      destruct Id as [m [H1 H2]]. exists m. auto.
  - rewrite clean_turn_skip by (intros; congruence).
    destruct Id as [m [H1 H2]]. exists m. auto.
Qed.

Lemma fold_clean_selects : forall cols df,
  exists m,
    index (fold_left clean_turn cols df) = select m (index df)
    /\ forall x, ~ In x cols \/ numeric_column df x = false ->
                 column (fold_left clean_turn cols df) x
                 = option_map (series_select m) (column df x).
Proof.
  induction cols as [|c cols IH]; intros df; simpl.
  - exists (repeat true (longest df)). split.
    + symmetry. apply select_all_true, longest_index.
    + intros x _. destruct (column df x) as [s|] eqn:E; [|reflexivity]. simpl.
      now rewrite series_select_all_true by (eapply longest_column; eauto).
  - destruct (clean_turn_selects df c) as [m1 [I1 C1]].
    destruct (IH (clean_turn df c)) as [m2 [I2 C2]].
    exists (compose_masks m1 m2). split.
    + now rewrite I2, I1, select_select.
    + intros x Hx. rewrite C2, C1.
      * destruct (column df x); simpl; [now rewrite series_select_select | reflexivity].
      * destruct Hx as [Hx|Hx]; [left; intros ->; apply Hx; now left | now right].
      * rewrite numeric_column_clean.
        destruct Hx as [Hx|Hx]; [left; intros H; apply Hx; now right | now right].
Qed.

(** X8: cleaning only drops rows from what it does not clean.  There is
    one selection of rows that gives the row labels of the result and
    every column that is not a target or is not numeric, cell for cell;
    and the result has the columns the table has. *)
Theorem clean_chart_data_other_columns :
  forall (df out : DataFrame) (cols : list string),
    _clean_chart_data df cols = Ok out ->
    (exists mask,
       index out = select mask (index df)
       /\ forall x, ~ In x cols \/ numeric_column df x = false ->
                    column out x = option_map (series_select mask) (column df x))
    /\ (forall x, has_column out x = has_column df x)
    /\ (forall x, numeric_column out x = numeric_column df x).
Proof.
  intros df out cols H. apply clean_chart_data_ok in H. destruct H as [_ ->].
  split; [|split].
  - destruct (fold_clean_selects cols (take_rows (notna_rows df cols) df)) as [m [I C]].
    exists (compose_masks (notna_rows df cols) m). split.
    + rewrite I. simpl. apply select_select.
    + intros x Hx. rewrite C by (rewrite numeric_column_take_rows; exact Hx).
      rewrite column_take_rows.
      destruct (column df x); simpl; [now rewrite series_select_select | reflexivity].
  - intros x. now rewrite has_column_fold, has_column_take_rows.
  - intros x. now rewrite numeric_column_fold, numeric_column_take_rows.
Qed.

(** Cleaning the amounts of a table whose third amount is null: the
    rows 0, 1 and 3 are left, and the categories, which are not cleaned,
    are those of these rows, the null one among them. *)
Lemma clean_chart_data_other_columns_witness :
  exists mask,
    [0; 1; 3]%nat = select mask [0; 1; 2; 3]%nat
    /\ Some (ObjCol [Some "rent"; None; Some "food"])
       = option_map (series_select mask)
           (Some (ObjCol [Some "rent"; None; Some "fuel"; Some "food"])).
Proof.
  destruct (clean_chart_data_other_columns gaps_table
              (mkDF [0; 1; 3]%nat
                 [("Category", ObjCol [Some "rent"; None; Some "food"]);
                  ("Amount", NumCol [Some (1020 # 100); Some (2000 # 100);
                                     Some (2980 # 100)])])
              ["Amount"] eq_refl) as [[mask [I C]] _].
  exists mask. split; [exact I|].
  apply (C "Category"). left. intros [H|[]]. discriminate.
Defined.

Lemma tidy_clean_self : forall df c, tidy_column (clean_turn df c) c.
Proof.
  intros df c s' Hs' Hn'.
  destruct (column df c) as [s|] eqn:Hc;
    [|rewrite clean_turn_skip in Hs' by (intros; congruence); congruence].
  destruct (is_numeric_dtype s) eqn:Hn;
    [|rewrite clean_turn_skip in Hs' by (intros; congruence); congruence].
  rewrite (clean_turn_numeric _ _ _ Hc Hn), column_take_rows, column_set_same in Hs'.
  simpl in Hs'. injection Hs' as <-. eexists. split; [reflexivity|].
  rewrite select_by_test. apply Forall_forall. intros cell Hin.
  apply filter_In in Hin. destruct Hin as [Hin Hge].
  destruct cell as [x|]; [|discriminate].
  apply cleaned_values_In in Hin. destruct Hin as [y [_ ->]].
  unfold round2 in *. eexists. split; [reflexivity|].
  simpl in Hge. apply Qle_bool_iff in Hge. unfold Qle in Hge. simpl in Hge. lia.
Qed.

Lemma tidy_clean_keeps : forall df c x,
  tidy_column df x -> tidy_column (clean_turn df c) x.
Proof.
  intros df c x Hx.
  destruct (string_dec x c) as [->|Hne]; [apply tidy_clean_self|].
  intros s' Hs' Hn'.
  destruct (clean_turn_selects df c) as [m [_ C]].
  rewrite C in Hs' by (now left).
  destruct (column df x) as [sx|] eqn:Ex; simpl in Hs'; [|discriminate].
  injection Hs' as <-. rewrite is_numeric_select in Hn'.
  destruct (Hx sx Ex Hn') as [v [-> Hv]].
  eexists. split; [reflexivity|]. now apply select_Forall.
Qed.

Lemma tidy_fold : forall cols df c,
  In c cols -> tidy_column (fold_left clean_turn cols df) c.
Proof.
  assert (K : forall cols df x,
    tidy_column df x -> tidy_column (fold_left clean_turn cols df) x).
  { induction cols as [|a cols IH]; intros df x H; simpl; auto.
    apply IH. now apply tidy_clean_keeps. }
  induction cols as [|a cols IH]; intros df c Hin; simpl in *; [contradiction|].
  destruct Hin as [->|Hin]; [apply K, tidy_clean_self | now apply IH].
Qed.

(** X9: what cleaning leaves in a numeric target column: a float column
    in which every cell is a number, none null, not negative and with
    two decimals. *)
Theorem clean_chart_data_tidy :
  forall (df out : DataFrame) (cols : list string) (c : string) (s : Series),
    _clean_chart_data df cols = Ok out ->
    In c cols ->
    column out c = Some s ->
    is_numeric_dtype s = true ->
    exists v, s = NumCol v
              /\ Forall (fun cell => exists z : Z, cell = Some (z # 100) /\ (0 <= z)%Z) v.
Proof.
  intros df out cols c s H Hin Hc Hn. apply clean_chart_data_ok in H.
  destruct H as [_ ->]. exact (tidy_fold cols _ c Hin s Hc Hn).
Qed.

Lemma clean_chart_data_tidy_witness :
  exists v, NumCol [Some (1 # 100); Some (139 # 100)] = NumCol v
            /\ Forall (fun cell => exists z : Z, cell = Some (z # 100) /\ (0 <= z)%Z) v.
Proof.
  apply (clean_chart_data_tidy two_values
           (mkDF [0; 1]%nat [("x", NumCol [Some (1 # 100); Some (139 # 100)])])
           ["x"] "x").
  - reflexivity.
  - now left.
  - reflexivity.
  - reflexivity.
Defined.

(** ** The branches of [make_chart] *)

Lemma requested_present_after_cleaning : forall df columns df1 c,
  _clean_chart_data df (filter (has_column df) columns) = Ok df1 ->
  In c (filter (has_column df) columns) ->
  has_column df1 c = true.
Proof.
  intros df columns df1 c H Hin.
  destruct (cleaned_columns _ _ _ H) as (Hh & _). rewrite Hh.
  apply filter_In in Hin. tauto.
Qed.

(** X10: a bar or line request that names a column of the table and
    leaves three rows or more after cleaning gets an image, the figure
    closed, unless there is nothing to draw: when the first requested
    column that is not numeric holds dates, no requested column is
    numeric and the table has no column of numbers, the plotting call
    raises a TypeError and the figure is left open.  In the image the
    kind drawn is the kind asked for or bar, and the title is the kind
    with a capital, a dash and the requested columns that are in the
    table.  The hint plays no part in a bar or line chart. *)
Theorem make_chart_bar_line :
  forall (df : DataFrame) (kind : string) (columns : list string)
         (prompt : string) (figs : Figures),
    kind = "bar" \/ kind = "line" ->
    make_chart df kind columns prompt figs = make_chart df kind columns EmptyString figs
    /\ (filter (has_column df) columns <> [] ->
        (3 <= rows_after_cleaning df columns)%nat ->
        if nothing_to_draw df kind columns then
          make_chart df kind columns prompt figs
          = (Raise TypeError, figs ++ [S (list_max figs)])
        else
          exists drawn data,
            make_chart df kind columns prompt figs =
              (Return (Base64Png
                 (mkChart drawn data
                    (title kind ++ " – " ++ join ", " (filter (has_column df) columns)))),
               figs)
            /\ (drawn = kind \/ drawn = "bar")).
Proof.
  intros df kind columns prompt figs Hk.
  assert (Ek : (String.eqb kind "bar" || String.eqb kind "line") = true).
  { destruct Hk as [->| ->]; reflexivity. }
  split.
  - unfold make_chart.
    destruct (filter (has_column df) columns) as [|c1 cols']; [reflexivity|].
    destruct (_clean_chart_data df (c1 :: cols')) as [df1|e]; [|reflexivity].
    destruct (len df1 <? 3)%nat; [reflexivity|].
    unfold subplots. destruct (_split_cols df1 (c1 :: cols')) as [cats nums].
    now rewrite Ek.
  - intros Hc Hr.
    destruct (enough_rows_cleaned df columns Hr) as [_ [df1 [E Hlen]]].
    pose proof (bar_line_cleaned df kind columns df1 E Ek) as BL. cbv zeta in BL.
    unfold make_chart. rewrite E.
    destruct (filter (has_column df) columns) as [|c1 cols'] eqn:Ecols; [congruence|].
    rewrite Hlen. unfold subplots.
    destruct (_split_cols df1 (c1 :: cols')) as [cats nums]. cbn [fst snd] in BL.
    rewrite Ek.
    destruct (nothing_to_draw df kind columns).
    + now rewrite BL.
    + destruct BL as [drawn [data [nums1 [-> K]]]].
      exists drawn, data. rewrite plt_close_fresh. split; [reflexivity | exact K].
Qed.

(** A line chart of the amounts by category is drawn; a line chart of a
    table of dates and notes raises, with figure 1 left open. *)
Lemma make_chart_bar_line_witness :
  (exists drawn data,
     make_chart spend_table "line" ["Category"; "Amount"] "" [] =
       (Return (Base64Png (mkChart drawn data "Line – Category, Amount")), [])
     /\ (drawn = "line" \/ drawn = "bar"))
  /\ make_chart dated_table "line" ["Date"] "" [] = (Raise TypeError, [1%nat]).
Proof.
  split.
  - apply (make_chart_bar_line spend_table "line" ["Category"; "Amount"] "" []).
    + now right.
    + vm_compute. discriminate.
    + vm_compute. lia.
  - apply (make_chart_bar_line dated_table "line" ["Date"] "" []).
    + now right.
    + vm_compute. discriminate.
    + vm_compute. lia.
Defined.

Lemma split_cols_nonempty : forall df c cols,
  has_column df c = true ->
  fst (_split_cols df (c :: cols)) <> [] \/ snd (_split_cols df (c :: cols)) <> [].
Proof.
  intros df c cols H. rewrite split_cols_filters. simpl.
  unfold categorical_column at 1. rewrite H. simpl.
  destruct (numeric_column df c); simpl; [right | left]; discriminate.
Qed.

Lemma pie_series_found : forall df cats nums,
  cats <> [] \/ nums <> [] ->
  exists series, fst (pie_series df cats nums) = Some series.
Proof.
  intros df cats nums H. unfold pie_series.
  destruct cats as [|c0 cats].
  - destruct nums as [|n0 nums]; [destruct H; congruence|]. simpl. eauto.
  - destruct nums as [|n0 nums]; simpl.
    + destruct (truthy (_best_numeric df)); eauto.
    + eauto.
Qed.

(** X11: the pie branch always has a series to plot.  Once a requested
    column is in the table, cleaning returns and three rows are left, the
    return of the branch that finds neither a text nor a numeric column
    is never taken: the request ends with the not-enough-data document,
    the figure left open, exactly when fewer than three slices are left,
    and with an image of the slices, the figure closed, otherwise. *)
Theorem make_chart_pie_outcomes :
  forall (df : DataFrame) (columns : list string) (prompt : string) (figs : Figures),
    (pie_series_of df columns = None <->
       filter (has_column df) columns = []
       \/ cleaning_raises df columns = true
       \/ (rows_after_cleaning df columns < 3)%nat)
    /\ forall series nums1,
         pie_series_of df columns = Some (series, nums1) ->
         make_chart df "pie" columns prompt figs =
           if (List.length (pie_signs prompt series) <? 3)%nat
           then (Return NOT_ENOUGH_DATA, figs ++ [S (list_max figs)])
           else (Return (Base64Png
                           (mkChart "pie" [("", pie_signs prompt series)]
                              (title "pie" ++ " – "
                               ++ join ", " (filter (has_column df) columns)))),
                 figs).
Proof.
  intros df columns prompt figs.
  destruct (cleaning_raises_cases df columns) as [[K [E R]]|[K [df1 [E R]]]].
  - rewrite K, R. unfold pie_series_of, make_chart. cbv zeta.
    destruct (filter (has_column df) columns) as [|c1 cols'] eqn:Ecols.
    + split; [split; auto | intros ? ? H; discriminate].
    + rewrite ?Ecols in E. rewrite !E.
      split; [split; auto | intros ? ? H; discriminate].
  - rewrite K, R. unfold pie_series_of, make_chart. cbv zeta.
    pose proof (fun c => requested_present_after_cleaning df columns df1 c E) as P.
    destruct (filter (has_column df) columns) as [|c1 cols'] eqn:Ecols.
    + split; [split; auto | intros ? ? H; discriminate].
    + specialize (P c1 (or_introl eq_refl)). rewrite ?Ecols in E. rewrite !E. clear E.
      destruct (len df1 <? 3)%nat eqn:Hr.
      * apply Nat.ltb_lt in Hr. split; [split; auto | intros ? ? H; discriminate].
      * apply Nat.ltb_ge in Hr.
        destruct (pie_series_found df1 _ _ (split_cols_nonempty df1 c1 cols' P))
          as [series Hs].
        unfold subplots.
        destruct (_split_cols df1 (c1 :: cols')) as [cats nums].
        change (fst (cats, nums)) with cats in *. change (snd (cats, nums)) with nums in *.
        change (String.eqb "pie" "bar" || String.eqb "pie" "line") with false.
        change (String.eqb "pie" "pie") with true. cbv iota.
        destruct (pie_series df1 cats nums) as [[s|] n1];
          cbn [fst] in Hs; [|discriminate].
        split.
        -- split; [discriminate|]. intros [H|[H|H]]; [discriminate | discriminate | lia].
        -- intros series' nums1 H. injection H as <- <-.
           destruct (List.length (pie_signs prompt s) <? 3)%nat; [reflexivity|].
           now rewrite plt_close_fresh.
Qed.

Lemma make_chart_pie_outcomes_witness :
  make_chart outflow_table "pie" ["Category"] "show my spending" [] =
    (Return (Base64Png
               (mkChart "pie"
                  [("", [(KStr "food", 30); (KStr "fuel", 20); (KStr "rent", 50)])]
                  "Pie – Category")),
     []).
Proof.
  destruct (make_chart_pie_outcomes outflow_table ["Category"] "show my spending" [])
    as [_ H].
  rewrite (H outflow_sums ["Amount"]).
  - reflexivity.
  - reflexivity.
Defined.

Lemma insert_by_count_sorted : forall kx g,
  StronglySorted (fun a b : Key * Q => snd b <= snd a) g ->
  StronglySorted (fun a b : Key * Q => snd b <= snd a) (insert_by_count kx g).
Proof.
  intros kx g H. induction H as [|ky r Hr IH Hall]; simpl.
  - repeat constructor.
  - destruct (Qle_bool (snd ky) (snd kx)) eqn:E.
    + apply Qle_bool_iff in E. constructor; [now constructor|].
      constructor; [exact E|].
      eapply Forall_impl; [|exact Hall]. simpl. intros z Hz. lra.
    + constructor; [exact IH|].
      assert (L : snd kx <= snd ky).
      { destruct (Qlt_le_dec (snd ky) (snd kx)) as [H|H]; [|exact H].
        exfalso. assert (T : Qle_bool (snd ky) (snd kx) = true)
          by (apply Qle_bool_iff; lra). congruence. }
      apply Forall_forall. intros z Hz.
      apply (Permutation_in _ (insert_by_count_perm kx r)) in Hz.
      destruct Hz as [<-|Hz]; [exact L|].
      rewrite Forall_forall in Hall. now apply Hall.
Qed.

Lemma sort_by_count_sorted : forall g,
  StronglySorted (fun a b : Key * Q => snd b <= snd a) (sort_by_count g).
Proof.
  induction g as [|kx r IH]; simpl; [constructor | now apply insert_by_count_sorted].
Qed.

(** X12: the fall-back of the bar and line branch.  When the requested
    columns that are in the table are all text, the first of them is not
    a datetime column, and the table has no numeric column at all, a bar
    chart of the value counts of that first column is drawn, also when a
    line chart was asked for; the rows counted are those with no null in
    a requested column, and the values come with the most frequent
    first. *)
Theorem make_chart_counts_fallback :
  forall (df : DataFrame) (kind : string) (columns : list string)
         (prompt : string) (figs : Figures) (c0 : string) (rest : list string),
    kind = "bar" \/ kind = "line" ->
    filter (has_column df) columns = c0 :: rest ->
    (forall c, In c (c0 :: rest) -> numeric_column df c = false) ->
    is_datetime_column df c0 = false ->
    _all_numeric df = [] ->
    (3 <= rows_after_cleaning df columns)%nat ->
    let counted := take_rows (notna_rows df (c0 :: rest)) df in
    make_chart df kind columns prompt figs =
      (Return (Base64Png
         (mkChart "bar"
            [(c0, column_value_counts counted c0)]
            (title kind ++ " – " ++ join ", " (c0 :: rest)))),
       figs)
    /\ Permutation (column_value_counts counted c0) (column_count_values counted c0)
    /\ StronglySorted (fun a b : Key * Q => snd b <= snd a)
         (column_value_counts counted c0).
Proof.
  intros df kind columns prompt figs c0 rest Hk Hc Hcat Hdt Hnum Hr counted.
  split; [|split].
  2:{ unfold column_value_counts, column_count_values.
      destruct (column counted c0); [apply sort_by_count_perm | reflexivity]. }
  2:{ unfold column_value_counts.
      destruct (column counted c0); [apply sort_by_count_sorted | constructor]. }
  assert (Ek : (String.eqb kind "bar" || String.eqb kind "line") = true).
  { destruct Hk as [->| ->]; reflexivity. }
  assert (Hp : forall c, In c (c0 :: rest) -> has_column df c = true).
  { intros c Hin. rewrite <- Hc in Hin. apply filter_In in Hin. tauto. }
  destruct (enough_rows_cleaned df columns Hr) as [_ [df1 [E Hlen]]].
  rewrite Hc in E.
  destruct (cleaned_columns _ _ _ E) as (_ & _ & _ & _ & _ & Hsame).
  specialize (Hsame Hcat). fold counted in Hsame. subst df1.
  unfold make_chart. rewrite Hc, E, Hlen.
  unfold subplots. rewrite split_cols_filters.
  assert (Ecat : filter (categorical_column counted) (c0 :: rest) = c0 :: rest).
  { apply filter_all. intros c Hin. unfold categorical_column, counted.
    rewrite has_column_take_rows, numeric_column_take_rows, (Hp c Hin), (Hcat c Hin).
    reflexivity. }
  assert (Enum : filter (numeric_column counted) (c0 :: rest) = []).
  { apply filter_none. intros c Hin. unfold counted.
    rewrite numeric_column_take_rows. now apply Hcat. }
  rewrite Ecat, Enum, Ek. unfold bar_line.
  unfold counted at 1. rewrite is_datetime_take_rows, Hdt.
  unfold _best_numeric. unfold counted at 1. rewrite all_numeric_take_rows, Hnum.
  simpl truthy. cbv iota. rewrite plt_close_fresh. reflexivity.
Qed.

(** A line chart asked of two text columns: the row with a null payee
    is left out, and rent, counted twice, comes before food, which comes
    first in the table. *)
Lemma make_chart_counts_fallback_witness :
  make_chart labels_table "line" ["Category"; "Payee"] "" [] =
    (Return (Base64Png
       (mkChart "bar"
          [("Category", [(KStr "rent", 2); (KStr "food", 1)])]
          "Line – Category, Payee")),
     []).
Proof.
  apply (make_chart_counts_fallback labels_table "line" ["Category"; "Payee"] "" []
           "Category" ["Payee"]).
  - now right.
  - reflexivity.
  - intros c [<-|[<-|[]]]; reflexivity.
  - reflexivity.
  - reflexivity.
  - vm_compute. lia.
Defined.

(** ** A plot directive in the reply *)

Lemma make_chart_no_key_error : forall df kind columns prompt figs,
  fst (make_chart df kind columns prompt figs) <> Raise KeyError.
Proof.
  intros df kind columns prompt figs H.
  destruct (make_chart_raises_cases df kind columns prompt figs _ H) as [E|[msg E]];
    discriminate.
Qed.

(** X13: a reply that holds a directive with action plot, a kind that is
    a text and columns that can be read.  In a session without a table
    [chat] raises the error 400.  In a session with a table, when
    [make_chart] raises the ValueError of an invalid request the reply is
    answered as it is, with no chart; when it raises a TypeError, which
    the handler does not catch, [chat] fails; it never raises a KeyError.
    When it returns, its text goes out as [chart_base64] under the title
    of the directive, or the default one when there is none, and that
    also holds of the not-enough-data document, which is what the chart
    field carries when fewer than three rows are left; but a title that
    is not a text makes the response, and so [chat], fail.  So [chat]
    fails exactly on a TypeError of [make_chart] and on a title that is
    not a text over a chart that was made. *)
Theorem chart_handling_plot_directive :
  forall (df : DataFrame) (text span : string) (spec : list (string * json))
         (kind : string) (columns : list string) (figs : Figures),
    search_braces (directive_blob text) = Some span ->
    json_loads span = Some (JObj spec) ->
    dict_get "action" spec = Some (JStr "plot") ->
    dict_get "kind" spec = Some (JStr kind) ->
    columns_arg (dict_get "columns" spec) = Some columns ->
    let shown := match dict_get "title" spec with
                 | Some t => t
                 | None => JStr DEFAULT_TITLE
                 end in
    let made := make_chart df kind columns EmptyString figs in
    (forall msg, fst made = Raise (ValueError msg) ->
       chart_handling (Some df) text figs = (Answer text None, snd made))
    /\ (fst made = Raise TypeError ->
          chart_handling (Some df) text figs = (Fails UncaughtTypeError, snd made))
    /\ fst made <> Raise KeyError
    /\ (forall p title,
          fst made = Return p -> shown = JStr title ->
          chart_handling (Some df) text figs = (Answer title (Some p), snd made))
    /\ (forall p,
          fst made = Return p -> (forall title, shown <> JStr title) ->
          chart_handling (Some df) text figs = (Fails ValidationError, snd made))
    /\ ((exists e, fst (chart_handling (Some df) text figs) = Fails e) <->
          fst made = Raise TypeError
          \/ ((exists p, fst made = Return p) /\ forall title, shown <> JStr title))
    /\ (forall title,
          filter (has_column df) columns <> [] ->
          cleaning_raises df columns = false ->
          (rows_after_cleaning df columns < 3)%nat ->
          shown = JStr title ->
          chart_handling (Some df) text figs = (Answer title (Some NOT_ENOUGH_DATA), figs))
    /\ chart_handling None text figs = (Fails HTTPException400, figs).
Proof.
  intros df text span spec kind columns figs Hs Hj Ha Hk Hc shown made.
  assert (E : chart_handling (Some df) text figs =
              match made with
              | (Raise (ValueError _), figs1) => (Answer text None, figs1)
              | (Raise KeyError, figs1) => (Fails UncaughtKeyError, figs1)
              | (Raise TypeError, figs1) => (Fails UncaughtTypeError, figs1)
              | (Return p, figs1) => (chat_response shown (Some p), figs1)
              end).
  { unfold chart_handling, made. cbv zeta. rewrite Hs, Hj, Ha.
    change (String.eqb "plot" "plot") with true. cbv iota. rewrite Hk, Hc.
    change (kind_arg (JStr kind)) with kind.
    destruct (make_chart df kind columns "" figs) as [[[msg| |]|p] figs1]; try reflexivity.
    unfold shown. now destruct (dict_get "title" spec). }
  pose proof (make_chart_no_key_error df kind columns EmptyString figs) as NK.
  fold made in NK.
  assert (Text : forall p title, shown = JStr title ->
                   chat_response shown p = Answer title p)
    by (intros p title ->; reflexivity).
  assert (NoText : forall p, (forall title, shown <> JStr title) ->
                     chat_response shown p = Fails ValidationError).
  { intros p H. destruct shown; try reflexivity. exfalso. now apply (H s). }
  split; [|split; [|split; [|split; [|split; [|split; [|split]]]]]].
  - intros msg H. rewrite E. destruct made as [r f]. simpl in *. now subst r.
  - intros H. rewrite E. destruct made as [r f]. simpl in *. now subst r.
  - exact NK.
  - intros p title H T. rewrite E. destruct made as [r f]. simpl in *. subst r.
    now rewrite (Text _ _ T).
  - intros p H T. rewrite E. destruct made as [r f]. simpl in *. subst r.
    now rewrite (NoText _ T).
  - rewrite E. destruct made as [[[msg| |]|p] f]; simpl in *.
    + split; [intros [e H]; discriminate|].
      intros [H|[[p H] _]]; discriminate.
    + congruence.
    + split; [auto | intros _; eexists; reflexivity].
    + split.
      * intros [e H]. right. split; [eauto|]. intros title T.
        rewrite (Text _ _ T) in H. discriminate.
      * intros [H|[_ T]]; [discriminate|]. rewrite (NoText _ T). eauto.
  - intros title Hne Hk' Hlt T. rewrite E. unfold made.
    rewrite (make_chart_few_rows _ kind _ EmptyString figs Hne Hk' Hlt).
    now rewrite (Text _ _ T).
  - unfold chart_handling. cbv zeta. rewrite Hs, Hj, Ha. reflexivity.
Qed.

(** A bar chart asked of a table of two rows under a title is answered
    with the title and the not-enough-data document as its chart. *)
Lemma chart_handling_plot_directive_witness :
  chart_handling (Some two_rows)
    (dq "{'action':'plot','kind':'bar','columns':['Amount'],'title':'Totals'}") []
  = (Answer "Totals" (Some NOT_ENOUGH_DATA), []).
Proof.
  destruct (chart_handling_plot_directive two_rows
           (dq "{'action':'plot','kind':'bar','columns':['Amount'],'title':'Totals'}")
           (dq "{'action':'plot','kind':'bar','columns':['Amount'],'title':'Totals'}")
           [("action", JStr "plot"); ("kind", JStr "bar");
            ("columns", JArr [JStr "Amount"]); ("title", JStr "Totals")]
           "bar" ["Amount"] [] eq_refl eq_refl eq_refl eq_refl eq_refl)
    as (_ & _ & _ & _ & _ & _ & H & _).
  apply (H "Totals").
  - vm_compute. discriminate.
  - reflexivity.
  - vm_compute. lia.
  - reflexivity.
Defined.

(** ** The price route *)

Lemma string_forallb_app : forall f a b,
  string_forallb f (a ++ b) = string_forallb f a && string_forallb f b.
Proof.
  intros f a b. induction a as [|c a IH]; simpl; [reflexivity|].
  now rewrite IH, andb_assoc.
Qed.

Lemma string_forallb_rev : forall f s,
  string_forallb f (string_rev s) = string_forallb f s.
Proof.
  intros f s. induction s as [|c s IH]; [reflexivity|].
  rewrite string_rev_cons, string_forallb_app, IH. simpl.
  rewrite andb_true_r. apply andb_comm.
Qed.

Lemma string_forallb_lstrip : forall f s,
  string_forallb f s = true -> string_forallb f (lstrip s) = true.
Proof.
  intros f s. induction s as [|c s IH]; simpl; [auto|].
  intros H. destruct (is_space c); [|exact H].
  apply andb_true_iff in H. now apply IH.
Qed.

Lemma string_forallb_strip : forall f s,
  string_forallb f s = true -> string_forallb f (strip s) = true.
Proof.
  intros f s H. unfold strip, rstrip.
  rewrite string_forallb_rev. apply string_forallb_lstrip.
  rewrite string_forallb_rev. now apply string_forallb_lstrip.
Qed.

Lemma upper_ascii_not_lower : forall c, is_lower (upper_ascii c) = false.
Proof.
  intros c. unfold upper_ascii. destruct (is_lower c) eqn:E; [|exact E].
  unfold is_lower, in_range, code in *.
  apply andb_true_iff in E. destruct E as [E1 E2].
  apply Nat.leb_le in E1. apply Nat.leb_le in E2.
  rewrite nat_ascii_embedding by lia.
  apply andb_false_iff. left. apply Nat.leb_gt. lia.
Qed.

Lemma no_lower_upper : forall s, no_lower (upper s) = true.
Proof.
  intros s. unfold no_lower. induction s as [|c s IH]; simpl; [reflexivity|].
  now rewrite upper_ascii_not_lower, IH.
Qed.

(** A text with no lower-case letter contains no word that has one. *)
Lemma no_lower_contains : forall w s,
  no_lower w = false -> no_lower s = true -> contains w s = false.
Proof.
  intros w s Hw Hs. destruct (contains w s) eqn:E; [|reflexivity].
  apply contains_iff in E. destruct E as [a [b ->]].
  unfold no_lower in *. rewrite !string_forallb_app in Hs.
  apply andb_true_iff in Hs. destruct Hs as [_ Hs].
  apply andb_true_iff in Hs. destruct Hs as [Hs _]. congruence.
Qed.

(** X14: the price route on a ticker whose dictionary has no price, or a
    price of zero.  For every symbol that is not blank the text is "Price
    not available for" and the symbol, and the route answers with status
    success: the test for an error looks for the words Error and
    unavailable, and the text holds neither. *)
Theorem get_stock_price_not_available :
  forall (ticker_info : string -> TickerInfo) (format_2f : Q -> string)
         (request_symbol : string) (currency : Currency)
         (regular current : option Q),
    let symbol := strip (upper request_symbol) in
    symbol <> EmptyString ->
    ticker_info symbol = InfoDict regular current currency ->
    (forall x, price_or regular current = Some x -> x == 0) ->
    get_stock_price ticker_info format_2f request_symbol
    = StockResponse symbol ("Price not available for " ++ symbol) "success"
        ("Price retrieved for " ++ symbol).
Proof.
  intros ticker_info format_2f request_symbol currency regular current symbol Hne Hi Hp.
  unfold get_stock_price. fold symbol.
  apply String.eqb_neq in Hne. rewrite Hne.
  assert (P : get_current_stock_price ticker_info format_2f symbol
              = ("Price not available for " ++ symbol)%string).
  { unfold get_current_stock_price. rewrite Hi.
    destruct (price_or regular current) as [x|]; [|reflexivity].
    specialize (Hp x eq_refl). apply Qeq_bool_iff in Hp. now rewrite Hp. }
  rewrite P.
  assert (L : no_lower symbol = true).
  { unfold symbol, no_lower. apply string_forallb_strip. apply no_lower_upper. }
  assert (E1 : contains "Error" ("Price not available for " ++ symbol)%string = false).
  { cbn. apply no_lower_contains; [reflexivity | exact L]. }
  assert (E2 : contains "unavailable" ("Price not available for " ++ symbol)%string = false).
  { cbn. apply no_lower_contains; [reflexivity | exact L]. }
  now rewrite E1, E2.
Qed.

Lemma get_stock_price_not_available_witness :
  get_stock_price unpriced plain_format " zzzz "
  = StockResponse "ZZZZ" "Price not available for ZZZZ" "success" "Price retrieved for ZZZZ".
Proof.
  apply (get_stock_price_not_available unpriced plain_format " zzzz "
           (CurrencyText "USD") None None).
  - vm_compute. discriminate.
  - reflexivity.
  - intros x H. discriminate.
Defined.

(** X15: the price route on a blank symbol.  The exception with status
    400 that the route raises for it is raised inside the [try] whose
    handler wraps every exception in one with status 500, so a symbol
    that is empty once upper-cased and stripped is answered with status
    500; any other symbol gets a response, never an exception, and the
    ticker is looked up under the upper-cased and stripped symbol. *)
Theorem get_stock_price_blank_symbol :
  forall (ticker_info : string -> TickerInfo) (format_2f : Q -> string)
         (request_symbol : string),
    (strip (upper request_symbol) = EmptyString ->
     get_stock_price ticker_info format_2f request_symbol = StockHTTPException 500)
    /\ (strip (upper request_symbol) <> EmptyString ->
        exists text status message,
          get_stock_price ticker_info format_2f request_symbol
          = StockResponse (strip (upper request_symbol)) text status message
          /\ text = get_current_stock_price ticker_info format_2f (strip (upper request_symbol))
          /\ (status = "error" \/ status = "success")).
Proof.
  intros ticker_info format_2f request_symbol. unfold get_stock_price. split.
  - intros ->. reflexivity.
  - intros H. apply String.eqb_neq in H. rewrite H.
    destruct (contains "Error" _ || contains "unavailable" _);
      eexists; eexists; eexists; (split; [reflexivity|]); auto.
Qed.

Lemma get_stock_price_blank_symbol_witness :
  get_stock_price unpriced plain_format "   " = StockHTTPException 500.
Proof.
  apply (get_stock_price_blank_symbol unpriced plain_format "   "). reflexivity.
Defined.

(** ** Addresses *)

Lemma sapp_nil_inv : forall a b : string,
  (a ++ b)%string = EmptyString -> a = EmptyString /\ b = EmptyString.
Proof. intros [|c a] b H; simpl in H; [auto | discriminate]. Qed.

Lemma cat_inv : forall r1 r2 s,
  Matches (Cat r1 r2) s ->
  exists s1 s2, s = (s1 ++ s2)%string /\ Matches r1 s1 /\ Matches r2 s2.
Proof. intros r1 r2 s H. inversion H; subst. eauto. Qed.

Lemma class_inv : forall p s,
  Matches (Class p) s -> exists c, s = String c EmptyString /\ p c = true.
Proof. intros p s H. inversion H; subst. eauto. Qed.

Lemma alt_inv : forall r1 r2 s,
  Matches (Alt r1 r2) s -> Matches r1 s \/ Matches r2 s.
Proof. intros r1 r2 s H. inversion H; subst; auto. Qed.

Lemma nullable_iff : forall r, nullable r = true <-> Matches r EmptyString.
Proof.
  induction r as [| |p|r1 IH1 r2 IH2|r1 IH1 r2 IH2|r IH]; simpl.
  - split; [discriminate | intros H; inversion H].
  - split; [constructor | reflexivity].
  - split; [discriminate | intros H; inversion H].
  - rewrite andb_true_iff, IH1, IH2. split.
    + intros [H1 H2]. apply (MCat r1 r2 EmptyString EmptyString); assumption.
    + intros H. apply cat_inv in H. destruct H as [s1 [s2 [E [H1 H2]]]].
      symmetry in E. apply sapp_nil_inv in E. destruct E as [-> ->]. auto.
  - rewrite orb_true_iff, IH1, IH2. split.
    + intros [H|H]; [now apply MAltL | now apply MAltR].
    + intros H. apply alt_inv in H. tauto.
  - split; [constructor | reflexivity].
Qed.

Lemma star_cons : forall r c s,
  Matches (Star r) (String c s) ->
  exists s1 s2, s = (s1 ++ s2)%string /\ Matches r (String c s1) /\ Matches (Star r) s2.
Proof.
  intros r c s H. remember (Star r) as R eqn:ER. remember (String c s) as x eqn:Ex.
  revert c s Ex.
  induction H as [|p a Ha| | | | |r' s1 s2 H1 _ H2 IH2]; intros c0 s0 Ex; try discriminate.
  injection ER as ->.
  destruct s1 as [|c1 s1]; simpl in Ex.
  - apply IH2; auto.
  - injection Ex as Ec Es. subst c0 s0. exists s1, s2. auto.
Qed.

Lemma deriv_iff : forall r c s, Matches (deriv c r) s <-> Matches r (String c s).
Proof.
  induction r as [| |p|r1 IH1 r2 IH2|r1 IH1 r2 IH2|r IH]; intros c s; simpl.
  - split; intros H; inversion H.
  - split; intros H; inversion H.
  - destruct (p c) eqn:E; split; intros H.
    + inversion H; subst. now constructor.
    + apply class_inv in H. destruct H as [c' [E' _]]. injection E' as _ ->. constructor.
    + inversion H.
    + apply class_inv in H. destruct H as [c' [E' Hc]]. injection E' as -> _. congruence.
  - split.
    + intros H. apply alt_inv in H. destruct H as [H|H].
      * apply cat_inv in H. destruct H as [s1 [s2 [-> [Ha Hb]]]].
        apply IH1 in Ha. apply (MCat r1 r2 (String c s1) s2); assumption.
      * destruct (nullable r1) eqn:N; [|inversion H].
        apply IH2 in H. apply nullable_iff in N.
        apply (MCat r1 r2 EmptyString (String c s)); assumption.
    + intros H. apply cat_inv in H. destruct H as [s1 [s2 [E [Ha Hb]]]].
      destruct s1 as [|c1 s1]; simpl in E.
      * subst s2. apply MAltR. apply nullable_iff in Ha. rewrite Ha. now apply IH2.
      * injection E as -> ->. apply MAltL. constructor; [now apply IH1 | assumption].
  - split; intros H; apply alt_inv in H; destruct H as [H|H];
      [apply MAltL; now apply IH1 | apply MAltR; now apply IH2
      |apply MAltL; now apply IH1 | apply MAltR; now apply IH2].
  - split.
    + intros H. apply cat_inv in H. destruct H as [s1 [s2 [-> [Ha Hb]]]].
      apply IH in Ha. apply (MStarS r (String c s1) s2); assumption.
    + intros H. apply star_cons in H. destruct H as [s1 [s2 [-> [Ha Hb]]]].
      constructor; [now apply IH | assumption].
Qed.

Lemma fullmatch_iff : forall s r, fullmatch r s = true <-> Matches r s.
Proof.
  induction s as [|c s IH]; intros r; simpl.
  - apply nullable_iff.
  - rewrite IH. apply deriv_iff.
Qed.

Lemma star_class_iff : forall p s,
  Matches (Star (Class p)) s <-> string_forallb p s = true.
Proof.
  intros p s. split.
  - induction s as [|c s IH]; intros H; [reflexivity|].
    apply star_cons in H. destruct H as [s1 [s2 [-> [Ha Hb]]]].
    apply class_inv in Ha. destruct Ha as [c' [E Hc]]. injection E as -> ->.
    simpl. rewrite Hc. simpl. now apply IH.
  - induction s as [|c s IH]; intros H; [constructor|].
    simpl in H. apply andb_true_iff in H. destruct H as [Hc Hs].
    apply (MStarS (Class p) (String c EmptyString) s); [now constructor | now apply IH].
Qed.

Lemma plus_class_iff : forall p s,
  Matches (Plus (Class p)) s <-> s <> EmptyString /\ string_forallb p s = true.
Proof.
  intros p s. unfold Plus. split.
  - intros H. apply cat_inv in H. destruct H as [s1 [s2 [-> [Ha Hb]]]].
    apply class_inv in Ha. destruct Ha as [c [-> Hc]].
    apply star_class_iff in Hb. simpl.
    split; [discriminate | now rewrite Hc, Hb].
  - intros [Hne H]. destruct s as [|c s]; [congruence|].
    simpl in H. apply andb_true_iff in H. destruct H as [Hc Hs].
    apply (MCat (Class p) (Star (Class p)) (String c EmptyString) s);
      [now constructor | now apply star_class_iff].
Qed.

Lemma email_re_iff : forall s, Matches EMAIL_RE s <-> address s.
Proof.
  intros s. unfold EMAIL_RE, address. split.
  - intros H.
    apply cat_inv in H. destruct H as [loc [s2 [-> [Hl H]]]].
    apply cat_inv in H. destruct H as [at_ [s3 [-> [Ha H]]]].
    apply cat_inv in H. destruct H as [dom [s4 [-> [Hd H]]]].
    apply cat_inv in H. destruct H as [dot [s5 [-> [Hdot H]]]].
    apply cat_inv in H. destruct H as [l1 [s6 [-> [Hl1 H]]]].
    apply cat_inv in H. destruct H as [l2 [s7 [-> [Hl2 H7]]]].
    apply plus_class_iff in Hl. apply plus_class_iff in Hd. apply star_class_iff in H7.
    apply class_inv in Ha. destruct Ha as [c [-> Hc]]. apply Ascii.eqb_eq in Hc. subst c.
    apply class_inv in Hdot. destruct Hdot as [c [-> Hc]]. apply Ascii.eqb_eq in Hc. subst c.
    apply class_inv in Hl1. destruct Hl1 as [c1 [-> Hc1]].
    apply class_inv in Hl2. destruct Hl2 as [c2 [-> Hc2]].
    exists loc, dom, (String c1 (String c2 s7)).
    destruct Hl as [Hl1' Hl2'], Hd as [Hd1 Hd2].
    simpl. rewrite Hc1, Hc2, H7. repeat split; auto. lia.
  - intros [loc [dom [tld [-> [Hl1 [Hl2 [Hd1 [Hd2 [Ht1 Ht2]]]]]]]]].
    destruct tld as [|c1 [|c2 tld]]; simpl in Ht1; try lia.
    simpl in Ht2. apply andb_true_iff in Ht2. destruct Ht2 as [Hc1 Ht2].
    apply andb_true_iff in Ht2. destruct Ht2 as [Hc2 Ht2].
    apply MCat; [apply plus_class_iff; auto|].
    apply (MCat _ _ "@"); [constructor; apply Ascii.eqb_refl|].
    apply MCat; [apply plus_class_iff; auto|].
    apply (MCat _ _ "."); [constructor; apply Ascii.eqb_refl|].
    apply (MCat _ _ (String c1 EmptyString)); [now constructor|].
    apply (MCat _ _ (String c2 EmptyString)); [now constructor|].
    now apply star_class_iff.
Qed.

Lemma string_rev_eq_cons : forall s c t,
  string_rev s = String c t -> s = (string_rev t ++ String c EmptyString)%string.
Proof.
  intros s c t H. rewrite <- (string_rev_involutive s), H.
  apply string_rev_cons.
Qed.

(** X16: the addresses [validate_email] accepts.  An address is accepted
    exactly when it, or what is left of it without one line feed at its
    very end, is a local part, an at sign, a domain, a dot and letters:
    the local part is one or more of letters, digits, dot, underscore,
    percent, plus and minus, the domain one or more of letters, digits,
    dot and minus, and the letters after the last dot are two or more. *)
Theorem validate_email_iff :
  forall email : string,
    validate_email email = true <->
    address email \/ exists core, email = (core ++ nl)%string /\ address core.
Proof.
  intros email. unfold validate_email, match_to_end.
  rewrite orb_true_iff, fullmatch_iff, email_re_iff. split.
  - intros [H|H]; [now left | right].
    destruct (string_rev email) as [|c t] eqn:E; [discriminate|].
    apply andb_true_iff in H. destruct H as [Hc H].
    apply fullmatch_iff, email_re_iff in H.
    apply Nat.eqb_eq in Hc.
    assert (c = NL) as ->.
    { unfold code in Hc. rewrite <- (ascii_nat_embedding c), Hc. reflexivity. }
    exists (string_rev t). split; [|exact H].
    now apply string_rev_eq_cons.
  - intros [H|[core [-> H]]]; [now left | right].
    rewrite string_rev_app. simpl.
    change (code NL =? 10)%nat with true. simpl.
    rewrite string_rev_involutive. now apply fullmatch_iff, email_re_iff.
Qed.

(** ** Accounts *)

Lemma find_none_app : forall (A : Type) (f : A -> bool) (l : list A) (x : A),
  existsb f l = false -> f x = true -> find f (l ++ [x]) = Some x.
Proof.
  intros A f l x. induction l as [|a l IH]; simpl; intros H Hx.
  - now rewrite Hx.
  - destruct (f a); [discriminate | auto].
Qed.

Lemma find_none_existsb : forall (A : Type) (f : A -> bool) (l : list A),
  find f l = None <-> existsb f l = false.
Proof.
  intros A f l. induction l as [|a l IH]; simpl; [tauto|].
  destruct (f a); simpl; [split; discriminate | exact IH].
Qed.

Lemma blank_password : forall password : string,
  (String.eqb password EmptyString || (String.length (strip password) <? 1)%nat)
  = String.eqb (strip password) EmptyString.
Proof.
  intros password. destruct (String.eqb_spec password EmptyString) as [->|_]; [reflexivity|].
  simpl. destruct (strip password); reflexivity.
Qed.

(** X17: an account that was just made can be logged into.  When
    [/register] answers with success and the hashing library accepts the
    password against its own hash, a [/login] with the same password and
    an address that is well formed and equal to the registered one after
    lower-casing and trimming succeeds and gives back the trimmed name
    and the stored address; unless the password is only white space, for
    which the account is made but [/login] answers that a password is
    required. *)
Theorem register_then_login :
  forall (get_password_hash : string -> string)
         (verify_password : string -> string -> bool) (integrity_text : string)
         (db db' : Db) (name email password email' : string) (r : LoginResponse),
    verify_password password (get_password_hash password) = true ->
    register get_password_hash integrity_text db name email password = (r, db') ->
    success r = true ->
    validate_email email' = true ->
    strip (lower email') = strip (lower email) ->
    login verify_password db' email' password =
      if String.eqb (strip password) EmptyString
      then mkLoginResponse false "Password required" None None
      else mkLoginResponse true "Login successful"
             (Some (strip name)) (Some (strip (lower email))).
Proof.
  intros hash verify itext db db' name email password email' r Hv Hr Hs He' Hk.
  unfold login. rewrite He', blank_password. simpl.
  destruct (String.eqb (strip password) EmptyString); [reflexivity|].
  unfold register, create_user in Hr.
  destruct (negb (validate_name name)); [injection Hr as <- _; discriminate|].
  destruct (negb (validate_email email)); [injection Hr as <- _; discriminate|].
  destruct (String.length password <? 4)%nat; [injection Hr as <- _; discriminate|].
  destruct (get_user_by_email db email); [injection Hr as <- _; discriminate|].
  unfold insert_user in Hr.
  destruct (existsb _ db) eqn:Ex; [injection Hr as <- _; discriminate|].
  injection Hr as _ <-.
  unfold authenticate_user, get_user_by_email. rewrite Hk.
  rewrite (find_none_app _ _ _ _ Ex) by (simpl; apply String.eqb_refl).
  simpl. rewrite Hv. reflexivity.
Qed.

Lemma register_then_login_witness :
  login toy_verify
    (snd (register toy_hash EmptyString one_user "Bob" "Bob@Example.com" "pass"))
    "BOB@example.com" "pass"
  = mkLoginResponse true "Login successful" (Some "Bob") (Some "bob@example.com").
Proof.
  apply (register_then_login toy_hash toy_verify EmptyString one_user
           (snd (register toy_hash EmptyString one_user "Bob" "Bob@Example.com" "pass"))
           "Bob" "Bob@Example.com" "pass" "BOB@example.com"
           (fst (register toy_hash EmptyString one_user "Bob" "Bob@Example.com" "pass")));
    reflexivity.
Defined.

(** X18: a second registration under another spelling of an address.
    [create_user] looks for the address as it was typed but stores it in
    lower case and trimmed; so when the name, the address and the
    password pass the checks, no account has the address as typed, and
    one has its stored form, the insertion breaks the uniqueness of the
    column: [/register] answers with the text of the database error, not
    with the message that the address is in use, and no account is
    added. *)
Theorem register_other_spelling :
  forall (get_password_hash : string -> string) (integrity_text : string)
         (db : Db) (name email password : string) (u : User),
    validate_name name = true ->
    validate_email email = true ->
    (4 <= String.length password)%nat ->
    get_user_by_email db email = None ->
    In u db ->
    user_email u = strip (lower email) ->
    register get_password_hash integrity_text db name email password =
      (mkLoginResponse false ("Error: " ++ integrity_text) None None, db).
Proof.
  intros hash itext db name email password u Hn He Hp Hraw Hin Hu.
  unfold register, create_user. rewrite Hn, He, Hraw. simpl.
  destruct (Nat.ltb_spec (String.length password) 4) as [L|_]; [lia|].
  unfold insert_user.
  assert (Ex : existsb (fun v => String.eqb (user_email v) (strip (lower email))) db = true).
  { apply existsb_exists. exists u. split; [exact Hin|]. rewrite Hu. apply String.eqb_refl. }
  rewrite Ex. reflexivity.
Qed.

Lemma register_other_spelling_witness :
  register toy_hash "UNIQUE constraint failed: users.email" one_user
    "Ann" "Ann@Example.com" "secret"
  = (mkLoginResponse false "Error: UNIQUE constraint failed: users.email" None None,
     one_user).
Proof.
  apply (register_other_spelling toy_hash "UNIQUE constraint failed: users.email"
           one_user "Ann" "Ann@Example.com" "secret"
           (mkUser 1 "Ann" "ann@example.com" (toy_hash "secret")));
    try reflexivity.
  - simpl. lia.
  - left. reflexivity.
Defined.

(** ** Sessions *)

Lemma get_save_same : forall (S : Type) (store : Sessions S) k (v : Session S),
  get_session (save_session store k v) k = Some v.
Proof.
  intros S store k v. induction store as [|[k' v'] r IH]; simpl.
  - now rewrite String.eqb_refl.
  - destruct (String.eqb k' k) eqn:E; simpl; rewrite E; [reflexivity | exact IH].
Qed.

Lemma get_save_other : forall (S : Type) (store : Sessions S) k k' (v : Session S),
  k' <> k -> get_session (save_session store k v) k' = get_session store k'.
Proof.
  intros S store k k' v Hne. induction store as [|[k0 v0] r IH]; simpl.
  - destruct (String.eqb_spec k k'); [congruence | reflexivity].
  - destruct (String.eqb_spec k0 k) as [->|N]; simpl.
    + destruct (String.eqb_spec k k'); [congruence | reflexivity].
    + destruct (String.eqb k0 k'); [reflexivity | exact IH].
Qed.

(** X19: an upload that cannot be read.  [/upload] raises the error 400;
    when the request names a session of the store, the store is left as
    it was, and otherwise a new session has already been saved under the
    fresh identifier and stays there, with no table, no summary and the
    opening message only, every other identifier reading as before. *)
Theorem upload_file_unreadable :
  forall (Summary : Type) (summarise_dataframe : DataFrame -> Summary)
         (read_csv : string -> option string -> CsvRead)
         (read_excel : string -> option Engine -> option DataFrame)
         (store : Sessions Summary) (data filename : string)
         (session_id : option string) (uuid4 : string),
    read_excel_any read_csv read_excel data filename = ReadFailure ->
    let out := upload_file summarise_dataframe read_csv read_excel
                 store data filename session_id uuid4 in
    fst out = UploadHTTP400
    /\ (named_session store session_id <> None -> snd out = store)
    /\ (named_session store session_id = None ->
        get_session (snd out) uuid4 = Some new_session
        /\ forall k, k <> uuid4 -> get_session (snd out) k = get_session store k).
Proof.
  intros S summ rc re store data filename session_id uuid4 Hread out.
  subst out. unfold upload_file. rewrite Hread.
  destruct session_id as [sid|].
  - destruct (named_session store (Some sid)) as [s|] eqn:E; simpl.
    + split; [reflexivity|]. split; [intros _; reflexivity | discriminate].
    + split; [reflexivity|]. split; [congruence|]. intros _.
      split; [apply get_save_same | intros k Hk; now apply get_save_other].
  - simpl. split; [reflexivity|]. split; [congruence|]. intros _.
    split; [apply get_save_same | intros k Hk; now apply get_save_other].
Qed.

Lemma upload_file_unreadable_witness :
  fst (upload_file count_rows no_csv sheet_reader [] "a,b" "data.csv" (Some "gone") "id-1")
  = UploadHTTP400
  /\ get_session
       (snd (upload_file count_rows no_csv sheet_reader [] "a,b" "data.csv"
               (Some "gone") "id-1")) "id-1"
     = Some new_session.
Proof.
  destruct (upload_file_unreadable nat count_rows no_csv sheet_reader [] "a,b" "data.csv"
              (Some "gone") "id-1") as [H1 [_ H3]]; [reflexivity|].
  split; [exact H1|]. apply H3. reflexivity.
Defined.

(** X20: an upload that is read.  The response names the session of the
    request when the store has it and the fresh identifier otherwise, and
    carries the summary of the table read; under that identifier the
    store then holds the table and its summary together with the
    messages the session had, or the opening message for a new one; every
    other identifier reads as before. *)
Theorem upload_file_attaches :
  forall (Summary : Type) (summarise_dataframe : DataFrame -> Summary)
         (read_csv : string -> option string -> CsvRead)
         (read_excel : string -> option Engine -> option DataFrame)
         (store : Sessions Summary) (data filename : string)
         (session_id : option string) (uuid4 : string) (df : DataFrame),
    read_excel_any read_csv read_excel data filename = Parsed df ->
    let out := upload_file summarise_dataframe read_csv read_excel
                 store data filename session_id uuid4 in
    let sid := match session_id, named_session store session_id with
               | Some s, Some _ => s
               | _, _ => uuid4
               end in
    let history := match named_session store session_id with
                   | Some session => sess_chat session
                   | None => sess_chat (@new_session Summary)
                   end in
    fst out = UploadResponse sid (summarise_dataframe df)
    /\ get_session (snd out) sid
       = Some (mkSession (Some df) (Some (summarise_dataframe df)) history)
    /\ forall k, k <> sid -> get_session (snd out) k = get_session store k.
Proof.
  intros S summ rc re store data filename session_id uuid4 df Hread out sid history.
  subst out sid history. unfold upload_file. rewrite Hread.
  destruct session_id as [s|].
  - destruct (named_session store (Some s)) as [session|] eqn:E; simpl.
    + split; [reflexivity|]. split; [apply get_save_same|].
      intros k Hk. now apply get_save_other.
    + split; [reflexivity|]. split; [apply get_save_same|].
      intros k Hk. rewrite !get_save_other by assumption. reflexivity.
  - simpl. split; [reflexivity|]. split; [apply get_save_same|].
    intros k Hk. rewrite !get_save_other by assumption. reflexivity.
Qed.

Lemma upload_file_attaches_witness :
  fst (upload_file count_rows no_csv sheet_reader
         [("s1", mkSession None None [mkMessage "user" (Some "hi")])]
         "bytes" "Book.xlsx" (Some "s1") "id-1")
  = UploadResponse "s1" 2%nat.
Proof.
  destruct (upload_file_attaches nat count_rows no_csv sheet_reader
              [("s1", mkSession None None [mkMessage "user" (Some "hi")])]
              "bytes" "Book.xlsx" (Some "s1") "id-1"
              (apply_coerce_numeric
                 (mkDF [0; 1]%nat [("Price", ObjCol [Some "£1,200"; Some "n/a"]);
                                   ("Note", ObjCol (repeat (Some "n/a") 11))])))
    as [H1 _]; [reflexivity|].
  exact H1.
Defined.
